(** * x-research: budget ledger, remote fetch client and aggregator

    A shallow embedding of [lib/usage.ts] (budget ledger), of the
    [usage budget] sub-commands of [x-search.ts], and of [lib/api.ts]
    (fetch client, normalization, dedupe), with the properties of the
    specification proved or refuted over it.

    Conventions of the embedding:
    - a JavaScript [number] is a binary64 value ([Binary64.number]),
      computed with the Standard Library's specification of IEEE 754
      arithmetic, wherever its rounding can be seen: the amounts of the
      ledger in [Usage64], the wait of a rate-limited request in [Api];
    - a count of tweets or a time is an integer ([Z]): the sums and
      differences the source takes of them are exact below 2^53;
    - [Usage] is the ledger with its amounts as exact rationals ([Q]), the
      arithmetic the specification states its accounting in; it carries
      the properties that rounding does not touch, and [Usage64] carries
      those it does;
    - [Date.now()] is a [Z], the milliseconds since the epoch; the calendar
      date [new Date().toISOString().split("T")[0]] is represented by the
      UTC day number [now / 86400000], of which the "YYYY-MM-DD" text is an
      injective rendering, so [!==] on dates is [<>] on day numbers;
    - a property that may be missing from a JSON object is an [option];
    - the budget file, the network and the clock are explicit state. *)

From Stdlib Require Import ZArith QArith Lqa Lia Ascii String.
From Stdlib Require Import Floats.SpecFloat.
From stdpp Require Import base decidable option list gmap sets strings pretty.

Open Scope Z_scope.

(** ** Comparisons on rationals, as booleans *)

Definition Qlt_bool (x y : Q) : bool := negb (Qle_bool y x).

(** * The numbers of the engine: IEEE 754 binary64 *)

Module Binary64.

(** A JavaScript [number]: a binary64 value of the Standard Library's
    specification of floating-point arithmetic (53 bits of precision,
    round to nearest, ties to even). *)
Definition number : Type := spec_float.

Definition prec : Z := 53.
Definition emax : Z := 1024.

Definition NaN : number := S754_nan.
Definition zero : number := S754_zero false.

Definition add : number -> number -> number := SFadd prec emax.
Definition sub : number -> number -> number := SFsub prec emax.
Definition mul : number -> number -> number := SFmul prec emax.
Definition div : number -> number -> number := SFdiv prec emax.

(** [x < y] and [x <= y]; [x > y] is [ltb y x] and [x >= y] is
    [leb y x]. Every comparison with [NaN] is false. *)
Definition ltb : number -> number -> bool := SFltb.
Definition leb : number -> number -> bool := SFleb.

(** [x == y] on numbers: [NaN] equals nothing, [-0] equals [+0]. *)
Definition eqb : number -> number -> bool := SFeqb.

(** [x > y] and [x >= y], as propositions. *)
Definition gt (x y : number) : Prop := ltb y x = true.
Definition ge (x y : number) : Prop := leb y x = true.

(** The number nearest to an integer: itself up to 2^53. *)
Definition of_Z (z : Z) : number := binary_normalize prec emax z 0 false.

(** The decimal literal [m / 10^k] of a program text or of [parseFloat],
    for [m] and [10^k] below 2^53: the number nearest to it, which is what
    the correctly rounded quotient of the two integers is. *)
Definition decimal (m : Z) (k : Z) : number := div (of_Z m) (of_Z (10 ^ k)).

Definition isNaN (x : number) : bool :=
  match x with S754_nan => true | _ => false end.

Definition is_finite (x : number) : bool :=
  match x with
  | S754_zero _ | S754_finite _ _ _ => true
  | S754_infinity _ | S754_nan => false
  end.

(** [Math.floor(x)] *)
Definition Math_floor (x : number) : number :=
  match x with
  | S754_finite s m e =>
      if 0 <=? e then x
      else
        let z := cond_Zopp s (Zpos m) / 2 ^ (- e) in
        if z =? 0 then S754_zero s else of_Z z
  | _ => x
  end.

(** [Math.max(a, b)]: [NaN] when either is; [+0] is above [-0]. *)
Definition Math_max (a b : number) : number :=
  match SFcompare a b with
  | None => NaN
  | Some Lt => b
  | Some Gt => a
  | Some Eq => match a with S754_zero true => b | _ => a end
  end.

End Binary64.

(** * The budget ledger ([lib/usage.ts]), over exact amounts *)

Module Usage.

(** ** Data *)

Definition MS_PER_DAY : Z := 86400000.

(** [new Date(now).toISOString().split("T")[0]], as a day number. *)
Definition utc_day (now : Z) : Z := now / MS_PER_DAY.

(** Price of one post read, in USD: the literal [0.005] of the source. *)
Definition UNIT_PRICE : Q := 0.005%Q.

Record LocalTracking : Type := mkTracking {
  today : Z;             (* YYYY-MM-DD, as a UTC day number *)
  todayPostReads : Z;
  todayCost : Q;
  rollingPostReads : Z;  (* "30-day rolling" *)
  rollingCost : Q;
  lastReset : Z          (* ISO timestamp, as milliseconds *)
}.

Record BudgetConfig : Type := mkBudget {
  dailyLimitUsd : Q;     (* 0 = unlimited *)
  monthlyLimitUsd : Q;   (* 0 = unlimited *)
  warnThreshold : Q;
  localTracking : LocalTracking
}.

(** [DEFAULT_BUDGET] is built when the module is loaded: [boot] is the
    clock reading of that moment. *)
Definition DEFAULT_BUDGET (boot : Z) : BudgetConfig :=
  {| dailyLimitUsd := 0;
     monthlyLimitUsd := 0;
     warnThreshold := 0.8;
     localTracking :=
       {| today := utc_day boot;
          todayPostReads := 0;
          todayCost := 0;
          rollingPostReads := 0;
          rollingCost := 0;
          lastReset := boot |} |}.

(** ** The persisted state and the clock *)

(** What is at [BUDGET_PATH]: nothing, text that [JSON.parse] rejects, or
    a budget document written by [saveBudget]. *)
Inductive BudgetFile : Type :=
  | FileAbsent
  | FileCorrupt
  | FileHolds (b : BudgetConfig).

(** The two clock readings of one process: module load and the call. *)
Record Env : Type := mkEnv { boot : Z; now : Z }.

(** Computations over the budget file. *)
Definition Ledger (A : Type) : Type := BudgetFile -> A * BudgetFile.

Definition ret {A} (a : A) : Ledger A := fun f => (a, f).

Definition bind {A B} (m : Ledger A) (k : A -> Ledger B) : Ledger B :=
  fun f => let (a, f') := m f in k a f'.

Notation "'do' x <- m ; k" := (bind m (fun x => k))
  (at level 10, x name, m at level 100, k at level 200, only parsing).

Definition readBudgetFile : Ledger BudgetFile := fun f => (f, f).

(** [saveBudget]: [writeFileSync] of the whole document (a write that
    fails is not modelled). *)
Definition saveBudget (budget : BudgetConfig) : Ledger unit :=
  fun _ => (tt, FileHolds budget).

(** [loadBudget]: defaults when the file is absent or unparsable; otherwise
    the stored document, with today's counters zeroed when the stored date
    is not today's. Nothing is written. *)
Definition loadBudget (e : Env) : Ledger BudgetConfig :=
  do f <- readBudgetFile ;
  match f with
  | FileAbsent => ret (DEFAULT_BUDGET (boot e))
  | FileCorrupt => ret (DEFAULT_BUDGET (boot e))
  | FileHolds raw =>
      let day := utc_day (now e) in
      let lt := localTracking raw in
      if decide (today lt <> day) then
        ret {| dailyLimitUsd := dailyLimitUsd raw;
               monthlyLimitUsd := monthlyLimitUsd raw;
               warnThreshold := warnThreshold raw;
               localTracking :=
                 {| today := day;
                    todayPostReads := 0;
                    todayCost := 0;
                    rollingPostReads := rollingPostReads lt;
                    rollingCost := rollingCost lt;
                    lastReset := lastReset lt |} |}
      else ret raw
  end.

(** ** [recordUsage] *)

(** The three messages of [recordUsage], with the two amounts each one
    prints. *)
Inductive Warning : Type :=
  | DailyExceeded (cost limit : Q)      (* "DAILY BUDGET EXCEEDED" *)
  | DailyWarning (cost limit : Q)       (* "Budget warning: ... daily limit" *)
  | MonthlyExceeded (cost limit : Q).   (* "MONTHLY BUDGET EXCEEDED" *)

Inductive Cap : Type := Daily | Monthly.
Inductive Level : Type := Exceeded | Approaching.

Definition warning_class (w : Warning) : Level * Cap :=
  match w with
  | DailyExceeded _ _ => (Exceeded, Daily)
  | DailyWarning _ _ => (Approaching, Daily)
  | MonthlyExceeded _ _ => (Exceeded, Monthly)
  end.

(** The limit checks at the end of [recordUsage], on the updated budget. *)
Definition checkLimits (budget : BudgetConfig) : option Warning :=
  let lt := localTracking budget in
  if Qlt_bool 0 (dailyLimitUsd budget)
     && Qle_bool (dailyLimitUsd budget) (todayCost lt)
  then Some (DailyExceeded (todayCost lt) (dailyLimitUsd budget))
  else if Qlt_bool 0 (dailyLimitUsd budget)
          && Qle_bool (dailyLimitUsd budget * warnThreshold budget)
                      (todayCost lt)
  then Some (DailyWarning (todayCost lt) (dailyLimitUsd budget))
  else if Qlt_bool 0 (monthlyLimitUsd budget)
          && Qle_bool (monthlyLimitUsd budget) (rollingCost lt)
  then Some (MonthlyExceeded (rollingCost lt) (monthlyLimitUsd budget))
  else None.

(** The in-place updates of [recordUsage] on the loaded budget. *)
Definition addUsage (day : Z) (postReads : Z) (budget : BudgetConfig)
  : BudgetConfig :=
  let cost := (inject_Z postReads * UNIT_PRICE)%Q in
  let lt := localTracking budget in
  let lt1 :=
    if decide (today lt <> day) then
      {| today := day; todayPostReads := 0; todayCost := 0;
         rollingPostReads := rollingPostReads lt;
         rollingCost := rollingCost lt;
         lastReset := lastReset lt |}
    else lt in
  {| dailyLimitUsd := dailyLimitUsd budget;
     monthlyLimitUsd := monthlyLimitUsd budget;
     warnThreshold := warnThreshold budget;
     localTracking :=
       {| today := today lt1;
          todayPostReads := todayPostReads lt1 + postReads;
          todayCost := (todayCost lt1 + cost)%Q;
          rollingPostReads := rollingPostReads lt1 + postReads;
          rollingCost := (rollingCost lt1 + cost)%Q;
          lastReset := lastReset lt1 |} |}.

Definition recordUsage (e : Env) (postReads : Z) : Ledger (option Warning) :=
  do budget <- loadBudget e ;
  let budget' := addUsage (utc_day (now e)) postReads budget in
  do _ <- saveBudget budget' ;
  ret (checkLimits budget').

(** ** [checkBudget] *)

(** The two "Request blocked" messages, with the amounts they print. *)
Inductive Block : Type :=
  | DailyBlock (spent estimatedCost limit : Q)
  | MonthlyBlock (spent estimatedCost limit : Q).

Definition checkBudget (e : Env) (estimatedPostReads : Z)
  : Ledger (option Block) :=
  do budget <- loadBudget e ;
  let estimatedCost := (inject_Z estimatedPostReads * UNIT_PRICE)%Q in
  let lt := localTracking budget in
  if Qlt_bool 0 (dailyLimitUsd budget)
     && Qlt_bool (dailyLimitUsd budget) (todayCost lt + estimatedCost)
  then ret (Some (DailyBlock (todayCost lt) estimatedCost
                             (dailyLimitUsd budget)))
  else if Qlt_bool 0 (monthlyLimitUsd budget)
          && Qlt_bool (monthlyLimitUsd budget)
                      (rollingCost lt + estimatedCost)
  then ret (Some (MonthlyBlock (rollingCost lt) estimatedCost
                               (monthlyLimitUsd budget)))
  else ret None.

(** ** The [usage budget] sub-commands of [cmdUsage] *)

(** [usage budget reset]. *)
Definition budgetReset (e : Env) : Ledger unit :=
  do budget <- loadBudget e ;
  saveBudget
    {| dailyLimitUsd := dailyLimitUsd budget;
       monthlyLimitUsd := monthlyLimitUsd budget;
       warnThreshold := warnThreshold budget;
       localTracking :=
         {| today := utc_day (now e);
            todayPostReads := 0;
            todayCost := 0;
            rollingPostReads := 0;
            rollingCost := 0;
            lastReset := now e |} |}.

(** [usage budget set-daily <x>]: [limit] is [parseFloat(args[3])], [None]
    for [NaN]; a [NaN] or negative limit exits before anything is saved
    ([false]). *)
Definition budgetSetDaily (e : Env) (limit : option Q) : Ledger bool :=
  do budget <- loadBudget e ;
  match limit with
  | None => ret false
  | Some x =>
      if Qlt_bool x 0 then ret false
      else
        do _ <- saveBudget
               {| dailyLimitUsd := x;
                  monthlyLimitUsd := monthlyLimitUsd budget;
                  warnThreshold := warnThreshold budget;
                  localTracking := localTracking budget |} ;
        ret true
  end.

(** [usage budget set-monthly <x>]. *)
Definition budgetSetMonthly (e : Env) (limit : option Q) : Ledger bool :=
  do budget <- loadBudget e ;
  match limit with
  | None => ret false
  | Some x =>
      if Qlt_bool x 0 then ret false
      else
        do _ <- saveBudget
               {| dailyLimitUsd := dailyLimitUsd budget;
                  monthlyLimitUsd := x;
                  warnThreshold := warnThreshold budget;
                  localTracking := localTracking budget |} ;
        ret true
  end.

(** ** Runs of ledger operations *)

Inductive LedgerOp : Type :=
  | OpRecord (postReads : Z)
  | OpCheck (estimatedPostReads : Z)
  | OpStatus
  | OpReset
  | OpSetDaily (limit : option Q)
  | OpSetMonthly (limit : option Q).

(** One process: its clock readings and the operation it performs. *)
Definition step (f : BudgetFile) (c : Env * LedgerOp) : BudgetFile :=
  let (e, op) := c in
  match op with
  | OpRecord n => snd (recordUsage e n f)
  | OpCheck n => snd (checkBudget e n f)
  | OpStatus => snd (loadBudget e f)
  | OpReset => snd (budgetReset e f)
  | OpSetDaily x => snd (budgetSetDaily e x f)
  | OpSetMonthly x => snd (budgetSetMonthly e x f)
  end.

Definition run (f : BudgetFile) (ops : list (Env * LedgerOp)) : BudgetFile :=
  fold_left step ops f.

(** The budget an operation starting at [e] would work on. *)
Definition loaded (e : Env) (f : BudgetFile) : BudgetConfig :=
  fst (loadBudget e f).

(** The configuration in force for a budget file: its own, or the
    defaults. *)
Definition configured (e : Env) (f : BudgetFile) : BudgetConfig :=
  match f with
  | FileHolds b => b
  | _ => DEFAULT_BUDGET (boot e)
  end.

Definition class_of (w : option Warning) : option (Level * Cap) :=
  option_map warning_class w.

(** ** Notions of the specification *)

(** The accounting invariant: each cost is its read count times the unit
    price. *)
Definition ledger_ok (b : BudgetConfig) : Prop :=
  let lt := localTracking b in
  (todayCost lt == inject_Z (todayPostReads lt) * UNIT_PRICE)%Q /\
  (rollingCost lt == inject_Z (rollingPostReads lt) * UNIT_PRICE)%Q.

Definition file_ok (f : BudgetFile) : Prop :=
  match f with
  | FileHolds b => ledger_ok b
  | _ => True
  end.

(** A log of [recordUsage] calls: the clock reading and the units of
    each, oldest first. *)
Definition record_ops (log : list (Z * Z)) : list (Env * LedgerOp) :=
  map (fun c => ({| boot := fst c; now := fst c |}, OpRecord (snd c))) log.

Definition sum_units (log : list (Z * Z)) : Z :=
  fold_right (fun c acc => snd c + acc) 0 log.

(** The units recorded on the UTC day of [t]. *)
Definition units_of_day (t : Z) (log : list (Z * Z)) : Z :=
  sum_units (filter (fun c => utc_day (fst c) = utc_day t) log).

(** The units recorded within the 30 days that end at [t]. *)
Definition units_of_window (t : Z) (log : list (Z * Z)) : Z :=
  sum_units (filter (fun c => t - fst c < 30 * MS_PER_DAY) log).

(** The clock of a log never moves back to an earlier day. *)
Fixpoint days_ascend (log : list (Z * Z)) : Prop :=
  match log with
  | [] => True
  | c :: rest =>
      Forall (fun c' => utc_day (fst c) <= utc_day (fst c')) rest /\
      days_ascend rest
  end.

End Usage.

(** * The budget ledger on the engine's numbers *)

(** [lib/usage.ts] and the [usage budget] sub-commands once more, with
    every amount a binary64 number, rounded where the engine rounds, and
    written to [budget.json] the way [JSON.stringify] writes numbers. Read
    counts stay integers: they are counts of tweets, far below 2^53, on
    which the additions of the source are exact. *)
Module Usage64.
Import Binary64.

(** ** Data *)

(** A numeric property of the budget as [JSON.parse] gives it: a number,
    or [null], which [JSON.stringify] writes for [NaN] and the
    infinities. *)
Inductive JsNum : Type :=
  | Null
  | Num (x : number).

(** [null] counts as [+0] in arithmetic and in comparisons. *)
Definition to_number (v : JsNum) : number :=
  match v with
  | Null => zero
  | Num x => x
  end.

(** [JSON.parse(JSON.stringify(v))]: a finite number is read back as it
    was, except that [-0] is written "0". *)
Definition json (v : JsNum) : JsNum :=
  match v with
  | Null => Null
  | Num (S754_zero _) => Num zero
  | Num (S754_finite s m e) => Num (S754_finite s m e)
  | Num (S754_infinity _) => Null
  | Num S754_nan => Null
  end.

(** Price of one post read, in USD: the literal [0.005]. *)
Definition UNIT_PRICE : number := decimal 5 3.

Record LocalTracking : Type := mkTracking {
  today : Z;             (* YYYY-MM-DD, as a UTC day number *)
  todayPostReads : Z;
  todayCost : JsNum;
  rollingPostReads : Z;  (* "30-day rolling" *)
  rollingCost : JsNum;
  lastReset : Z          (* ISO timestamp, as milliseconds *)
}.

Record BudgetConfig : Type := mkBudget {
  dailyLimitUsd : JsNum;     (* 0 = unlimited *)
  monthlyLimitUsd : JsNum;   (* 0 = unlimited *)
  warnThreshold : JsNum;
  localTracking : LocalTracking
}.

Definition DEFAULT_BUDGET (boot : Z) : BudgetConfig :=
  {| dailyLimitUsd := Num zero;
     monthlyLimitUsd := Num zero;
     warnThreshold := Num (decimal 8 1);
     localTracking :=
       {| today := Usage.utc_day boot;
          todayPostReads := 0;
          todayCost := Num zero;
          rollingPostReads := 0;
          rollingCost := Num zero;
          lastReset := boot |} |}.

(** The budget as it is read back from the file it was written to. *)
Definition json_budget (b : BudgetConfig) : BudgetConfig :=
  let lt := localTracking b in
  {| dailyLimitUsd := json (dailyLimitUsd b);
     monthlyLimitUsd := json (monthlyLimitUsd b);
     warnThreshold := json (warnThreshold b);
     localTracking :=
       {| today := today lt;
          todayPostReads := todayPostReads lt;
          todayCost := json (todayCost lt);
          rollingPostReads := rollingPostReads lt;
          rollingCost := json (rollingCost lt);
          lastReset := lastReset lt |} |}.

(** ** The persisted state and the clock *)

(** What is at [BUDGET_PATH]: nothing, text that [JSON.parse] rejects, or
    a budget document written by [saveBudget], given as [JSON.parse]
    reads it. *)
Inductive BudgetFile : Type :=
  | FileAbsent
  | FileCorrupt
  | FileHolds (b : BudgetConfig).

Definition Ledger (A : Type) : Type := BudgetFile -> A * BudgetFile.

Definition ret {A} (a : A) : Ledger A := fun f => (a, f).

Definition bind {A B} (m : Ledger A) (k : A -> Ledger B) : Ledger B :=
  fun f => let (a, f') := m f in k a f'.

Notation "'do' x <- m ; k" := (bind m (fun x => k))
  (at level 10, x name, m at level 100, k at level 200, only parsing).

Definition readBudgetFile : Ledger BudgetFile := fun f => (f, f).

(** [saveBudget]: [writeFileSync] of [JSON.stringify(budget)]. *)
Definition saveBudget (budget : BudgetConfig) : Ledger unit :=
  fun _ => (tt, FileHolds (json_budget budget)).

(** [loadBudget] *)
Definition loadBudget (e : Usage.Env) : Ledger BudgetConfig :=
  do f <- readBudgetFile ;
  match f with
  | FileAbsent => ret (DEFAULT_BUDGET (Usage.boot e))
  | FileCorrupt => ret (DEFAULT_BUDGET (Usage.boot e))
  | FileHolds raw =>
      let day := Usage.utc_day (Usage.now e) in
      let lt := localTracking raw in
      if decide (today lt <> day) then
        ret {| dailyLimitUsd := dailyLimitUsd raw;
               monthlyLimitUsd := monthlyLimitUsd raw;
               warnThreshold := warnThreshold raw;
               localTracking :=
                 {| today := day;
                    todayPostReads := 0;
                    todayCost := Num zero;
                    rollingPostReads := rollingPostReads lt;
                    rollingCost := rollingCost lt;
                    lastReset := lastReset lt |} |}
      else ret raw
  end.

(** ** [recordUsage] *)

(** The three messages of [recordUsage], with the two amounts each one
    prints. *)
Inductive Warning : Type :=
  | DailyExceeded (cost limit : number)
  | DailyWarning (cost limit : number)
  | MonthlyExceeded (cost limit : number).

Inductive Cap : Type := Daily | Monthly.
Inductive Level : Type := Exceeded | Approaching.

Definition warning_class (w : Warning) : Level * Cap :=
  match w with
  | DailyExceeded _ _ => (Exceeded, Daily)
  | DailyWarning _ _ => (Approaching, Daily)
  | MonthlyExceeded _ _ => (Exceeded, Monthly)
  end.

Definition class_of (w : option Warning) : option (Level * Cap) :=
  option_map warning_class w.

(** The limit checks at the end of [recordUsage], on the updated budget:
    [limit > 0 && cost >= limit], then
    [limit > 0 && cost >= limit * warnThreshold], then the monthly pair. *)
Definition checkLimits (budget : BudgetConfig) : option Warning :=
  let lt := localTracking budget in
  let daily := to_number (dailyLimitUsd budget) in
  let monthly := to_number (monthlyLimitUsd budget) in
  let thr := to_number (warnThreshold budget) in
  let tc := to_number (todayCost lt) in
  let rc := to_number (rollingCost lt) in
  if ltb zero daily && leb daily tc
  then Some (DailyExceeded tc daily)
  else if ltb zero daily && leb (mul daily thr) tc
  then Some (DailyWarning tc daily)
  else if ltb zero monthly && leb monthly rc
  then Some (MonthlyExceeded rc monthly)
  else None.

(** The in-place updates of [recordUsage] on the loaded budget. *)
Definition addUsage (day : Z) (postReads : Z) (budget : BudgetConfig)
  : BudgetConfig :=
  let cost := mul (of_Z postReads) UNIT_PRICE in
  let lt := localTracking budget in
  let lt1 :=
    if decide (today lt <> day) then
      {| today := day; todayPostReads := 0; todayCost := Num zero;
         rollingPostReads := rollingPostReads lt;
         rollingCost := rollingCost lt;
         lastReset := lastReset lt |}
    else lt in
  {| dailyLimitUsd := dailyLimitUsd budget;
     monthlyLimitUsd := monthlyLimitUsd budget;
     warnThreshold := warnThreshold budget;
     localTracking :=
       {| today := today lt1;
          todayPostReads := todayPostReads lt1 + postReads;
          todayCost := Num (add (to_number (todayCost lt1)) cost);
          rollingPostReads := rollingPostReads lt1 + postReads;
          rollingCost := Num (add (to_number (rollingCost lt1)) cost);
          lastReset := lastReset lt1 |} |}.

Definition recordUsage (e : Usage.Env) (postReads : Z)
  : Ledger (option Warning) :=
  do budget <- loadBudget e ;
  let budget' := addUsage (Usage.utc_day (Usage.now e)) postReads budget in
  do _ <- saveBudget budget' ;
  ret (checkLimits budget').

(** ** [checkBudget] *)

(** The two "Request blocked" messages, with the amounts they print. *)
Inductive Block : Type :=
  | DailyBlock (spent estimatedCost limit : number)
  | MonthlyBlock (spent estimatedCost limit : number).

(** [null.toFixed(2)], when a message prints a cost that is [null]. *)
Inductive Thrown : Type := TypeError.

Definition checkBudget (e : Usage.Env) (estimatedPostReads : number)
  : Ledger (Thrown + option Block) :=
  do budget <- loadBudget e ;
  let estimatedCost := mul estimatedPostReads UNIT_PRICE in
  let lt := localTracking budget in
  let daily := to_number (dailyLimitUsd budget) in
  let monthly := to_number (monthlyLimitUsd budget) in
  if ltb zero daily
     && ltb daily (add (to_number (todayCost lt)) estimatedCost)
  then
    match todayCost lt with
    | Num spent => ret (inr (Some (DailyBlock spent estimatedCost daily)))
    | Null => ret (inl TypeError)
    end
  else if ltb zero monthly
          && ltb monthly (add (to_number (rollingCost lt)) estimatedCost)
  then
    match rollingCost lt with
    | Num spent => ret (inr (Some (MonthlyBlock spent estimatedCost monthly)))
    | Null => ret (inl TypeError)
    end
  else ret (inr None).

(** ** The [usage budget] sub-commands of [cmdUsage] *)

(** [usage budget reset]. *)
Definition budgetReset (e : Usage.Env) : Ledger unit :=
  do budget <- loadBudget e ;
  saveBudget
    {| dailyLimitUsd := dailyLimitUsd budget;
       monthlyLimitUsd := monthlyLimitUsd budget;
       warnThreshold := warnThreshold budget;
       localTracking :=
         {| today := Usage.utc_day (Usage.now e);
            todayPostReads := 0;
            todayCost := Num zero;
            rollingPostReads := 0;
            rollingCost := Num zero;
            lastReset := Usage.now e |} |}.

(** The guard of the set commands: [isNaN(limit) || limit < 0] exits
    before anything is saved. *)
Definition rejected (limit : number) : bool :=
  isNaN limit || ltb limit zero.

(** [usage budget set-daily <x>]: [limit] is [parseFloat(args[3])];
    [false] when the command exits with the usage text. *)
Definition budgetSetDaily (e : Usage.Env) (limit : number) : Ledger bool :=
  do budget <- loadBudget e ;
  if rejected limit then ret false
  else
    do _ <- saveBudget
           {| dailyLimitUsd := Num limit;
              monthlyLimitUsd := monthlyLimitUsd budget;
              warnThreshold := warnThreshold budget;
              localTracking := localTracking budget |} ;
    ret true.

(** [usage budget set-monthly <x>]. *)
Definition budgetSetMonthly (e : Usage.Env) (limit : number) : Ledger bool :=
  do budget <- loadBudget e ;
  if rejected limit then ret false
  else
    do _ <- saveBudget
           {| dailyLimitUsd := dailyLimitUsd budget;
              monthlyLimitUsd := Num limit;
              warnThreshold := warnThreshold budget;
              localTracking := localTracking budget |} ;
    ret true.

(** ** Runs of ledger operations *)

Inductive LedgerOp : Type :=
  | OpRecord (postReads : Z)
  | OpCheck (estimatedPostReads : number)
  | OpStatus
  | OpReset
  | OpSetDaily (limit : number)
  | OpSetMonthly (limit : number).

(** One process: its clock readings and the operation it performs. *)
Definition step (f : BudgetFile) (c : Usage.Env * LedgerOp) : BudgetFile :=
  let (e, op) := c in
  match op with
  | OpRecord n => snd (recordUsage e n f)
  | OpCheck n => snd (checkBudget e n f)
  | OpStatus => snd (loadBudget e f)
  | OpReset => snd (budgetReset e f)
  | OpSetDaily x => snd (budgetSetDaily e x f)
  | OpSetMonthly x => snd (budgetSetMonthly e x f)
  end.

Definition run (f : BudgetFile) (ops : list (Usage.Env * LedgerOp))
  : BudgetFile :=
  fold_left step ops f.

(** The budget an operation starting at [e] would work on. *)
Definition loaded (e : Usage.Env) (f : BudgetFile) : BudgetConfig :=
  fst (loadBudget e f).

(** ** Notions of the specification *)

(** The exact value of a finite number. *)
Definition value (x : number) : Q :=
  match x with
  | S754_finite s m e =>
      let q := if 0 <=? e then inject_Z (Zpos m * 2 ^ e)
               else Qmake (Zpos m) (Z.to_pos (2 ^ (- e))) in
      if s then Qopp q else q
  | _ => 0%Q
  end.

(** The limits and the rolling count a budget file stands for: its own,
    or those of the defaults. *)
Definition daily_limit_of (f : BudgetFile) : JsNum :=
  match f with FileHolds b => dailyLimitUsd b | _ => Num zero end.

Definition monthly_limit_of (f : BudgetFile) : JsNum :=
  match f with FileHolds b => monthlyLimitUsd b | _ => Num zero end.

Definition rolling_reads_of (f : BudgetFile) : Z :=
  match f with
  | FileHolds b => rollingPostReads (localTracking b)
  | _ => 0
  end.

(** The limit a set command leaves in the file, when it accepts its
    argument. *)
Definition accepted (limit : number) : option JsNum :=
  if rejected limit then None else Some (json (Num limit)).

(** The daily limit after a run, read off the commands alone: what the
    last accepted set-daily left, or the limit at the start. *)
Definition last_daily (start : JsNum) (ops : list (Usage.Env * LedgerOp))
  : JsNum :=
  fold_left
    (fun acc c =>
       match snd c with
       | OpSetDaily x => default acc (accepted x)
       | _ => acc
       end)
    ops start.

Definition last_monthly (start : JsNum) (ops : list (Usage.Env * LedgerOp))
  : JsNum :=
  fold_left
    (fun acc c =>
       match snd c with
       | OpSetMonthly x => default acc (accepted x)
       | _ => acc
       end)
    ops start.

(** The units recorded since the last reset of a run, on top of [start]
    when there is no reset. *)
Definition units_since_reset (start : Z) (ops : list (Usage.Env * LedgerOp))
  : Z :=
  fold_left
    (fun acc c =>
       match snd c with
       | OpRecord n => acc + n
       | OpReset => 0
       | _ => acc
       end)
    ops start.

End Usage64.

(** * The fetch client and the aggregator ([lib/api.ts]) *)

Module Api.

Open Scope string_scope.
Open Scope Z_scope.

Definition BASE : string := "https://api.x.com/2".
Definition RATE_DELAY_MS : Z := 350.
Definition FIELDS : string :=
  "tweet.fields=created_at,public_metrics,author_id,conversation_id,entities&expansions=author_id&user.fields=username,name,public_metrics".

(** ** JavaScript values and built-ins used by the module *)

(** Truthiness of a possibly missing string: missing and the empty string are falsy. *)
Definition truthy (o : option string) : option string :=
  match o with
  | Some s => if decide (s = EmptyString) then None else Some s
  | None => None
  end.

(** [x || d] on a possibly missing string. *)
Definition or_str (o : option string) (d : string) : string :=
  default d (truthy o).

(** [x || d] on a possibly missing number: missing and [0] are falsy. *)
Definition or_num (o : option Z) (d : Z) : Z :=
  match o with
  | Some n => if decide (n = 0) then d else n
  | None => d
  end.

(** [`${x}`] and property-key conversion of a possibly missing string. *)
Definition to_text (o : option string) : string := default "undefined" o.

(** [xs.filter(Boolean)] on possibly missing strings. *)
Definition filter_Boolean (xs : list (option string)) : list string :=
  omap truthy xs.

Definition code (c : ascii) : Z := Z.of_N (Ascii.N_of_ascii c).

(** Value of [c] as a digit in the given radix (10 or 16). *)
Definition digit_value (radix : Z) (c : ascii) : option Z :=
  let n := code c in
  if (48 <=? n) && (n <=? 57) then Some (n - 48)
  else if (radix =? 16) && (97 <=? n) && (n <=? 102) then Some (n - 87)
  else if (radix =? 16) && (65 <=? n) && (n <=? 70) then Some (n - 55)
  else None.

(** The white space that [parseInt] skips, within ASCII. *)
Definition is_ws (c : ascii) : bool :=
  let n := code c in ((9 <=? n) && (n <=? 13)) || (n =? 32).

Fixpoint skip_ws (s : string) : string :=
  match s with
  | String c r => if is_ws c then skip_ws r else s
  | EmptyString => s
  end.

(** The longest prefix of digits, read in the radix; [None] without one. *)
Fixpoint read_digits (radix : Z) (s : string) (acc : option Z) : option Z :=
  match s with
  | String c r =>
      match digit_value radix c with
      | Some d => read_digits radix r (Some (radix * default 0 acc + d))
      | None => acc
      end
  | EmptyString => acc
  end.

(** [parseInt(s)] without a radix argument, up to its last step: the
    integer that the digits denote, [None] for [NaN]. The number
    [parseInt] returns is the one nearest to that integer
    ([number_of_int]); the two differ beyond 2^53 only. *)
Definition parseInt (s : string) : option Z :=
  let s1 := skip_ws s in
  let '(sign, s2) :=
    match s1 with
    | String "-" r => (-1, r)
    | String "+" r => (1, r)
    | _ => (1, s1)
    end in
  let '(radix, s3) :=
    match s2 with
    | String "0" (String "x" r) => (16, r)
    | String "0" (String "X" r) => (16, r)
    | _ => (10, s2)
    end in
  option_map (Z.mul sign) (read_digits radix s3 None).

(** The number [parseInt] returns for what it read. *)
Definition number_of_int (n : option Z) : Binary64.number :=
  from_option Binary64.of_Z Binary64.NaN n.

(** [s.includes(c)] for a one-character needle. *)
Fixpoint includes (c : ascii) (s : string) : bool :=
  match s with
  | String x r => if decide (x = c) then true else includes c r
  | EmptyString => false
  end.

(** What a call does: it returns or it throws. *)
Inductive Error : Type :=
  | RangeError                            (* of [toISOString] *)
  | TokenNotFound                         (* "X_BEARER_TOKEN not found ..." *)
  | RateLimited (waitSec : Binary64.number)
                                          (* "Rate limited. Resets in Ns" *)
  | ApiStatus (status : Z) (body : string)(* "X API <status>: <body>" *)
  | SyntaxError.                          (* [res.json()] on a bad body *)

Inductive Outcome (A : Type) : Type :=
  | Returns (a : A)
  | Throws (e : Error).
Arguments Returns {A} a.
Arguments Throws {A} e.

(** The built-ins whose text algorithms are the engine's: parsing a date
    string ([None] is an invalid date), printing a valid time value in
    ISO 8601, and percent-encoding. *)
Record Builtins : Type := mkBuiltins {
  Date_parse : string -> option Z;
  Date_iso : Z -> string;
  encodeURIComponent : string -> string
}.

(** Largest magnitude of a valid time value. *)
Definition MAX_TIME : Z := 8640000000000000.

(** [new Date(t)] for a number [t] ([None] is [NaN]): the time value, or
    an invalid date. *)
Definition new_Date (t : option Z) : option Z :=
  match t with
  | Some v => if (- MAX_TIME <=? v) && (v <=? MAX_TIME) then Some v else None
  | None => None
  end.

(** ** Raw payloads and normalized tweets *)

Record RawUser : Type := mkRawUser {
  u_id : option string;
  u_username : option string;
  u_name : option string
}.

Record RawMetrics : Type := mkRawMetrics {
  like_count : option Z;
  retweet_count : option Z;
  reply_count : option Z;
  quote_count : option Z;
  impression_count : option Z;
  bookmark_count : option Z
}.

Record RawUrl : Type := mkRawUrl { expanded_url : option string }.
Record RawMention : Type := mkRawMention { m_username : option string }.
Record RawHashtag : Type := mkRawHashtag { tag : option string }.

Record RawEntities : Type := mkRawEntities {
  e_urls : option (list RawUrl);
  e_mentions : option (list RawMention);
  e_hashtags : option (list RawHashtag)
}.

Record RawTweet : Type := mkRawTweet {
  t_id : option string;
  t_text : option string;
  t_author_id : option string;
  t_created_at : option string;
  t_conversation_id : option string;
  public_metrics : option RawMetrics;
  entities : option RawEntities
}.

Record RawIncludes : Type := mkRawIncludes { users : option (list RawUser) }.

Record RawMeta : Type := mkRawMeta {
  next_token : option string;
  result_count : option Z
}.

Record RawResponse : Type := mkRawResponse {
  data : option (list RawTweet);
  includes_ : option RawIncludes;
  meta : option RawMeta
}.

Record Metrics : Type := mkMetrics {
  likes : Z;
  retweets : Z;
  replies : Z;
  quotes : Z;
  impressions : Z;
  bookmarks : Z
}.

Record Tweet : Type := mkTweet {
  tweet_id : option string;          (* [id] *)
  text : option string;
  author_id : option string;
  username : string;
  name : string;
  created_at : option string;
  conversation_id : option string;
  metrics : Metrics;
  urls : list string;
  mentions : list string;
  hashtags : list string;
  tweet_url : string
}.

(** ** [parseTweets] *)

(** The side table [users], a plain object: its own properties, and its
    prototype when an assignment has put a side-loaded user in the place
    of [Object.prototype]. *)
Record UsersObject : Type := mkUsers {
  own : gmap string RawUser;
  proto : option RawUser
}.

(** [users[u.id] = u]: the key "__proto__" reaches the setter every object
    inherits, which makes [u] the prototype; any other key becomes an own
    property, a later user replacing an earlier one with the same key. *)
Definition users_assign (o : UsersObject) (u : RawUser) : UsersObject :=
  let k := to_text (u_id u) in
  if decide (k = "__proto__") then {| own := own o; proto := Some u |}
  else {| own := <[k := u]> (own o); proto := proto o |}.

Definition users_table (us : list RawUser) : UsersObject :=
  foldl users_assign {| own := ∅; proto := None |} us.

(** The functions [Object.prototype] holds, by property name, each with
    its [name]. *)
Definition Object_prototype_function (k : string) : option string :=
  if decide (k = "constructor") then Some "Object"
  else if decide (k ∈ ["toString"; "toLocaleString"; "valueOf";
                       "hasOwnProperty"; "isPrototypeOf";
                       "propertyIsEnumerable"; "__defineGetter__";
                       "__defineSetter__"; "__lookupGetter__";
                       "__lookupSetter__"])
  then Some k
  else None.

(** What [users[k]] can be: a side-loaded user, a function of
    [Object.prototype], a string (a property of the user that is the
    prototype), or [Object.prototype] itself. *)
Inductive Member : Type :=
  | AUser (u : RawUser)
  | AFunction (fname : string)
  | AString (s : string)
  | ObjectPrototype.

(** The own property [k] of a side-loaded user. *)
Definition user_property (u : RawUser) (k : string) : option string :=
  if decide (k = "id") then u_id u
  else if decide (k = "username") then u_username u
  else if decide (k = "name") then u_name u
  else None.

(** [users[k]]: the own property, or else what the prototype chain has;
    [None] is [undefined]. *)
Definition users_get (o : UsersObject) (k : string) : option Member :=
  match own o !! k with
  | Some u => Some (AUser u)
  | None =>
      if decide (k = "__proto__") then
        Some (from_option AUser ObjectPrototype (proto o))
      else
        match proto o ≫= (fun p => user_property p k) with
        | Some s => Some (AString s)
        | None => AFunction <$> Object_prototype_function k
        end
  end.

(** [u.username] and [u.name] for [u = users[k] || {}]: a function has a
    [name] and no [username]; a string, [Object.prototype] and [{}] have
    neither. *)
Definition member_username (m : option Member) : option string :=
  match m with
  | Some (AUser u) => u_username u
  | _ => None
  end.

Definition member_name (m : option Member) : option string :=
  match m with
  | Some (AUser u) => u_name u
  | Some (AFunction fname) => Some fname
  | _ => None
  end.

(** [m.<count> || 0] where [m = t.public_metrics || {}]. *)
Definition metric (m : option RawMetrics) (f : RawMetrics -> option Z) : Z :=
  or_num (m ≫= f) 0.

(** [(t.entities?.<xs> || []).map(f).filter(Boolean)]. *)
Definition entity_strings {X} (t : RawTweet)
    (xs : RawEntities -> option (list X)) (f : X -> option string)
  : list string :=
  filter_Boolean (map f (default [] (entities t ≫= xs))).

Definition parseTweet (tbl : UsersObject) (t : RawTweet) : Tweet :=
  let u := users_get tbl (to_text (t_author_id t)) in
  let m := public_metrics t in
  {| tweet_id := t_id t;
     text := t_text t;
     author_id := t_author_id t;
     username := or_str (member_username u) "?";
     name := or_str (member_name u) "?";
     created_at := t_created_at t;
     conversation_id := t_conversation_id t;
     metrics :=
       {| likes := metric m like_count;
          retweets := metric m retweet_count;
          replies := metric m reply_count;
          quotes := metric m quote_count;
          impressions := metric m impression_count;
          bookmarks := metric m bookmark_count |};
     urls := entity_strings t e_urls expanded_url;
     mentions := entity_strings t e_mentions m_username;
     hashtags := entity_strings t e_hashtags tag;
     tweet_url :=
       "https://x.com/" +:+ or_str (member_username u) "?"
         +:+ "/status/" +:+ to_text (t_id t) |}.

Definition parseTweets (raw : RawResponse) : list Tweet :=
  match data raw with
  | None => []
  | Some items =>
      let tbl := users_table (default [] (includes_ raw ≫= users)) in
      map (parseTweet tbl) items
  end.

(** ** The network: [apiGet] *)

Record HttpResponse : Type := mkHttpResponse {
  status : Z;
  x_rate_limit_reset : option string;  (* headers.get("x-rate-limit-reset") *)
  body_text : string;                  (* res.text() *)
  body_json : option RawResponse       (* res.json(); [None]: it throws *)
}.

(** [res.ok] *)
Definition ok (res : HttpResponse) : bool :=
  (200 <=? status res) && (status res <=? 299).

(** What one run meets: the outcome of [getToken()], the response to the
    k-th [fetch] of the run, and the clock read while handling it. *)
Record World : Type := mkWorld {
  token : option string;
  remote : nat -> HttpResponse;
  clock : nat -> Z
}.

Inductive Event : Type :=
  | EvFetch (url : string) (bearer : string)
  | EvSleep (ms : Z).

(** Number of fetches so far, and everything done so far, in order. *)
Record IO : Type := mkIO { calls : nat; trace : list Event }.

Definition io0 : IO := {| calls := 0; trace := [] |}.

Definition sleep (ms : Z) (io : IO) : IO :=
  {| calls := calls io; trace := trace io ++ [EvSleep ms] |}.

Definition is_fetch (ev : Event) : bool :=
  match ev with EvFetch _ _ => true | EvSleep _ => false end.

(** [reset ? Math.max(parseInt(reset) - Math.floor(Date.now() / 1000), 1)
    : 60], computed on numbers as the engine does; [now] is [Date.now()]. *)
Definition rate_limit_wait (reset : option string) (now : Z)
  : Binary64.number :=
  match truthy reset with
  | Some reset =>
      Binary64.Math_max
        (Binary64.sub
           (number_of_int (parseInt reset))
           (Binary64.Math_floor
              (Binary64.div (Binary64.of_Z now) (Binary64.of_Z 1000))))
        (Binary64.of_Z 1)
  | None => Binary64.of_Z 60
  end.

Definition apiGet (w : World) (url : string) (io : IO)
  : Outcome RawResponse * IO :=
  match token w with
  | None => (Throws TokenNotFound, io)
  | Some tk =>
      let res := remote w (calls io) in
      let now := clock w (calls io) in
      let io' := {| calls := S (calls io);
                    trace := trace io ++ [EvFetch url tk] |} in
      if decide (status res = 429) then
        let waitSec := rate_limit_wait (x_rate_limit_reset res) now in
        (Throws (RateLimited waitSec), io')
      else if negb (ok res) then
        (Throws (ApiStatus (status res) (substring 0 200 (body_text res))),
         io')
      else
        match body_json res with
        | Some raw => (Returns raw, io')
        | None => (Throws SyntaxError, io')
        end
  end.

(** ** [dedupe] *)

(** The filter of [dedupe], with the set [seen] it threads along. *)
Fixpoint dedupe_from (seen : gset (option string)) (tweets : list Tweet)
  : list Tweet :=
  match tweets with
  | [] => []
  | t :: rest =>
      if decide (tweet_id t ∈ seen) then dedupe_from seen rest
      else t :: dedupe_from ({[tweet_id t]} ∪ seen) rest
  end.

Definition dedupe (tweets : list Tweet) : list Tweet := dedupe_from ∅ tweets.

(** ** Notions of the specification *)

(** The records of [tweets] that are the first of their identity: the one
    at index [i] is kept when no earlier record has its [id]. *)
Definition first_occurrences (tweets : list Tweet) : list Tweet :=
  concat
    (imap (fun i t =>
             if decide (tweet_id t ∈ tweet_id <$> take i tweets)
             then [] else [t])
          tweets).

(** The page the k-th fetch of a run delivers to [apiGet]'s caller, when
    it delivers one. *)
Definition delivered (w : World) (k : nat) : option RawResponse :=
  match token w with
  | None => None
  | Some _ =>
      let res := remote w k in
      if decide (status res = 429) then None
      else if negb (ok res) then None
      else body_json res
  end.

(** The pagination parameter sent after a page. *)
Definition pagination_of (nextToken : option string) : string :=
  match truthy nextToken with
  | Some tk => "&pagination_token=" +:+ tk
  | None => EmptyString
  end.

(** Fetching the pages [ps] one after the other, with a pause between
    two fetches and nowhere else. *)
Fixpoint paced_fetches (prefix bearer : string) (nextToken : option string)
    (ps : list RawResponse) : list Event :=
  match ps with
  | [] => []
  | p :: rest =>
      EvFetch (prefix +:+ pagination_of nextToken) bearer ::
      match rest with
      | [] => []
      | _ :: _ =>
          EvSleep RATE_DELAY_MS ::
          paced_fetches prefix bearer (meta p ≫= next_token) rest
      end
  end.

Definition has_next (p : RawResponse) : Prop :=
  is_Some (truthy (meta p ≫= next_token)).

(** Every character of [s] is a decimal digit. *)
Fixpoint all_digits (s : string) : Prop :=
  match s with
  | String c r => is_Some (digit_value 10 c) /\ all_digits r
  | EmptyString => True
  end.

(** A page of one bare item: nothing but its identity and its author,
    and no side-loaded users. *)
Definition bare_tweet : RawTweet :=
  {| t_id := Some "1"; t_text := None; t_author_id := Some "42";
     t_created_at := None; t_conversation_id := None;
     public_metrics := None; entities := None |}.

Definition bare_page : RawResponse :=
  {| data := Some [bare_tweet]; includes_ := None; meta := None |}.

(** The clock reading 2026-11-03T00:00:00Z. *)
Definition a_clock : Z := 1793664000000.

(** A remote that answers every request with 429 and the given reset
    header, at that clock reading. *)
Definition limited_world (header : option string) : World :=
  {| token := Some "secret";
     remote := fun _ =>
       {| status := 429; x_rate_limit_reset := header;
          body_text := "Too Many Requests"; body_json := None |};
     clock := fun _ => a_clock |}.

(** Two pages of one item each, the first with a continuation token. *)
Definition page_with (item : string) (next : option string) : RawResponse :=
  {| data := Some [{| t_id := Some item; t_text := None;
                      t_author_id := None; t_created_at := None;
                      t_conversation_id := None; public_metrics := None;
                      entities := None |}];
     includes_ := None;
     meta := Some {| next_token := next; result_count := Some 1 |} |}.

Definition two_page_world : World :=
  {| token := Some "secret";
     remote := fun k =>
       {| status := 200; x_rate_limit_reset := None;
          body_text := EmptyString;
          body_json :=
            Some (match k with
                  | O => page_with "a" (Some "tok2")
                  | _ => page_with "b" None
                  end) |};
     clock := fun _ => a_clock |}.

Section WithBuiltins.
Context (B : Builtins).

(** [d.toISOString()]: throws a [RangeError] on an invalid date. *)
Definition toISOString (d : option Z) : Outcome string :=
  match d with
  | Some t => Returns (Date_iso B t)
  | None => Throws RangeError
  end.

(** ** [parseSince] *)

Fixpoint span_digits (s : string) : string * string :=
  match s with
  | String c r =>
      match digit_value 10 c with
      | Some _ => let (ds, rest) := span_digits r in (String c ds, rest)
      | None => (EmptyString, s)
      end
  | EmptyString => (EmptyString, EmptyString)
  end.

(** [since.match(/^(\d+)(m|h|d)$/)]: the two groups of a match. *)
Definition match_shorthand (since : string) : option (string * ascii) :=
  match span_digits since with
  | (String c ds, String u EmptyString) =>
      if decide (u = "m"%char \/ u = "h"%char \/ u = "d"%char)
      then Some (String c ds, u) else None
  | _ => None
  end.

(** [parseSince(since)]. The product and the difference are taken on
    integers: on numbers they are exact while they stay below 2^53, and
    once the product is beyond that the difference is outside the range
    of [Date] however it is rounded, for every clock reading a [Date] can
    hold. *)
Definition parseSince (now : Z) (since : string) : Outcome (option string) :=
  match match_shorthand since with
  | Some (digits, unit) =>
      let num := parseInt digits in
      let ms :=
        if decide (unit = "m"%char) then option_map (fun n => n * 60000) num
        else if decide (unit = "h"%char)
        then option_map (fun n => n * 3600000) num
        else option_map (fun n => n * 86400000) num in
      let startTime := new_Date (option_map (fun x => now - x) ms) in
      match toISOString startTime with
      | Returns s => Returns (Some s)
      | Throws e => Throws e
      end
  | None =>
      if includes "T" since || includes "-" since then
        match toISOString (Date_parse B since) with
        | Returns s => Returns (Some s)
        | Throws _ => Returns None       (* catch { return null } *)
        end
      else Returns None
  end.

(** ** [search] *)

Inductive SortOrder : Type := relevancy | recency.

Definition sort_text (o : SortOrder) : string :=
  match o with relevancy => "relevancy" | recency => "recency" end.

Record SearchOpts : Type := mkSearchOpts {
  maxResults : option Z;
  pages : option Z;
  sortOrder : option SortOrder;
  since : option string
}.

(** The page loop. [remaining] is [pages - page]; the test
    [page < pages - 1] is [rest <> 0] below. [prefix] is the URL up to the
    pagination parameter. *)
Fixpoint search_pages (w : World) (prefix : string) (remaining : nat)
    (nextToken : option string) (allTweets : list Tweet) (io : IO)
  : Outcome (list Tweet) * IO :=
  match remaining with
  | O => (Returns allTweets, io)
  | S rest =>
      let pagination :=
        match truthy nextToken with
        | Some tk => "&pagination_token=" +:+ tk
        | None => EmptyString
        end in
      let url := prefix +:+ pagination in
      match apiGet w url io with
      | (Throws e, io1) => (Throws e, io1)
      | (Returns raw, io1) =>
          let allTweets' := (allTweets ++ parseTweets raw)%list in
          let nextToken' := meta raw ≫= next_token in
          match truthy nextToken' with
          | None => (Returns allTweets', io1)
          | Some _ =>
              let io2 :=
                if decide (rest <> O) then sleep RATE_DELAY_MS io1 else io1 in
              search_pages w prefix rest nextToken' allTweets' io2
          end
      end
  end.

(** The time filter of [search]; [parseSince] may throw. *)
Definition time_filter (now : Z) (opts : SearchOpts) : Outcome string :=
  match truthy (since opts) with
  | None => Returns EmptyString
  | Some s =>
      match parseSince now s with
      | Throws e => Throws e
      | Returns startTime =>
          match truthy startTime with
          | Some st => Returns ("&start_time=" +:+ st)
          | None => Returns EmptyString
          end
      end
  end.

Definition search_prefix (query : string) (opts : SearchOpts)
    (timeFilter : string) : string :=
  let maxResults := Z.max (Z.min (or_num (maxResults opts) 100) 100) 10 in
  let sort := default relevancy (sortOrder opts) in
  BASE +:+ "/tweets/search/recent?query=" +:+ encodeURIComponent B query
    +:+ "&max_results=" +:+ pretty maxResults +:+ "&" +:+ FIELDS
    +:+ "&sort_order=" +:+ sort_text sort +:+ timeFilter.

(** [search(query, opts)], started at clock reading [now]. *)
Definition search (w : World) (now : Z) (query : string) (opts : SearchOpts)
    (io : IO) : Outcome (list Tweet) * IO :=
  let pages := or_num (pages opts) 1 in
  match time_filter now opts with
  | Throws e => (Throws e, io)
  | Returns timeFilter =>
      search_pages w (search_prefix query opts timeFilter)
                   (Z.to_nat pages) None [] io
  end.

End WithBuiltins.

End Api.

(** * More of [lib/api.ts]: the aggregator *)

Module ApiMore.
Import Api.
Open Scope string_scope.
Open Scope Z_scope.
Open Scope list_scope.

(** What the k-th fetch of a run makes [apiGet] do, whatever the URL. *)
Definition answer (w : World) (k : nat) : Outcome RawResponse :=
  fst (apiGet w EmptyString {| calls := k; trace := [] |}).

(** Requests one by one with exactly one pause of [RATE_DELAY_MS] between
    two of them: nothing, or a fetch followed by pause-and-fetch pairs. *)
Fixpoint paced (evs : list Event) : bool :=
  match evs with
  | [] => true
  | EvSleep _ :: _ => false
  | EvFetch _ _ :: rest =>
      match rest with
      | [] => true
      | EvFetch _ _ :: _ => false
      | EvSleep ms :: rest' =>
          (ms =? RATE_DELAY_MS) &&
          match rest' with
          | [] => false
          | _ :: _ => paced rest'
          end
      end
  end.

(** A remote whose first page carries a token and whose second request
    is answered with status 503. *)
Definition failing_world : World :=
  {| token := Some "secret";
     remote := fun k =>
       match k with
       | O => {| status := 200; x_rate_limit_reset := None;
                 body_text := EmptyString;
                 body_json := Some (page_with "a" (Some "tok2")) |}
       | _ => {| status := 503; x_rate_limit_reset := None;
                 body_text := "Service Unavailable"; body_json := None |}
       end;
     clock := fun _ => a_clock |}.

(** ** [sortBy] *)

(** [m[metric]] for a property name: one of the six counters, or
    [undefined]. *)
Definition metric_value (metric : string) (m : Metrics) : option Z :=
  if decide (metric = "likes") then Some (likes m)
  else if decide (metric = "retweets") then Some (retweets m)
  else if decide (metric = "replies") then Some (replies m)
  else if decide (metric = "quotes") then Some (quotes m)
  else if decide (metric = "impressions") then Some (impressions m)
  else if decide (metric = "bookmarks") then Some (bookmarks m)
  else None.

(** The comparator [(a, b) => b.metrics[metric] - a.metrics[metric]] as
    [sort] reads it: a [NaN] result counts as 0. *)
Definition compare_desc (metric : string) (a b : Tweet) : Z :=
  match metric_value metric (metrics b), metric_value metric (metrics a) with
  | Some x, Some y => x - y
  | _, _ => 0
  end.

(** [Array.prototype.sort] is a stable sort. With a record [a] that comes
    before the sorted records [l], [a] goes in front of the first record
    it does not have to follow. *)
Fixpoint sort_insert (cmp : Tweet -> Tweet -> Z) (a : Tweet)
    (l : list Tweet) : list Tweet :=
  match l with
  | [] => [a]
  | b :: rest =>
      if cmp a b <=? 0 then a :: b :: rest
      else b :: sort_insert cmp a rest
  end.

Definition stable_sort (cmp : Tweet -> Tweet -> Z) (l : list Tweet)
  : list Tweet :=
  foldr (sort_insert cmp) [] l.

(** [sortBy(tweets, metric)]: a sorted copy. *)
Definition sortBy (tweets : list Tweet) (metric : string) : list Tweet :=
  stable_sort (compare_desc metric) tweets.

(** ** [filterEngagement] *)

Record EngagementOpts : Type := mkEngagementOpts {
  minLikes : option Z;
  minImpressions : option Z
}.

(** [opts.min && value < opts.min]: a missing or zero minimum asks for
    nothing. *)
Definition below (min : option Z) (value : Z) : bool :=
  match min with
  | Some m => if decide (m = 0) then false else value <? m
  | None => false
  end.

(** The callback of the filter. *)
Definition retained (opts : EngagementOpts) (t : Tweet) : bool :=
  if below (minLikes opts) (likes (metrics t)) then false
  else if below (minImpressions opts) (impressions (metrics t)) then false
  else true.

Definition filterEngagement (tweets : list Tweet) (opts : EngagementOpts)
  : list Tweet :=
  filter (fun t => retained opts t) tweets.

(** ** Notions for the properties *)

(** The value the records are ordered by: the counter, or one and the
    same value for all when [metric] names no counter. *)
Definition sort_key (metric : string) (t : Tweet) : Z :=
  default 0 (metric_value metric (metrics t)).

(** A record meets the minimums. *)
Definition meets (opts : EngagementOpts) (t : Tweet) : Prop :=
  below (minLikes opts) (likes (metrics t)) = false /\
  below (minImpressions opts) (impressions (metrics t)) = false.

(** The records are in descending order of [key]: none is followed,
    however far, by one with a larger key. *)
Fixpoint descending (key : Tweet -> Z) (l : list Tweet) : Prop :=
  match l with
  | [] => True
  | a :: rest => Forall (fun b => key b <= key a) rest /\ descending key rest
  end.

(** The records of [l] with a given key, in the order of [l]. *)
Definition with_key (key : Tweet -> Z) (v : Z) (l : list Tweet)
  : list Tweet :=
  filter (fun t => key t = v) l.

End ApiMore.

(** * The command line ([x-search.ts]) *)

Module Cli.
Import Api.
Import ApiMore.
Open Scope string_scope.
Open Scope Z_scope.
Open Scope list_scope.

(** ** Argument parsing *)

(** [args.indexOf(x)]; [None] is -1. *)
Fixpoint indexOf (x : string) (args : list string) : option nat :=
  match args with
  | [] => None
  | y :: rest => if decide (y = x) then Some 0%nat else S <$> indexOf x rest
  end.

(** [args.splice(idx, n)]: what is left in [args]. *)
Definition splice (idx n : nat) (args : list string) : list string :=
  take idx args ++ drop (idx + n) args.

(** [getFlag(name)] and [getOpt(name)], with the global [args] they
    mutate passed in and out. *)
Definition getFlag (name : string) (args : list string)
  : bool * list string :=
  match indexOf ("--" +:+ name) args with
  | Some idx => (true, splice idx 1 args)
  | None => (false, args)
  end.

Definition getOpt (name : string) (args : list string)
  : option string * list string :=
  match indexOf ("--" +:+ name) args with
  | Some idx =>
      if (idx + 1 <? length args)%nat
      then (args !! (idx + 1)%nat, splice idx 2 args)
      else (None, args)
  | None => (None, args)
  end.

(** ** The post-processing of [cmdSearch] *)

(** [n > 0] and [n || undefined] for the result of a [parseInt], as the
    integer it read: the minimums are only compared with counts, which
    stay below 2^53, so a minimum beyond that excludes the same records
    rounded or not. *)
Definition positive (n : option Z) : bool :=
  match n with Some v => 0 <? v | None => false end.

Definition or_undefined (n : option Z) : option Z :=
  match n with
  | Some v => if decide (v = 0) then None else Some v
  | None => None
  end.

(** The two filters: on [--min-likes] and [--min-impressions], then on
    [--quality]. *)
Definition selectEngaged (min_likes min_impressions : option Z)
    (quality : bool) (tweets : list Tweet) : list Tweet :=
  let tweets1 :=
    if positive min_likes || positive min_impressions then
      filterEngagement tweets
        {| minLikes := or_undefined min_likes;
           minImpressions := or_undefined min_impressions |}
    else tweets in
  if quality then
    filterEngagement tweets1 {| minLikes := Some 10; minImpressions := None |}
  else tweets1.

(** Filter, sort unless the sort option is "recent", dedupe. *)
Definition postprocess (min_likes min_impressions : option Z)
    (quality : bool) (sortOpt : string) (tweets : list Tweet)
  : list Tweet :=
  let tweets2 := selectEngaged min_likes min_impressions quality tweets in
  let tweets3 :=
    if decide (sortOpt <> "recent") then sortBy tweets2 sortOpt
    else tweets2 in
  dedupe tweets3.

(** A record that has what the options ask for: at least 10 likes under
    [--quality], and no fewer likes or impressions than a nonzero
    [--min-likes] or [--min-impressions]. *)
Definition asked_for (min_likes min_impressions : option Z) (quality : bool)
    (t : Tweet) : Prop :=
  (quality = true -> 10 <= likes (metrics t)) /\
  (forall m, min_likes = Some m -> m <> 0 -> m <= likes (metrics t)) /\
  (forall m, min_impressions = Some m -> m <> 0 ->
             m <= impressions (metrics t)).

(** ** The watchlist *)

Record Account : Type := mkAccount {
  acct_username : string;
  note : option string;
  addedAt : Z                 (* ISO timestamp, as milliseconds *)
}.

(** What is at [WATCHLIST_PATH]. *)
Inductive WatchFile : Type :=
  | WatchAbsent
  | WatchCorrupt
  | WatchHolds (accounts : list Account).

(** [loadWatchlist]: no accounts when the file is absent; [JSON.parse]
    throws on text it rejects ([None]), and nothing catches it. *)
Definition loadWatchlist (f : WatchFile) : option (list Account) :=
  match f with
  | WatchAbsent => Some []
  | WatchCorrupt => None
  | WatchHolds accounts => Some accounts
  end.

(** [s.replace(/^@/, "")] *)
Definition strip_at (s : string) : string :=
  match s with
  | String "@" rest => rest
  | _ => s
  end.

(** [words.join(" ")] *)
Fixpoint join_words (words : list string) : string :=
  match words with
  | [] => EmptyString
  | [w] => w
  | w :: rest => w +:+ " " +:+ join_words rest
  end.

(** What a watchlist command prints, or how it ends. *)
Inductive WatchReply : Type :=
  | ParseFailed                      (* the SyntaxError of [JSON.parse] *)
  | UsageError                       (* usage line, exit code 1 *)
  | AlreadyListed (username : string)
  | Added (username : string)
  | Removed (username : string)
  | NotListed (username : string).

Section WithLowerCase.
(** [String.prototype.toLowerCase] *)
Context (toLowerCase : string -> string).

(** [a.username.toLowerCase() === username.toLowerCase()] *)
Definition same_user (username : string) (a : Account) : bool :=
  bool_decide (toLowerCase (acct_username a) = toLowerCase username).

(** [watchlist add <username> [note]]: [arg] is [args[2]], [words] is
    [args.slice(3)]. *)
Definition watchlistAdd (now : Z) (arg : option string)
    (words : list string) (f : WatchFile) : WatchReply * WatchFile :=
  match loadWatchlist f with
  | None => (ParseFailed, f)
  | Some accounts =>
      match truthy (strip_at <$> arg) with
      | None => (UsageError, f)
      | Some username =>
          match list_find (fun a => same_user username a) accounts with
          | Some _ => (AlreadyListed username, f)
          | None =>
              (Added username,
               WatchHolds
                 (accounts ++
                  [{| acct_username := username;
                      note := truthy (Some (join_words words));
                      addedAt := now |}]))
          end
      end
  end.

(** [watchlist remove <username>] *)
Definition watchlistRemove (arg : option string) (f : WatchFile)
  : WatchReply * WatchFile :=
  match loadWatchlist f with
  | None => (ParseFailed, f)
  | Some accounts =>
      match truthy (strip_at <$> arg) with
      | None => (UsageError, f)
      | Some username =>
          let before := length accounts in
          let accounts' :=
            filter (fun a => negb (same_user username a)) accounts in
          (if (length accounts' <? before)%nat
           then Removed username else NotListed username,
           WatchHolds accounts')
      end
  end.

(** No two accounts are the same user. *)
Fixpoint distinct_users (accounts : list Account) : Prop :=
  match accounts with
  | [] => True
  | a :: rest =>
      Forall (fun b => same_user (acct_username a) b = false) rest /\
      distinct_users rest
  end.

End WithLowerCase.

End Cli.

(** * The usage report ([lib/usage.ts]) *)

Module Report.
Import Usage.
Import Api.
Open Scope string_scope.
Open Scope Z_scope.
Open Scope list_scope.

Record DailyUsage : Type := mkDailyUsage {
  date : string;            (* YYYY-MM-DD *)
  postReads : Z;
  estimatedCost : Q         (* postReads * $0.005 *)
}.

Record Period : Type := mkPeriod { start : string; end_ : string }.

Record UsageResponse : Type := mkUsageResponse {
  dailyUsage : list DailyUsage;
  totalPostReads : Z;
  totalEstimatedCost : Q;
  period : Period
}.

(** The body of [GET /2/usage/tweets], as far as it is read. *)
Record RawApp : Type := mkRawApp { app_tweets : option Z }.

Record RawDay : Type := mkRawDay {
  day_date : option string;
  day_usage : option (list RawApp)
}.

(** [data.data]: an array of days, or an object that may have a
    [daily_project_usage] array. *)
Inductive RawUsageData : Type :=
  | UsageArray (days : list RawDay)
  | UsageObject (daily_project_usage : option (list RawDay)).

Record RawUsage : Type := mkRawUsage { usage_data : option RawUsageData }.

(** How the functions of the report end when they do not return. *)
Inductive Failure : Type :=
  | NotIterable                       (* TypeError of [for ... of] *)
  | InvalidTime                       (* RangeError of [toISOString] *)
  | NoToken                           (* "X_BEARER_TOKEN not found" *)
  | UsageRateLimited                  (* "Rate limited on usage endpoint" *)
  | UsageStatus (status : Z) (body : string)  (* "Usage API <status>: ..." *)
  | BadBody.                          (* [res.json()] on a bad body *)

Inductive Result (A : Type) : Type :=
  | Ok (a : A)
  | Fail (e : Failure).
Arguments Ok {A} a.
Arguments Fail {A} e.

(** [s.split("T")[0]] *)
Fixpoint before_T (s : string) : string :=
  match s with
  | EmptyString => EmptyString
  | String c rest =>
      if decide (c = "T"%char) then EmptyString
      else String c (before_T rest)
  end.

(** [data?.data?.daily_project_usage || data?.data || []]; [None] when
    it is an object, over which [for ... of] cannot run. *)
Definition dailyData (data : RawUsage) : option (list RawDay) :=
  match usage_data data with
  | None => Some []
  | Some (UsageArray days) => Some days
  | Some (UsageObject (Some days)) => Some days
  | Some (UsageObject None) => None
  end.

Section WithBuiltins.
Context (B : Builtins).

(** A day whose date is given but is not one [Date] can read. *)
Definition bad_date (day : RawDay) : Prop :=
  exists d, truthy (day_date day) = Some d /\ Date_parse B d = None.

(** [d.toISOString().split("T")[0]] for a date [d], [None] when it is
    invalid. *)
Definition iso_day (d : option Z) : Result string :=
  match d with
  | Some t => Ok (before_T (Date_iso B t))
  | None => Fail InvalidTime
  end.

(** The inner loop: [dayReads += app?.tweets || 0]. *)
Definition day_reads (day : RawDay) : Z :=
  fold_left (fun dayReads app => dayReads + or_num (app_tweets app) 0)
            (default [] (day_usage day)) 0.

(** The outer loop of [parseUsageResponse], with its two accumulators. *)
Fixpoint parse_days (days : list RawDay) (dailyUsage : list DailyUsage)
    (totalPostReads : Z) : Result (list DailyUsage * Z) :=
  match days with
  | [] => Ok (dailyUsage, totalPostReads)
  | day :: rest =>
      let dayReads := day_reads day in
      let date :=
        match truthy (day_date day) with
        | Some d => iso_day (Date_parse B d)
        | None => Ok "unknown"
        end in
      match date with
      | Fail e => Fail e
      | Ok date =>
          parse_days rest
            (dailyUsage ++
             [{| date := date; postReads := dayReads;
                 estimatedCost := (inject_Z dayReads * 0.005)%Q |}])
            (totalPostReads + dayReads)
      end
  end.

(** [parseUsageResponse(data, startTime, endTime)]; the two dates are
    time values, [None] when invalid. *)
Definition parseUsageResponse (data : RawUsage) (startTime endTime : option Z)
  : Result UsageResponse :=
  match dailyData data with
  | None => Fail NotIterable
  | Some days =>
      match parse_days days [] 0 with
      | Fail e => Fail e
      | Ok (dailyUsage, totalPostReads) =>
          match iso_day startTime, iso_day endTime with
          | Ok s, Ok e =>
              Ok {| dailyUsage := dailyUsage;
                    totalPostReads := totalPostReads;
                    totalEstimatedCost :=
                      (inject_Z totalPostReads * 0.005)%Q;
                    period := {| start := s; end_ := e |} |}
          | Fail e, _ => Fail e
          | Ok _, Fail e => Fail e
          end
      end
  end.

(** [fallbackLocalUsage(days)]: the ledger, as a report. *)
Definition fallbackLocalUsage (e : Env) : Ledger UsageResponse :=
  bind (loadBudget e) (fun budget =>
  let today := before_T (Date_iso B (now e)) in
  let lt := localTracking budget in
  ret {| dailyUsage :=
           [{| date := today; postReads := todayPostReads lt;
               estimatedCost := todayCost lt |}];
         totalPostReads := rollingPostReads lt;
         totalEstimatedCost := rollingCost lt;
         period :=
           {| start := before_T (Date_iso B (lastReset lt));
              end_ := today |} |}).

(** The response of the usage endpoint. *)
Record UsageHttp : Type := mkUsageHttp {
  u_status : Z;
  u_body_text : string;
  u_body_json : option RawUsage
}.

(** [fetchUsage(opts)]: [token] is the outcome of [getToken()], [res]
    the response the one [fetch] gets; beside the result, whether the
    request was sent. *)
Definition fetchUsage (token : option string) (e : Env) (days : option Z)
    (res : UsageHttp) (f : BudgetFile) : Result UsageResponse * bool :=
  match token with
  | None => (Fail NoToken, false)
  | Some _ =>
      let days := or_num days 7 in
      let endTime := new_Date (Some (now e)) in
      let startTime := new_Date (Some (now e - days * 86400000)) in
      match startTime, endTime with
      | None, _ => (Fail InvalidTime, false)
      | Some _, None => (Fail InvalidTime, false)
      | Some _, Some _ =>
          if decide (u_status res = 429) then (Fail UsageRateLimited, true)
          else if negb ((200 <=? u_status res) && (u_status res <=? 299))
          then
            if decide (u_status res = 403 \/ u_status res = 404)
            then (Ok (fst (fallbackLocalUsage e f)), true)
            else (Fail (UsageStatus (u_status res)
                          (substring 0 200 (u_body_text res))), true)
          else
            match u_body_json res with
            | None => (Fail BadBody, true)
            | Some data => (parseUsageResponse data startTime endTime, true)
            end
      end
  end.

End WithBuiltins.

(** The sums the totals are compared with. *)
Definition sum_reads (rows : list DailyUsage) : Z :=
  fold_right (fun d acc => postReads d + acc) 0 rows.

(** The counts of a day's apps, added up; a missing count is none. *)
Definition apps_total (day : RawDay) : Z :=
  foldr Z.add 0 (default 0 ∘ app_tweets <$> default [] (day_usage day)).

(** The row of a day: the day's total, and its date, "unknown" when the
    day has none. *)
Definition row_of (B : Builtins) (day : RawDay) (row : DailyUsage) : Prop :=
  postReads row = apps_total day /\
  (truthy (day_date day) = None -> date row = "unknown") /\
  (forall d t, truthy (day_date day) = Some d -> Date_parse B d = Some t ->
               date row = before_T (Date_iso B t)).

(** Built-ins to run the examples with: no date string is read, a time
    value is printed as its number, nothing is percent-encoded. *)
Definition plain_builtins : Builtins :=
  {| Date_parse := fun _ => None;
     Date_iso := fun t => pretty t;
     encodeURIComponent := fun s => s |}.

End Report.

(** * More of [lib/api.ts]: lookups *)

Module Lookup.
Import Api.
Import ApiMore.
Open Scope string_scope.
Open Scope Z_scope.
Open Scope list_scope.

(** The body of a single-tweet lookup, as far as it is read: what is
    under [data] (nothing, an object, an array), the side-loaded users,
    and the body's own properties read as those of a tweet. *)
Inductive LookupData : Type :=
  | DataMissing
  | DataObject (item : RawTweet)
  | DataArray (items : list RawTweet).

Record LookupBody : Type := mkLookupBody {
  lk_data : LookupData;
  lk_includes : option RawIncludes;
  lk_self : RawTweet
}.

(** [apiGet] for an endpoint whose body is read at another type: [body k]
    is what [res.json()] gives for the k-th fetch, [None] when it
    throws. *)
Definition apiGet_as {A : Type} (body : nat -> option A) (w : World)
    (url : string) (io : IO) : Outcome A * IO :=
  match token w with
  | None => (Throws TokenNotFound, io)
  | Some tk =>
      let res := remote w (calls io) in
      let now := clock w (calls io) in
      let io' := {| calls := S (calls io);
                    trace := trace io ++ [EvFetch url tk] |} in
      if decide (status res = 429) then
        let waitSec := rate_limit_wait (x_rate_limit_reset res) now in
        (Throws (RateLimited waitSec), io')
      else if negb (ok res) then
        (Throws (ApiStatus (status res) (substring 0 200 (body_text res))),
         io')
      else
        match body (calls io) with
        | Some raw => (Returns raw, io')
        | None => (Throws SyntaxError, io')
        end
  end.

(** What the k-th fetch of a run makes [apiGet_as] do. *)
Definition answer_as {A : Type} (body : nat -> option A) (w : World)
    (k : nat) : Outcome A :=
  fst (apiGet_as body w EmptyString {| calls := k; trace := [] |}).

(** An array read as a tweet has none of a tweet's properties. *)
Definition no_properties : RawTweet :=
  {| t_id := None; t_text := None; t_author_id := None;
     t_created_at := None; t_conversation_id := None;
     public_metrics := None; entities := None |}.

(** [{ ...raw, data: items }], as [parseTweets] reads it. *)
Definition with_data (raw : LookupBody) (items : list RawTweet)
  : RawResponse :=
  {| data := Some items; includes_ := lk_includes raw; meta := None |}.

(** [raw.data ? [raw.data] : raw.id ? [raw] : []] *)
Definition root_items (raw : LookupBody) : list RawTweet :=
  match lk_data raw with
  | DataObject item => [item]
  | DataArray _ => [no_properties]
  | DataMissing =>
      match truthy (t_id (lk_self raw)) with
      | Some _ => [lk_self raw]
      | None => []
      end
  end.

Section WithBuiltins.
Context (B : Builtins).

(** [thread(conversationId, opts)]; [lookup] reads the body of the root
    lookup. *)
Definition thread (w : World) (lookup : nat -> option LookupBody) (now : Z)
    (conversationId : string) (pages : option Z) (io : IO)
  : Outcome (list Tweet) * IO :=
  let query := "conversation_id:" +:+ conversationId in
  match search B w now query
          {| maxResults := None; pages := Some (or_num pages 2);
             sortOrder := Some recency; since := None |} io with
  | (Throws e, io1) => (Throws e, io1)
  | (Returns tweets, io1) =>
      let rootUrl := BASE +:+ "/tweets/" +:+ conversationId +:+ "?"
                       +:+ FIELDS in
      match apiGet_as lookup w rootUrl io1 with
      | (Throws _, io2) => (Returns tweets, io2)   (* catch { } *)
      | (Returns raw, io2) =>
          let rootTweets := parseTweets (with_data raw (root_items raw)) in
          match rootTweets with
          | [] => (Returns tweets, io2)
          | _ :: _ => (Returns (rootTweets ++ tweets), io2)
          end
      end
  end.

(** [getTweet(tweetId)] *)
Definition getTweet (w : World) (lookup : nat -> option LookupBody)
    (tweetId : string) (io : IO) : Outcome (option Tweet) * IO :=
  let url := BASE +:+ "/tweets/" +:+ tweetId +:+ "?" +:+ FIELDS in
  match apiGet_as lookup w url io with
  | (Throws e, io1) => (Throws e, io1)
  | (Returns raw, io1) =>
      match lk_data raw with
      | DataObject item =>
          (Returns (head (parseTweets (with_data raw [item]))), io1)
      | _ => (Returns None, io1)
      end
  end.

(** How [profile] ends when it does not return. *)
Inductive ProfileError : Type :=
  | Failed (e : Error)
  | UserNotFound (username : string).   (* "User @<username> not found" *)

(** [profile(username, opts)]; [U] is the type of the user object, which
    is passed on as it is, and [user k] reads the [data] of the k-th
    body, [Some None] when there is none. *)
Definition profile {U : Type} (w : World) (user : nat -> option (option U))
    (now : Z) (username : string) (count : option Z) (includeReplies : bool)
    (io : IO) : (ProfileError + U * list Tweet) * IO :=
  let userUrl :=
    BASE +:+ "/users/by/username/" +:+ username
      +:+ "?user.fields=public_metrics,description,created_at" in
  match apiGet_as user w userUrl io with
  | (Throws e, io1) => (inl (Failed e), io1)
  | (Returns None, io1) => (inl (UserNotFound username), io1)
  | (Returns (Some u), io1) =>
      let io2 := sleep RATE_DELAY_MS io1 in
      let replyFilter := if includeReplies then EmptyString
                         else " -is:reply" in
      let query := "from:" +:+ username +:+ " -is:retweet" +:+ replyFilter in
      match search B w now query
              {| maxResults := Some (Z.min (or_num count 20) 100);
                 pages := None; sortOrder := Some recency;
                 since := None |} io2 with
      | (Throws e, io3) => (inl (Failed e), io3)
      | (Returns tweets, io3) => (inr (u, tweets), io3)
      end
  end.

End WithBuiltins.

(** A remote for a thread: one page of replies without a token, then
    status 404 for the root. *)
Definition thread_world : World :=
  {| token := Some "secret";
     remote := fun k =>
       match k with
       | O => {| status := 200; x_rate_limit_reset := None;
                 body_text := EmptyString;
                 body_json := Some (page_with "reply" None) |}
       | _ => {| status := 404; x_rate_limit_reset := None;
                 body_text := "Not Found"; body_json := None |}
       end;
     clock := fun _ => a_clock |}.

End Lookup.

(** * Properties of the budget ledger *)

Module LedgerProps.
Import Usage.

Lemma Qlt_bool_iff (x y : Q) : Qlt_bool x y = true <-> (x < y)%Q.
Proof.
  unfold Qlt_bool. rewrite negb_true_iff.
  split.
  - intros H. apply Qnot_le_lt. intros Hle.
    apply Qle_bool_iff in Hle. congruence.
  - intros H. destruct (Qle_bool y x) eqn:E; [|reflexivity].
    apply Qle_bool_iff in E. exfalso. apply (Qlt_not_le _ _ H E).
Qed.

Lemma Qlt_bool_false_iff (x y : Q) : Qlt_bool x y = false <-> (y <= x)%Q.
Proof.
  unfold Qlt_bool. rewrite negb_false_iff. apply Qle_bool_iff.
Qed.


(** ** What the operations compute *)

Lemma loadBudget_keeps_file (e : Env) (f : BudgetFile) :
  snd (loadBudget e f) = f.
Proof.
  unfold loadBudget, bind, readBudgetFile, ret.
  destruct f as [| |raw]; simpl; try reflexivity.
  destruct (decide (today (localTracking raw) <> utc_day (now e)));
    reflexivity.
Qed.

Lemma loadBudget_eq (e : Env) (f : BudgetFile) :
  loadBudget e f = (loaded e f, f).
Proof.
  unfold loaded. rewrite <- (loadBudget_keeps_file e f) at 3.
  destruct (loadBudget e f); reflexivity.
Qed.

Lemma recordUsage_eq (e : Env) (postReads : Z) (f : BudgetFile) :
  recordUsage e postReads f =
    (checkLimits (addUsage (utc_day (now e)) postReads (loaded e f)),
     FileHolds (addUsage (utc_day (now e)) postReads (loaded e f))).
Proof.
  unfold recordUsage, bind. rewrite loadBudget_eq. reflexivity.
Qed.

Lemma budgetReset_eq (e : Env) (f : BudgetFile) :
  budgetReset e f =
    (tt, FileHolds
           {| dailyLimitUsd := dailyLimitUsd (loaded e f);
              monthlyLimitUsd := monthlyLimitUsd (loaded e f);
              warnThreshold := warnThreshold (loaded e f);
              localTracking :=
                {| today := utc_day (now e); todayPostReads := 0;
                   todayCost := 0; rollingPostReads := 0; rollingCost := 0;
                   lastReset := now e |} |}).
Proof.
  unfold budgetReset, bind. rewrite loadBudget_eq. reflexivity.
Qed.

Lemma loaded_limits (e : Env) (f : BudgetFile) :
  dailyLimitUsd (loaded e f) = dailyLimitUsd (configured e f) /\
  monthlyLimitUsd (loaded e f) = monthlyLimitUsd (configured e f) /\
  warnThreshold (loaded e f) = warnThreshold (configured e f).
Proof.
  unfold loaded, loadBudget, bind, readBudgetFile, ret.
  destruct f as [| |raw]; simpl; auto.
  destruct (decide (today (localTracking raw) <> utc_day (now e)));
    simpl; auto.
Qed.

(** After loading, the tracking block is dated today unless the defaults
    were used. *)
Lemma loaded_today (e : Env) (b : BudgetConfig) :
  today (localTracking (loaded e (FileHolds b))) = utc_day (now e).
Proof.
  unfold loaded, loadBudget, bind, readBudgetFile, ret. simpl.
  destruct (decide (today (localTracking b) <> utc_day (now e))) as [H|H];
    simpl; [reflexivity|].
  destruct (Z.eq_dec (today (localTracking b)) (utc_day (now e)));
    [assumption | contradiction].
Qed.

Lemma addUsage_limits (day n : Z) (b : BudgetConfig) :
  dailyLimitUsd (addUsage day n b) = dailyLimitUsd b /\
  monthlyLimitUsd (addUsage day n b) = monthlyLimitUsd b /\
  warnThreshold (addUsage day n b) = warnThreshold b.
Proof. unfold addUsage; simpl; auto. Qed.

(** ** The warning of [recordUsage] *)


(** The costs the checks of [recordUsage] look at: what was loaded, with
    today's part restarted on a new day, plus the cost of the new reads. *)
Lemma addUsage_costs (day n : Z) (b : BudgetConfig) :
  let lt := localTracking b in
  let lt' := localTracking (addUsage day n b) in
  today lt' = day /\
  todayCost lt' =
    ((if decide (today lt <> day) then 0 else todayCost lt)
     + inject_Z n * UNIT_PRICE)%Q /\
  rollingCost lt' = (rollingCost lt + inject_Z n * UNIT_PRICE)%Q.
Proof.
  unfold addUsage; simpl.
  destruct (decide (today (localTracking b) <> day)) as [H|H]; simpl;
    repeat split; try reflexivity.
  destruct (Z.eq_dec (today (localTracking b)) day); [assumption|contradiction].
Qed.

(** ** The admission check *)

Lemma checkBudget_keeps_file (e : Env) (n : Z) (f : BudgetFile) :
  snd (checkBudget e n f) = f.
Proof.
  unfold checkBudget, bind. rewrite loadBudget_eq.
  repeat match goal with
         | |- context [if ?c then _ else _] => destruct c
         end; reflexivity.
Qed.

(** ** Reset *)

(** C6. [usage budget reset] saves a budget whose read counts and costs,
    today's and rolling, are zero, whose date is today and whose last
    reset time is now, and whose daily limit, monthly limit and warn
    threshold are those in force before. *)
Theorem C6_reset_keeps_limits (e : Env) (f : BudgetFile) :
  exists b',
    snd (budgetReset e f) = FileHolds b' /\
    todayPostReads (localTracking b') = 0 /\
    todayCost (localTracking b') = 0%Q /\
    rollingPostReads (localTracking b') = 0 /\
    rollingCost (localTracking b') = 0%Q /\
    today (localTracking b') = utc_day (now e) /\
    lastReset (localTracking b') = now e /\
    dailyLimitUsd b' = dailyLimitUsd (configured e f) /\
    monthlyLimitUsd b' = monthlyLimitUsd (configured e f) /\
    warnThreshold b' = warnThreshold (configured e f).
Proof.
  rewrite budgetReset_eq. eexists. split; [reflexivity|]. simpl.
  destruct (loaded_limits e f) as (Hd & Hm & Hw).
  repeat split; assumption.
Qed.

(** ** The accounting invariant *)

Lemma default_ok (t : Z) : ledger_ok (DEFAULT_BUDGET t).
Proof. split; reflexivity. Qed.

Lemma loaded_ok (e : Env) (f : BudgetFile) :
  file_ok f -> ledger_ok (loaded e f).
Proof.
  unfold loaded, loadBudget, bind, readBudgetFile, ret.
  destruct f as [| |raw]; simpl; intros H; try apply default_ok.
  destruct (decide (today (localTracking raw) <> utc_day (now e))); simpl;
    [|exact H].
  destruct H as [_ Hr]. split; simpl; [reflexivity | exact Hr].
Qed.

Lemma addUsage_ok (day n : Z) (b : BudgetConfig) :
  ledger_ok b -> ledger_ok (addUsage day n b).
Proof.
  intros [Ht Hr]. unfold ledger_ok, addUsage; simpl.
  rewrite !inject_Z_plus.
  destruct (decide (today (localTracking b) <> day)); simpl.
  - rewrite Hr. split; ring.
  - rewrite Ht, Hr. split; ring.
Qed.

(** Reset establishes the invariant whatever the file held. *)
Lemma budgetReset_ok (e : Env) (f : BudgetFile) :
  file_ok (snd (budgetReset e f)).
Proof. rewrite budgetReset_eq. split; reflexivity. Qed.

Lemma set_limit_ok (e : Env) (f : BudgetFile) (x : option Q) :
  file_ok f ->
  file_ok (snd (budgetSetDaily e x f)) /\
  file_ok (snd (budgetSetMonthly e x f)).
Proof.
  intros H. pose proof (loaded_ok e f H) as Hl.
  unfold budgetSetDaily, budgetSetMonthly, bind.
  rewrite loadBudget_eq.
  destruct x as [x|]; [destruct (Qlt_bool x 0)|]; simpl; auto.
Qed.

Lemma step_ok (f : BudgetFile) (c : Env * LedgerOp) :
  file_ok f -> file_ok (step f c).
Proof.
  intros H. destruct c as [e op]. destruct op; simpl.
  - rewrite recordUsage_eq. simpl. apply addUsage_ok, loaded_ok, H.
  - rewrite checkBudget_keeps_file. exact H.
  - rewrite loadBudget_keeps_file. exact H.
  - apply budgetReset_ok.
  - apply set_limit_ok, H.
  - apply set_limit_ok, H.
Qed.

Lemma run_ok (ops : list (Env * LedgerOp)) (f : BudgetFile) :
  file_ok f -> file_ok (run f ops).
Proof.
  revert f. induction ops as [|c ops IH]; intros f H; simpl.
  - exact H.
  - apply IH, step_ok, H.
Qed.

(** ** Sequences of [recordUsage] calls *)

Lemma run_app (f : BudgetFile) (xs ys : list (Env * LedgerOp)) :
  run f (xs ++ ys) = run (run f xs) ys.
Proof. unfold run. apply fold_left_app. Qed.

Lemma record_ops_snoc (log : list (Z * Z)) (t u : Z) :
  record_ops (log ++ [(t, u)]) =
    record_ops log ++ [({| boot := t; now := t |}, OpRecord u)].
Proof. unfold record_ops. rewrite map_app. reflexivity. Qed.

Lemma sum_units_app (xs ys : list (Z * Z)) :
  sum_units (xs ++ ys) = sum_units xs + sum_units ys.
Proof.
  induction xs as [|c xs IH]; simpl; [reflexivity|].
  unfold sum_units in *. simpl. rewrite IH. lia.
Qed.

Lemma units_of_day_snoc (t t' u' : Z) (log : list (Z * Z)) :
  units_of_day t (log ++ [(t', u')]) =
    units_of_day t log + (if decide (utc_day t' = utc_day t) then u' else 0).
Proof.
  unfold units_of_day. rewrite filter_app, sum_units_app. f_equal.
  rewrite filter_cons, filter_nil. simpl.
  destruct (decide (utc_day t' = utc_day t)); simpl; unfold sum_units; simpl;
    lia.
Qed.

Lemma units_of_day_same (t t' : Z) (log : list (Z * Z)) :
  utc_day t = utc_day t' -> units_of_day t log = units_of_day t' log.
Proof. intros H. unfold units_of_day. rewrite H. reflexivity. Qed.

Lemma units_of_day_none (t : Z) (log : list (Z * Z)) :
  Forall (fun c => utc_day (fst c) < utc_day t) log ->
  units_of_day t log = 0.
Proof.
  unfold units_of_day. induction 1 as [|c l Hc Hl IH]; [reflexivity|].
  rewrite filter_cons. destruct (decide (utc_day (fst c) = utc_day t)); [lia|].
  exact IH.
Qed.

Lemma days_ascend_snoc (log : list (Z * Z)) (c : Z * Z) :
  days_ascend (log ++ [c]) <->
  days_ascend log /\
  Forall (fun c' => utc_day (fst c') <= utc_day (fst c)) log.
Proof.
  induction log as [|x log IH]; simpl.
  - split; [intros _; split; [exact I | constructor] | intros _].
    split; [constructor | exact I].
  - rewrite Forall_app, IH, Forall_singleton, Forall_cons. tauto.
Qed.

(** What a log of records leaves in the file: the date of the last
    record, the units of that day, and the units of the whole log. *)
Lemma records_tracking (log : list (Z * Z)) :
  forall t u,
    days_ascend (log ++ [(t, u)]) ->
    exists b,
      run FileAbsent (record_ops (log ++ [(t, u)])) = FileHolds b /\
      today (localTracking b) = utc_day t /\
      todayPostReads (localTracking b) = units_of_day t (log ++ [(t, u)]) /\
      rollingPostReads (localTracking b) = sum_units (log ++ [(t, u)]).
Proof.
  induction log as [|[t' u'] log IH] using rev_ind; intros t u Hasc.
  - exists (addUsage (utc_day t) u (DEFAULT_BUDGET t)).
    split; [reflexivity|].
    rewrite app_nil_l. unfold units_of_day.
    rewrite filter_cons, filter_nil. cbn [fst].
    destruct (decide (utc_day t = utc_day t)) as [_|H']; [|contradiction].
    unfold addUsage, sum_units. cbn.
    destruct (decide (utc_day t <> utc_day t)) as [H|_]; [contradiction|].
    cbn. repeat split; lia.
  - apply days_ascend_snoc in Hasc. destruct Hasc as [Hasc Hle].
    destruct (IH t' u' Hasc) as (b1 & Hrun & Hday & Hreads & Hroll).
    rewrite record_ops_snoc, run_app, Hrun.
    cbn [run fold_left step]. rewrite recordUsage_eq. cbn [snd now].
    eexists. split; [reflexivity|].
    destruct (addUsage_costs (utc_day t) u
                (loaded {| boot := t; now := t |} (FileHolds b1)))
      as (Htoday & _ & _).
    split; [exact Htoday|].
    rewrite units_of_day_snoc, sum_units_app.
    destruct (decide (utc_day t = utc_day t)) as [_|Hne]; [|contradiction].
    unfold addUsage. cbn [localTracking todayPostReads rollingPostReads].
    rewrite (loaded_today {| boot := t; now := t |} b1). cbn [now].
    destruct (decide (utc_day t <> utc_day t)) as [Hne|_]; [contradiction|].
    unfold loaded, loadBudget, bind, readBudgetFile, ret.
    cbn [fst now]. rewrite Hday.
    destruct (decide (utc_day t' <> utc_day t)) as [Hnew|Hsame];
      cbn [localTracking todayPostReads rollingPostReads].
    + split.
      * rewrite units_of_day_none; [reflexivity|].
        apply Forall_app in Hle. destruct Hle as [Hle Hlast].
        rewrite Forall_singleton in Hlast. cbn [fst] in Hlast.
        apply days_ascend_snoc in Hasc. destruct Hasc as [_ Hle'].
        apply Forall_app. split.
        -- eapply Forall_impl; [exact Hle'|].
           cbn [fst]. intros c Hc. lia.
        -- apply Forall_singleton. cbn [fst]. lia.
      * rewrite Hroll. unfold sum_units. cbn. lia.
    + assert (Heq : utc_day t' = utc_day t)
        by (destruct (Z.eq_dec (utc_day t') (utc_day t)); tauto).
      split.
      * cbn [fst]. rewrite Hreads, (units_of_day_same t' t _ Heq).
        reflexivity.
      * cbn [fst]. rewrite Hroll. unfold sum_units. cbn. lia.
Qed.

(** Today's part of C2 holds, and the rolling cost is the cost of every
    unit recorded since the file was created, however old. *)
Lemma records_costs (log : list (Z * Z)) (t u : Z) :
  days_ascend (log ++ [(t, u)]) ->
  exists b,
    run FileAbsent (record_ops (log ++ [(t, u)])) = FileHolds b /\
    (todayCost (localTracking b) ==
       inject_Z (units_of_day t (log ++ [(t, u)])) * UNIT_PRICE)%Q /\
    (rollingCost (localTracking b) ==
       inject_Z (sum_units (log ++ [(t, u)])) * UNIT_PRICE)%Q.
Proof.
  intros Hasc.
  destruct (records_tracking log t u Hasc) as (b & Hrun & _ & Hreads & Hroll).
  exists b. split; [exact Hrun|].
  pose proof (run_ok (record_ops (log ++ [(t, u)])) FileAbsent I) as Hok.
  rewrite Hrun in Hok. destruct Hok as [Ht Hr].
  rewrite <- Hreads, <- Hroll. split; assumption.
Qed.

(** C2 at a failing input: 100 units are recorded, and 1 unit 31 days
    later. The units of the 30 days ending then are 1 (and so are the units
    of that day, which today's cost matches), but the rolling cost is still
    that of all 101 units: nothing ever leaves the rolling totals. *)
Theorem C2_rolling_cost_never_expires :
  let t := 31 * MS_PER_DAY in
  let log := [(0, 100); (t, 1)] in
  exists b,
    run FileAbsent (record_ops log) = FileHolds b /\
    units_of_window t log = 1 /\
    units_of_day t log = 1 /\
    (todayCost (localTracking b) ==
       inject_Z (units_of_day t log) * UNIT_PRICE)%Q /\
    (rollingCost (localTracking b) == inject_Z 101 * UNIT_PRICE)%Q /\
    ~ (rollingCost (localTracking b) ==
         inject_Z (units_of_window t log) * UNIT_PRICE)%Q.
Proof.
  eexists. split; [reflexivity|].
  split; [reflexivity|]. split; [reflexivity|].
  split; [reflexivity|]. split; [reflexivity|].
  intros H. vm_compute in H. discriminate H.
Qed.

End LedgerProps.

(** * Properties of the fetch client and the aggregator *)

Module ApiProps.
Import Api.
Open Scope list_scope.

(** ** [dedupe] *)

(** Membership of identities in the sets and lists of the filter. *)
Ltac ids_solve :=
  repeat match goal with
         | H : context [_ ∈ _ :: _] |- _ => rewrite elem_of_cons in H
         | H : context [_ ∈ _ ∪ _] |- _ => rewrite elem_of_union in H
         | H : context [_ ∈ {[ _ ]}] |- _ => rewrite elem_of_singleton in H
         end;
  intuition congruence.

Lemma dedupe_from_elem (l : list Tweet) :
  forall seen t, t ∈ dedupe_from seen l -> (tweet_id t ∉ seen) /\ t ∈ l.
Proof.
  induction l as [|x l IH]; intros seen t; simpl.
  - intros H. inversion H.
  - destruct (decide (tweet_id x ∈ seen)) as [Hin|Hnin].
    + intros H. destruct (IH _ _ H). split; [assumption|]. by right.
    + intros H. apply elem_of_cons in H. destruct H as [->|H].
      * split; [assumption | by left].
      * destruct (IH _ _ H) as [Hs Hl]. split; [|by right].
        intros Hc. apply Hs. apply elem_of_union. by right.
Qed.

Lemma dedupe_from_seen (l : list Tweet) (seen : gset (option string)) t :
  t ∈ dedupe_from seen l -> tweet_id t ∉ seen.
Proof. intros H. by destruct (dedupe_from_elem l seen t H). Qed.

Lemma dedupe_from_NoDup (l : list Tweet) :
  forall seen, NoDup (tweet_id <$> dedupe_from seen l).
Proof.
  induction l as [|x l IH]; intros seen; simpl.
  - constructor.
  - destruct (decide (tweet_id x ∈ seen)); [apply IH|].
    rewrite fmap_cons. constructor; [|apply IH].
    intros Hin. apply list_elem_of_fmap in Hin.
    destruct Hin as (t & Heq & Ht).
    apply dedupe_from_seen in Ht. set_solver.
Qed.

Lemma dedupe_from_sublist (l : list Tweet) :
  forall seen, sublist (dedupe_from seen l) l.
Proof.
  induction l as [|x l IH]; intros seen; simpl.
  - constructor.
  - destruct (decide (tweet_id x ∈ seen)).
    + apply sublist_cons, IH.
    + apply sublist_skip, IH.
Qed.

(** A list without repeated identities, none of them seen, is kept whole. *)
Lemma dedupe_from_fixed (l : list Tweet) :
  forall seen,
    (forall t, t ∈ l -> tweet_id t ∉ seen) ->
    NoDup (tweet_id <$> l) ->
    dedupe_from seen l = l.
Proof.
  induction l as [|x l IH]; intros seen Hseen Hnd; simpl; [reflexivity|].
  rewrite fmap_cons in Hnd. apply NoDup_cons in Hnd. destruct Hnd as [Hx Hnd].
  destruct (decide (tweet_id x ∈ seen)) as [Hin|_].
  - exfalso. apply (Hseen x); [by left | assumption].
  - f_equal. apply IH; [|assumption].
    intros t Ht. specialize (Hseen t (list_elem_of_further _ _ _ Ht)).
    assert (tweet_id t <> tweet_id x).
    { intros Heq. apply Hx. rewrite <- Heq.
      apply list_elem_of_fmap. by exists t. }
    intros Hc. ids_solve.
Qed.

(** The filter with a set already seen, by index. *)
Lemma dedupe_from_by_index (l : list Tweet) :
  forall seen,
    dedupe_from seen l =
    concat
      (imap (fun i t =>
               if decide (tweet_id t ∈ seen \/
                          tweet_id t ∈ tweet_id <$> take i l)
               then [] else [t])
            l).
Proof.
  induction l as [|x l IH]; intros seen; [reflexivity|].
  rewrite imap_cons. cbn [dedupe_from concat take fmap list_fmap].
  destruct (decide (tweet_id x ∈ seen)) as [Hin|Hnin].
  - rewrite decide_True by (by left).
    rewrite app_nil_l, IH. f_equal. apply imap_ext. intros i t _.
    unfold compose. rewrite firstn_cons, fmap_cons.
    repeat case_decide; try reflexivity; exfalso; ids_solve.
  - rewrite decide_False by (rewrite elem_of_nil; tauto).
    cbn [app]. f_equal. rewrite IH. f_equal. apply imap_ext. intros i t _.
    unfold compose. rewrite firstn_cons, fmap_cons.
    repeat case_decide; try reflexivity; exfalso; ids_solve.
Qed.

(** C9. [dedupe] is idempotent, and [dedupe X] is the subsequence of [X]
    that keeps the record at an index exactly when no earlier record of
    [X] has its identity: one record per identity, the first, in the order
    of [X]. *)
Theorem C9_dedupe_first_occurrences (X : list Tweet) :
  dedupe (dedupe X) = dedupe X /\
  dedupe X = first_occurrences X /\
  sublist (dedupe X) X /\
  NoDup (tweet_id <$> dedupe X) /\
  (forall t, t ∈ X -> tweet_id t ∈ tweet_id <$> dedupe X).
Proof.
  unfold dedupe. repeat split.
  - apply dedupe_from_fixed; [set_solver | apply dedupe_from_NoDup].
  - rewrite dedupe_from_by_index. unfold first_occurrences. f_equal.
    apply imap_ext. intros i t _. simpl.
    destruct (decide (tweet_id t ∈ ∅ \/ tweet_id t ∈ tweet_id <$> take i X))
      as [H|H];
    destruct (decide (tweet_id t ∈ tweet_id <$> take i X)) as [H'|H'];
      try reflexivity; exfalso.
    + destruct H as [H|H]; [set_solver | contradiction].
    + apply H. by right.
  - apply dedupe_from_sublist.
  - apply dedupe_from_NoDup.
  - intros t Ht.
    assert (Hgen : forall l seen u, u ∈ l ->
              tweet_id u ∈ seen \/
              tweet_id u ∈ tweet_id <$> dedupe_from seen l).
    { induction l as [|x l IH]; intros seen u Hu; [inversion Hu|].
      simpl. apply elem_of_cons in Hu.
      destruct (decide (tweet_id x ∈ seen)) as [Hin|Hnin].
      - destruct Hu as [->|Hu]; [by left | by apply IH].
      - rewrite fmap_cons. destruct Hu as [->|Hu]; [right; by left|].
        destruct (IH ({[tweet_id x]} ∪ seen) u Hu) as [H|H];
          [|right; by right].
        apply elem_of_union in H. destruct H as [H|H]; [|by left].
        apply elem_of_singleton in H. right. rewrite H. by left. }
    destruct (Hgen X ∅ t Ht) as [H|H]; [set_solver | exact H].
Qed.

(** ** Built-ins on sample inputs *)

Example parseInt_samples :
  parseInt "1793664100" = Some 1793664100 /\
  parseInt "12abc" = Some 12 /\
  parseInt "  -7" = Some (-7) /\
  parseInt "0x1f" = Some 31 /\
  parseInt "010" = Some 10 /\
  parseInt "soon" = None /\
  parseInt EmptyString = None.
Proof. repeat split; reflexivity. Qed.

Example match_shorthand_samples :
  match_shorthand "7d" = Some ("7", "d"%char) /\
  match_shorthand "90m" = Some ("90", "m"%char) /\
  match_shorthand "d" = None /\
  match_shorthand "7days" = None /\
  match_shorthand "7 d" = None /\
  match_shorthand "2026-11-01" = None.
Proof. repeat split; reflexivity. Qed.

Example parseSince_samples (B : Builtins) :
  parseSince B a_clock "1d" = Returns (Some (Date_iso B 1793577600000)) /\
  parseSince B a_clock "yesterday" = Returns None /\
  parseSince B a_clock "2026-11-01"
    = Returns (Date_iso B <$> Date_parse B "2026-11-01").
Proof.
  repeat split; try reflexivity.
  unfold parseSince. cbn. destruct (Date_parse B "2026-11-01"); reflexivity.
Qed.

(** ** [parseTweets] *)

Lemma users_fold_own (k : string) (us : list RawUser) :
  forall o : UsersObject,
    Forall (fun u => to_text (u_id u) <> k) us ->
    own (foldl users_assign o us) !! k = own o !! k.
Proof.
  induction us as [|u us IH]; intros o H; [reflexivity|].
  apply Forall_cons in H. destruct H as [Hu Hus].
  cbn [foldl]. rewrite (IH _ Hus). unfold users_assign.
  destruct (decide (to_text (u_id u) = "__proto__")); cbn [own];
    [reflexivity|].
  apply lookup_insert_ne. exact Hu.
Qed.

Lemma users_fold_proto (us : list RawUser) :
  forall o : UsersObject,
    Forall (fun u => to_text (u_id u) <> "__proto__") us ->
    proto (foldl users_assign o us) = proto o.
Proof.
  induction us as [|u us IH]; intros o H; [reflexivity|].
  apply Forall_cons in H. destruct H as [Hu Hus].
  cbn [foldl]. rewrite (IH _ Hus). unfold users_assign.
  destruct (decide (to_text (u_id u) = "__proto__")); [contradiction|].
  reflexivity.
Qed.

(** The key "__proto__" is never an own property of [users]. *)
Lemma users_fold_never_own (us : list RawUser) :
  forall o : UsersObject,
    own o !! "__proto__" = None ->
    own (foldl users_assign o us) !! "__proto__" = None.
Proof.
  induction us as [|u us IH]; intros o H; [exact H|].
  cbn [foldl]. apply IH. unfold users_assign.
  destruct (decide (to_text (u_id u) = "__proto__")) as [|Hne]; cbn [own];
    [exact H|].
  rewrite lookup_insert_ne; [exact H | exact Hne].
Qed.

Lemma Object_prototype_function_named (k fname : string) :
  Object_prototype_function k = Some fname -> fname <> EmptyString.
Proof.
  unfold Object_prototype_function.
  destruct (decide (k = "constructor")); [intros [= <-]; discriminate|].
  case_decide as Hin; [|discriminate].
  intros [= <-]. intros ->.
  repeat (apply elem_of_cons in Hin; destruct Hin as [Hin|Hin];
          [discriminate Hin|]).
  inversion Hin.
Qed.

Lemma user_property_not_inherited (p : RawUser) (k s : string) :
  user_property p k = Some s -> Object_prototype_function k = None.
Proof.
  unfold user_property.
  destruct (decide (k = "id")) as [->|]; [reflexivity|].
  destruct (decide (k = "username")) as [->|]; [reflexivity|].
  destruct (decide (k = "name")) as [->|]; [reflexivity|discriminate].
Qed.

(** An author that no side-loaded user matches: [users[k]] has no
    [username], and it has a [name] only when it is one of the functions
    that every object inherits. *)
Lemma users_get_unmatched (us : list RawUser) (k : string) :
  Forall (fun u => to_text (u_id u) <> k) us ->
  member_username (users_get (users_table us) k) = None /\
  member_name (users_get (users_table us) k) = Object_prototype_function k.
Proof.
  intros H. unfold users_get, users_table.
  rewrite (users_fold_own k us _ H). cbn [own]. rewrite lookup_empty.
  destruct (decide (k = "__proto__")) as [->|Hk].
  - rewrite (users_fold_proto us _ H). cbn. split; reflexivity.
  - destruct (proto _ ≫= _) as [s|] eqn:Hp.
    + cbn. split; [reflexivity|].
      destruct (proto _) as [p|]; [|discriminate Hp].
      symmetry. apply (user_property_not_inherited p k s Hp).
    + destruct (Object_prototype_function k); cbn; split; reflexivity.
Qed.

Lemma or_num_default (o : option Z) : or_num o 0 = default 0 o.
Proof.
  destruct o as [n|]; simpl; [|reflexivity].
  destruct (decide (n = 0)); congruence.
Qed.

Lemma parseTweets_length (raw : RawResponse) :
  length (parseTweets raw) = length (default [] (data raw)).
Proof.
  unfold parseTweets. destruct (data raw); simpl; [|reflexivity].
  apply length_map.
Qed.

(** C7, as amended. Every item of a page is normalized, whatever it
    lacks: the page gives as many tweets as it has items (none when [data]
    is missing); a metric is the item's count, or zero when the count or
    the whole metrics block is missing; the URL, mention and hashtag lists
    are empty when the entity array or the entities block is missing; and
    an item whose author id is the id of no side-loaded user gets the
    placeholder "?" as handle, and as display name too unless the author
    id names a function that every object inherits (its author identity
    is kept as given). *)
Theorem C7_parseTweets_defaults (raw : RawResponse) (items : list RawTweet)
    (i : nat) (t : RawTweet) :
  data raw = Some items ->
  items !! i = Some t ->
  length (parseTweets raw) = length items /\
  exists tw,
    parseTweets raw !! i = Some tw /\
    tweet_id tw = t_id t /\
    author_id tw = t_author_id t /\
    likes (metrics tw) = default 0 (public_metrics t ≫= like_count) /\
    retweets (metrics tw) = default 0 (public_metrics t ≫= retweet_count) /\
    replies (metrics tw) = default 0 (public_metrics t ≫= reply_count) /\
    quotes (metrics tw) = default 0 (public_metrics t ≫= quote_count) /\
    impressions (metrics tw)
      = default 0 (public_metrics t ≫= impression_count) /\
    bookmarks (metrics tw) = default 0 (public_metrics t ≫= bookmark_count) /\
    (entities t ≫= e_urls = None -> urls tw = []) /\
    (entities t ≫= e_mentions = None -> mentions tw = []) /\
    (entities t ≫= e_hashtags = None -> hashtags tw = []) /\
    (Forall (fun u => to_text (u_id u) <> to_text (t_author_id t))
            (default [] (includes_ raw ≫= users)) ->
     username tw = "?" /\
     tweet_url tw = "https://x.com/?/status/" +:+ to_text (t_id t) /\
     (Object_prototype_function (to_text (t_author_id t)) = None ->
      name tw = "?") /\
     (forall fname,
        Object_prototype_function (to_text (t_author_id t)) = Some fname ->
        name tw = fname)).
Proof.
  intros Hdata Hi.
  split; [rewrite parseTweets_length, Hdata; reflexivity|].
  unfold parseTweets. rewrite Hdata.
  set (tbl := users_table (default [] (includes_ raw ≫= users))).
  exists (parseTweet tbl t).
  split; [rewrite list_lookup_fmap_Some; exists t; split; [reflexivity|exact Hi] |].
  unfold parseTweet, metric, entity_strings; simpl.
  rewrite !or_num_default.
  repeat split; try reflexivity.
  - intros H. rewrite H. reflexivity.
  - intros H. rewrite H. reflexivity.
  - intros H. rewrite H. reflexivity.
  - apply users_get_unmatched in H. fold tbl in H. destruct H as [-> _].
    reflexivity.
  - apply users_get_unmatched in H. fold tbl in H. destruct H as [-> _].
    reflexivity.
  - apply users_get_unmatched in H. fold tbl in H. destruct H as [_ ->].
    intros ->. reflexivity.
  - apply users_get_unmatched in H. fold tbl in H. destruct H as [_ ->].
    intros fname Hf. rewrite Hf. unfold or_str, truthy.
    destruct (decide (fname = EmptyString)) as [He|_]; [|reflexivity].
    destruct (Object_prototype_function_named _ _ Hf He).
Qed.

Lemma C7_parseTweets_defaults_witness :
  data bare_page = Some [bare_tweet] /\
  [bare_tweet] !! 0%nat = Some bare_tweet /\
  (length (parseTweets bare_page) = 1%nat /\
   exists tw,
     parseTweets bare_page !! 0%nat = Some tw /\
     tweet_id tw = Some "1" /\
     author_id tw = Some "42" /\
     likes (metrics tw) = 0 /\
     retweets (metrics tw) = 0 /\
     replies (metrics tw) = 0 /\
     quotes (metrics tw) = 0 /\
     impressions (metrics tw) = 0 /\
     bookmarks (metrics tw) = 0 /\
     (@None (list RawUrl) = None -> urls tw = []) /\
     (@None (list RawMention) = None -> mentions tw = []) /\
     (@None (list RawHashtag) = None -> hashtags tw = []) /\
     (Forall (fun u => to_text (u_id u) <> "42") [] ->
      username tw = "?" /\
      tweet_url tw = "https://x.com/?/status/1" /\
      (Object_prototype_function "42" = None -> name tw = "?") /\
      (forall fname,
         Object_prototype_function "42" = Some fname -> name tw = fname))).
Proof.
  split; [reflexivity|]. split; [reflexivity|].
  apply (C7_parseTweets_defaults bare_page [bare_tweet] 0 bare_tweet);
    reflexivity.
Defined.

(** C7, as stated, fails on the placeholder: the handle and the display
    name of an unresolved author are "?", not "unknown". *)
Lemma C7_placeholder_is_question_mark :
  exists tw,
    parseTweets bare_page = [tw] /\
    username tw = "?" /\ name tw = "?" /\
    username tw <> "unknown" /\ name tw <> "unknown".
Proof.
  eexists. split; [reflexivity|]. cbn.
  repeat split; try reflexivity; intros H; discriminate H.
Qed.

(** An author id that names an inherited function: [users["constructor"]]
    is the function [Object], which has a [name] and no [username]; and
    a user whose id is "__proto__" is found under that id. *)
Example inherited_author_samples :
  let item k := {| t_id := Some "1"; t_text := None; t_author_id := Some k;
                   t_created_at := None; t_conversation_id := None;
                   public_metrics := None; entities := None |} in
  let page k us := {| data := Some [item k];
                      includes_ := Some {| users := Some us |};
                      meta := None |} in
  let p := {| u_id := Some "__proto__"; u_username := Some "handle";
              u_name := Some "Name" |} in
  (username <$> parseTweets (page "constructor" []) = ["?"] /\
   name <$> parseTweets (page "constructor" []) = ["Object"]) /\
  name <$> parseTweets (page "valueOf" []) = ["valueOf"] /\
  name <$> parseTweets (page "__proto__" []) = ["?"] /\
  (username <$> parseTweets (page "__proto__" [p]) = ["handle"] /\
   name <$> parseTweets (page "__proto__" [p]) = ["Name"]) /\
  name <$> parseTweets (page "username" [p]) = ["?"] /\
  name <$> parseTweets (page "constructor" [p]) = ["Object"].
Proof. repeat split; reflexivity. Qed.

(** ** [apiGet] on HTTP 429 *)

Lemma truthy_Some (o : option string) (h : string) :
  truthy o = Some h <-> o = Some h /\ h <> EmptyString.
Proof.
  unfold truthy. destruct o as [s|]; [|split; [discriminate | intros [? _]; discriminate]].
  destruct (decide (s = EmptyString)) as [->|Hne]; split.
  - discriminate.
  - intros [[= <-] Hn]. contradiction.
  - intros [= <-]. split; [reflexivity | assumption].
  - intros [[= <-] _]. reflexivity.
Qed.

Lemma truthy_None (o : option string) :
  truthy o = None <-> o = None \/ o = Some EmptyString.
Proof.
  unfold truthy. destruct o as [s|]; [|split; [by left | reflexivity]].
  destruct (decide (s = EmptyString)) as [->|Hne]; split; try discriminate.
  - by right.
  - reflexivity.
  - intros [H|[= H]]; [discriminate | contradiction].
Qed.

(** On a 429 response [apiGet] makes its one fetch and throws the
    rate-limited error, and so does the page loop of [search], which
    fetches nothing more; the wait is 60 seconds when the reset header is
    absent or empty. *)
Lemma rate_limited_once (w : World) (url bearer : string) (io : IO) :
  token w = Some bearer ->
  status (remote w (calls io)) = 429 ->
  let res := remote w (calls io) in
  let io' := {| calls := S (calls io);
                trace := trace io ++ [EvFetch url bearer] |} in
  exists wait,
    apiGet w url io = (Throws (RateLimited wait), io') /\
    (forall prefix rest nextToken allTweets,
       url = prefix +:+ pagination_of nextToken ->
       search_pages w prefix (S rest) nextToken allTweets io
         = (Throws (RateLimited wait), io')) /\
    (truthy (x_rate_limit_reset res) = None -> wait = Binary64.of_Z 60).
Proof.
  intros Htok Hst res io'.
  assert (Hget : forall u,
            apiGet w u io =
            (Throws (RateLimited
                       (rate_limit_wait (x_rate_limit_reset res)
                                        (clock w (calls io)))),
             {| calls := S (calls io);
                trace := trace io ++ [EvFetch u bearer] |})).
  { intros u. unfold apiGet. rewrite Htok.
    destruct (decide (status (remote w (calls io)) = 429)) as [_|Hn];
      [reflexivity | contradiction]. }
  eexists. split; [apply Hget|]. split.
  - intros prefix rest nextToken allTweets Hurl. subst url. subst io'.
    cbn [search_pages]. fold (pagination_of nextToken).
    rewrite Hget. reflexivity.
  - intros H. unfold rate_limit_wait. rewrite H. reflexivity.
Qed.

(** The wait on sample headers, at the clock reading 1793664000 s: a
    reset 100 s ahead, a reset in the past, an integer beyond 2^53 (which
    [parseInt] rounds), no header, an empty header. *)
Example rate_limit_wait_samples :
  rate_limit_wait (Some "1793664100") a_clock = Binary64.of_Z 100 /\
  rate_limit_wait (Some "1793660000") a_clock = Binary64.of_Z 1 /\
  rate_limit_wait (Some "99999999999999999999") a_clock
    = S754_finite false 6103515624890523 14 /\
  rate_limit_wait None a_clock = Binary64.of_Z 60 /\
  rate_limit_wait (Some EmptyString) a_clock = Binary64.of_Z 60.
Proof. repeat split; vm_compute; reflexivity. Qed.

(** C8 at a failing input: a 429 response whose reset header is present
    but is not a number of seconds (here a date, the other form such
    headers take). [parseInt] gives [NaN], [NaN - now] is [NaN] and
    [Math.max(NaN, 1)] is [NaN]: the error thrown carries the wait [NaN]
    ("Resets in NaNs"), which is not at least 1, although the lower bound
    [Math.max(..., 1)] and the fallback of 60 s for an absent header are
    there to give the caller a usable wait. *)
Theorem C8_non_numeric_header_gives_NaN :
  let w := limited_world (Some "Tue, 03 Nov 2026 00:15:00 GMT") in
  x_rate_limit_reset (remote w 0) <> None /\
  (exists wait,
     apiGet w "https://api.x.com/2/x" io0
       = (Throws (RateLimited wait),
          {| calls := 1;
             trace := [EvFetch "https://api.x.com/2/x" "secret"] |}) /\
     wait = Binary64.NaN /\
     Binary64.leb (Binary64.of_Z 1) wait = false) /\
  fst (apiGet (limited_world None) "https://api.x.com/2/x" io0)
    = Throws (RateLimited (Binary64.of_Z 60)).
Proof.
  split; [discriminate|]. split; [|reflexivity].
  eexists. split; [reflexivity|]. split; reflexivity.
Qed.

(** ** The page loop of [search] *)

Lemma apiGet_delivered (w : World) (url bearer : string) (io : IO)
    (raw : RawResponse) :
  token w = Some bearer ->
  delivered w (calls io) = Some raw ->
  apiGet w url io =
    (Returns raw,
     {| calls := S (calls io); trace := trace io ++ [EvFetch url bearer] |}).
Proof.
  unfold delivered, apiGet. intros -> H.
  destruct (decide (status (remote w (calls io)) = 429)); [discriminate|].
  destruct (negb (ok (remote w (calls io)))); [discriminate|].
  rewrite H. reflexivity.
Qed.

Lemma is_fetch_count (prefix bearer : string) (ps : list RawResponse) :
  forall nextToken,
    length (filter is_fetch (paced_fetches prefix bearer nextToken ps))
      = length ps /\
    length (filter (fun ev => ~ is_fetch ev)
              (paced_fetches prefix bearer nextToken ps))
      = pred (length ps).
Proof.
  induction ps as [|p ps IH]; intros nextToken; [split; reflexivity|].
  cbn [paced_fetches]. rewrite !filter_cons. cbn [is_fetch].
  rewrite decide_True by exact I.
  rewrite (decide_False (P := ~ true)) by (intros H; apply H; exact I).
  destruct ps as [|q ps]; [split; reflexivity|].
  rewrite !filter_cons. cbn [is_fetch].
  rewrite (decide_False (P := Is_true false)) by (intros H; exact H).
  rewrite (decide_True (P := ~ false)) by (intros H; exact H).
  destruct (IH (meta p ≫= next_token)) as [IH1 IH2].
  cbn [length]. rewrite IH1, IH2. split; reflexivity.
Qed.

Lemma paced_fetches_last (prefix bearer : string) (ps : list RawResponse) :
  forall nextToken,
    ps <> [] ->
    exists url,
      last (paced_fetches prefix bearer nextToken ps)
        = Some (EvFetch url bearer).
Proof.
  induction ps as [|p ps IH]; intros nextToken Hne; [contradiction|].
  cbn [paced_fetches]. destruct ps as [|q ps].
  - eexists. reflexivity.
  - destruct (IH (meta p ≫= next_token)) as [url Hurl]; [discriminate|].
    exists url. rewrite <- Hurl. reflexivity.
Qed.

(** The loop from any point: [ps] are the pages still to come before the
    page [final] that carries no token. *)
Lemma search_pages_run (w : World) (prefix bearer : string)
    (final : RawResponse) (ps : list RawResponse) :
  forall (N : nat) (nextToken : option string) (allTweets : list Tweet)
         (io : IO),
    token w = Some bearer ->
    (length ps < N)%nat ->
    (forall k p, (ps ++ [final]) !! k = Some p ->
                 delivered w (calls io + k) = Some p) ->
    Forall has_next ps ->
    ~ has_next final ->
    search_pages w prefix N nextToken allTweets io =
      (Returns (allTweets ++ concat (parseTweets <$> (ps ++ [final]))),
       {| calls := calls io + length (ps ++ [final]);
          trace := trace io ++
                   paced_fetches prefix bearer nextToken (ps ++ [final]) |}).
Proof.
  induction ps as [|p ps IH];
    intros N nextToken allTweets io Htok HN Hdel Hnext Hfinal.
  - destruct N as [|rest]; [lia|].
    cbn [search_pages].
    rewrite (apiGet_delivered w _ bearer io final Htok).
    2:{ rewrite <- (Nat.add_0_r (calls io)). apply Hdel. reflexivity. }
    destruct (truthy (meta final ≫= next_token)) as [tk|] eqn:Htk.
    + exfalso. apply Hfinal. unfold has_next. rewrite Htk. by eexists.
    + cbn. rewrite app_nil_r, Nat.add_1_r. reflexivity.
  - destruct N as [|rest]; [simpl in HN; lia|].
    cbn [search_pages].
    rewrite (apiGet_delivered w _ bearer io p Htok).
    2:{ rewrite <- (Nat.add_0_r (calls io)). apply Hdel. reflexivity. }
    apply Forall_cons in Hnext. destruct Hnext as [[tk Htk] Hnext].
    rewrite Htk.
    destruct (decide (rest <> 0%nat)) as [_|Hz]; [|simpl in HN; lia].
    rewrite (IH rest (meta p ≫= next_token) _ _ Htok); try assumption.
    + cbn [sleep calls trace app fmap list_fmap concat length paced_fetches].
      destruct (ps ++ [final]) as [|q qs] eqn:Hq;
        [destruct ps; discriminate Hq|].
      rewrite <- !app_assoc. cbn [app].
      f_equal. f_equal. lia.
    + simpl in HN. lia.
    + intros k q Hq. cbn [sleep calls].
      replace (S (calls io) + k)%nat with (calls io + S k)%nat by lia.
      apply Hdel. exact Hq.
Qed.

(** The whole of [search], when its time filter is computed: the page
    loop runs on the URL built from the options. *)
Lemma search_runs_pages (B : Builtins) (w : World) (now : Z) (query : string)
    (opts : SearchOpts) (timeFilter : string) (io : IO) :
  time_filter B now opts = Returns timeFilter ->
  search B w now query opts io =
    search_pages w (search_prefix B query opts timeFilter)
      (Z.to_nat (or_num (pages opts) 1)) None [] io.
Proof. intros H. unfold search. rewrite H. reflexivity. Qed.

(** C5. With a page budget of [N], when the responses to the first
    requests carry a continuation token and the one to request [m] carries
    none ([m <= N]; [ps] are the pages before the last, [final] is page
    [m]), the page loop, and [search] with [pages = N] once its time filter
    is computed, issues exactly [m] requests, returns the pages' tweets
    concatenated in fetch order, and pauses [RATE_DELAY_MS] between two
    consecutive requests and nowhere else: the trace ends with the last
    request. *)
Theorem C5_paginated_search (w : World) (prefix bearer : string) (N : nat)
    (ps : list RawResponse) (final : RawResponse) (io : IO) :
  token w = Some bearer ->
  (length (ps ++ [final]) <= N)%nat ->
  (forall k p, (ps ++ [final]) !! k = Some p ->
               delivered w (calls io + k) = Some p) ->
  Forall has_next ps ->
  ~ has_next final ->
  let m := length (ps ++ [final]) in
  let events := paced_fetches prefix bearer None (ps ++ [final]) in
  search_pages w prefix N None [] io =
    (Returns (concat (parseTweets <$> (ps ++ [final]))),
     {| calls := calls io + m; trace := trace io ++ events |}) /\
  (forall (B : Builtins) (now : Z) (query : string) (opts : SearchOpts)
          (timeFilter : string),
     time_filter B now opts = Returns timeFilter ->
     Z.to_nat (or_num (pages opts) 1) = N ->
     prefix = search_prefix B query opts timeFilter ->
     search B w now query opts io =
       (Returns (concat (parseTweets <$> (ps ++ [final]))),
        {| calls := calls io + m; trace := trace io ++ events |})) /\
  length (filter is_fetch events) = m /\
  length (filter (fun ev => ~ is_fetch ev) events) = pred m /\
  (exists url, last events = Some (EvFetch url bearer)).
Proof.
  intros Htok HN Hdel Hnext Hfinal m events.
  assert (Hrun : search_pages w prefix N None [] io =
            (Returns (concat (parseTweets <$> (ps ++ [final]))),
             {| calls := calls io + m; trace := trace io ++ events |})).
  { rewrite (search_pages_run w prefix bearer final ps N None [] io);
      try assumption; [reflexivity|].
    rewrite length_app in HN. simpl in HN. lia. }
  split; [exact Hrun|]. split; [|split; [|split]].
  - intros B now query opts timeFilter Htf HNopts Hprefix.
    rewrite (search_runs_pages B w now query opts timeFilter io Htf).
    rewrite HNopts, <- Hprefix. exact Hrun.
  - apply is_fetch_count.
  - apply is_fetch_count.
  - apply paced_fetches_last. destruct ps; discriminate.
Qed.

(** The two-page fetch: two requests, one pause between them, the two
    pages' tweets in order. *)
Lemma C5_paginated_search_witness :
  token two_page_world = Some "secret" /\
  (length ([page_with "a" (Some "tok2")] ++ [page_with "b" None]) <= 5)%nat /\
  Forall has_next [page_with "a" (Some "tok2")] /\
  ~ has_next (page_with "b" None) /\
  search_pages two_page_world "https://api.x.com/2/q" 5 None [] io0 =
    (Returns (parseTweets (page_with "a" (Some "tok2")) ++
              parseTweets (page_with "b" None)),
     {| calls := 2;
        trace := [EvFetch "https://api.x.com/2/q" "secret";
                  EvSleep 350;
                  EvFetch "https://api.x.com/2/q&pagination_token=tok2"
                          "secret"] |}).
Proof.
  assert (Hnext : Forall has_next [page_with "a" (Some "tok2")]).
  { constructor; [|constructor]. eexists. reflexivity. }
  assert (Hfinal : ~ has_next (page_with "b" None)).
  { intros [x Hx]. discriminate Hx. }
  assert (Hlen : (length ([page_with "a" (Some "tok2")]
                          ++ [page_with "b" None]) <= 5)%nat).
  { simpl. lia. }
  assert (Hdel : forall k p,
            ([page_with "a" (Some "tok2")] ++ [page_with "b" None]) !! k
              = Some p ->
            delivered two_page_world (calls io0 + k) = Some p).
  { intros [|[|k]] p Hp; simpl in Hp.
    - injection Hp as <-. reflexivity.
    - injection Hp as <-. reflexivity.
    - destruct k; discriminate Hp. }
  split; [reflexivity|]. split; [exact Hlen|].
  split; [exact Hnext|]. split; [exact Hfinal|].
  destruct (C5_paginated_search two_page_world "https://api.x.com/2/q"
              "secret" 5 [page_with "a" (Some "tok2")] (page_with "b" None)
              io0 eq_refl Hlen Hdel Hnext Hfinal) as [Hrun _].
  exact Hrun.
Defined.

(** When every page of the budget carries a token the loop stops at the
    budget, again without a pause after the last request. *)
Lemma search_pages_budget (w : World) (prefix bearer : string)
    (ps : list RawResponse) :
  forall (nextToken : option string) (allTweets : list Tweet) (io : IO),
    token w = Some bearer ->
    (forall k p, ps !! k = Some p -> delivered w (calls io + k) = Some p) ->
    Forall has_next ps ->
    search_pages w prefix (length ps) nextToken allTweets io =
      (Returns (allTweets ++ concat (parseTweets <$> ps)),
       {| calls := calls io + length ps;
          trace := trace io ++ paced_fetches prefix bearer nextToken ps |}).
Proof.
  induction ps as [|p ps IH]; intros nextToken allTweets io Htok Hdel Hnext.
  - cbn. rewrite !app_nil_r, Nat.add_0_r. destruct io; reflexivity.
  - cbn [length search_pages].
    rewrite (apiGet_delivered w _ bearer io p Htok).
    2:{ rewrite <- (Nat.add_0_r (calls io)). apply Hdel. reflexivity. }
    apply Forall_cons in Hnext. destruct Hnext as [[tk Htk] Hnext].
    rewrite Htk.
    rewrite (IH (meta p ≫= next_token) _ _ Htok); try assumption.
    + cbn [fmap list_fmap concat paced_fetches].
      destruct ps as [|q qs].
      * destruct (decide (length (@nil RawResponse) <> 0%nat)) as [H|_];
          [contradiction|].
        cbn. rewrite !app_nil_r, Nat.add_0_r, Nat.add_1_r. reflexivity.
      * destruct (decide (length (q :: qs) <> 0%nat)) as [_|H];
          [|exfalso; apply H; discriminate].
        cbn [sleep calls trace]. rewrite <- !app_assoc. cbn [app length].
        f_equal. f_equal. lia.
    + intros k q Hq.
      assert (Hc : forall io1,
                calls (if decide (length ps <> 0%nat)
                       then sleep RATE_DELAY_MS io1 else io1) = calls io1).
      { intros io1. destruct (decide (length ps <> 0%nat)); reflexivity. }
      rewrite Hc. cbn [calls].
      replace (S (calls io) + k)%nat with (calls io + S k)%nat by lia.
      apply Hdel. exact Hq.
Qed.

(** ** [parseSince] *)

(** C10 at a failing input: a shorthand of 200000000 days puts the start
    time before the earliest date, [new Date] gives an invalid date, and
    [toISOString] throws a RangeError that the shorthand branch does not
    catch (the date-string branch below it does); [search] called with
    this [since] throws as well, before any request. *)
Theorem C10_parseSince_throws (B : Builtins) (w : World) (query : string)
    (io : IO) :
  match_shorthand "200000000d" = Some ("200000000", "d"%char) /\
  parseSince B a_clock "200000000d" = Throws RangeError /\
  search B w a_clock query
    {| maxResults := None; pages := None; sortOrder := None;
       since := Some "200000000d" |} io
    = (Throws RangeError, io).
Proof. repeat split; reflexivity. Qed.

(** What does hold of [parseSince]. Outside the shorthand it never
    throws: *)
Lemma parseSince_not_shorthand (B : Builtins) (now : Z) (since : string) :
  match_shorthand since = None ->
  parseSince B now since =
    Returns (if includes "T" since || includes "-" since
             then Date_iso B <$> Date_parse B since
             else None).
Proof.
  intros H. unfold parseSince. rewrite H.
  destruct (includes "T" since || includes "-" since); [|reflexivity].
  destruct (Date_parse B since); reflexivity.
Qed.

(** The first group of a shorthand match is a string of digits, which
    [parseInt] reads as a number that is not negative. *)
Lemma digit_is_plain (c : ascii) :
  is_Some (digit_value 10 c) ->
  is_ws c = false /\
  (c = "0" \/ c = "1" \/ c = "2" \/ c = "3" \/ c = "4" \/
   c = "5" \/ c = "6" \/ c = "7" \/ c = "8" \/ c = "9")%char.
Proof.
  destruct c as [[] [] [] [] [] [] [] []]; intros [d Hd];
    try discriminate Hd; split; try reflexivity; tauto.
Qed.

Lemma read_digits_all (r : string) :
  all_digits r ->
  forall a, 0 <= a ->
    exists n, read_digits 10 r (Some a) = Some n /\ 0 <= n.
Proof.
  induction r as [|c r IH]; intros Hall a Ha; simpl.
  - exists a. split; [reflexivity | assumption].
  - destruct Hall as [[d Hd] Hall]. rewrite Hd. simpl.
    apply IH; [assumption|].
    assert (0 <= d).
    { unfold digit_value in Hd.
      destruct ((48 <=? code c) && (code c <=? 57)) eqn:E; simpl in Hd;
        [|discriminate Hd].
      injection Hd as <-. apply andb_true_iff in E. lia. }
    lia.
Qed.

Lemma parseInt_digits (ds : string) :
  all_digits ds -> ds <> EmptyString ->
  exists n, parseInt ds = Some n /\ 0 <= n.
Proof.
  destruct ds as [|c r]; [contradiction|]. intros [Hc Hall] _.
  assert (Hread : exists n,
            read_digits 10 (String c r) None = Some n /\ 0 <= n).
  { cbn [read_digits]. destruct Hc as [d Hd]. rewrite Hd. cbn [default].
    apply read_digits_all; [assumption|].
    unfold digit_value in Hd.
    destruct ((48 <=? code c) && (code c <=? 57)) eqn:E; simpl in Hd;
      [|discriminate Hd].
    injection Hd as <-. apply andb_true_iff in E. lia. }
  destruct Hread as (n & Hn & Hpos).
  exists n. split; [|assumption].
  assert (Hone : option_map (Z.mul 1) (read_digits 10 (String c r) None)
                 = Some n) by (rewrite Hn; cbn; f_equal; lia).
  destruct (digit_is_plain c Hc) as [_ Hcases].
  destruct Hcases as [->|Hcases].
  - destruct r as [|c2 r2]; [exact Hone|].
    destruct Hall as [Hc2 _]. destruct (digit_is_plain c2 Hc2) as [_ H2].
    repeat (destruct H2 as [->|H2]; [exact Hone|]).
    subst c2. exact Hone.
  - repeat (destruct Hcases as [->|Hcases]; [exact Hone|]).
    subst c. exact Hone.
Qed.

Lemma span_digits_all (s : string) :
  all_digits (fst (span_digits s)).
Proof.
  induction s as [|c r IH]; simpl; [exact I|].
  destruct (digit_value 10 c) as [d|] eqn:Hd; [|exact I].
  destruct (span_digits r) as [ds rest]. simpl in *.
  split; [by eexists | exact IH].
Qed.

Lemma match_shorthand_digits (since digits : string) (unit : ascii) :
  match_shorthand since = Some (digits, unit) ->
  exists num, parseInt digits = Some num /\ 0 <= num.
Proof.
  unfold match_shorthand. intros H.
  pose proof (span_digits_all since) as Hall.
  destruct (span_digits since) as [ds rest]. simpl in Hall.
  destruct ds as [|c ds]; [discriminate H|].
  destruct rest as [|u [|? ?]]; try discriminate H.
  destruct (decide (u = "m"%char \/ u = "h"%char \/ u = "d"%char));
    [|discriminate H].
  injection H as <- <-.
  apply parseInt_digits; [exact Hall | discriminate].
Qed.

(** and on a shorthand it returns the timestamp of the start time when
    that is a valid time value, and throws otherwise. *)
Lemma parseSince_shorthand (B : Builtins) (now : Z) (since digits : string)
    (unit : ascii) (num : Z) :
  match_shorthand since = Some (digits, unit) ->
  parseInt digits = Some num ->
  let ms := if decide (unit = "m"%char) then num * 60000
            else if decide (unit = "h"%char) then num * 3600000
            else num * 86400000 in
  parseSince B now since =
    if (- MAX_TIME <=? now - ms) && (now - ms <=? MAX_TIME)
    then Returns (Some (Date_iso B (now - ms)))
    else Throws RangeError.
Proof.
  intros Hm Hn ms. unfold parseSince. rewrite Hm, Hn. subst ms.
  destruct (decide (unit = "m"%char)); [|destruct (decide (unit = "h"%char))];
    cbn [option_map new_Date];
    match goal with
    | |- context [(?a <=? ?b) && (?c <=? ?d)] =>
        destruct ((a <=? b) && (c <=? d)); reflexivity
    end.
Qed.

(** So a shorthand of at most 100000000 days, read at a clock past the
    epoch, gets its timestamp. *)
Lemma parseSince_shorthand_returns (B : Builtins) (now : Z)
    (since digits : string) (unit : ascii) :
  match_shorthand since = Some (digits, unit) ->
  0 <= now <= MAX_TIME ->
  (forall num, parseInt digits = Some num -> num <= 100000000) ->
  exists t, parseSince B now since = Returns (Some (Date_iso B t)).
Proof.
  intros Hm Hnow Hsmall.
  destruct (match_shorthand_digits since digits unit Hm) as (num & Hn & Hpos).
  specialize (Hsmall num Hn).
  rewrite (parseSince_shorthand B now since digits unit num Hm Hn).
  cbv zeta.
  set (ms := if decide (unit = "m"%char) then num * 60000
             else if decide (unit = "h"%char) then num * 3600000
             else num * 86400000).
  assert (Hms : 0 <= ms <= MAX_TIME).
  { unfold ms, MAX_TIME.
    destruct (decide (unit = "m"%char));
      [|destruct (decide (unit = "h"%char))]; lia. }
  assert (E1 : (- MAX_TIME <=? now - ms) = true) by (apply Z.leb_le; lia).
  assert (E2 : (now - ms <=? MAX_TIME) = true) by (apply Z.leb_le; lia).
  rewrite E1, E2. eexists. reflexivity.
Qed.

End ApiProps.

(** * Further properties of the budget ledger *)

Module LedgerMore.
Import Usage.
Import LedgerProps.


Lemma unit_cost_le (m n : Z) :
  m <= n -> (inject_Z m * UNIT_PRICE <= inject_Z n * UNIT_PRICE)%Q.
Proof.
  intros H. unfold UNIT_PRICE.
  rewrite Zle_Qle in H. lra.
Qed.

(** What is loaded depends on the clock only through the day, and on the
    load time of the module only when the defaults are used. *)
Lemma loaded_same_day (e1 e2 : Env) (f : BudgetFile) :
  boot e1 = boot e2 ->
  utc_day (now e1) = utc_day (now e2) ->
  loaded e1 f = loaded e2 f.
Proof.
  intros Hb Hd. unfold loaded, loadBudget, bind, readBudgetFile, ret.
  destruct f as [| |raw]; simpl; rewrite ?Hb, ?Hd; reflexivity.
Qed.


(** The outcome of the admission check, case by case. *)
Lemma checkBudget_cases (e : Env) (est : Z) (f : BudgetFile) :
  let b := loaded e f in
  let lt := localTracking b in
  let cost := (inject_Z est * UNIT_PRICE)%Q in
  (exists s c l, fst (checkBudget e est f) = Some (DailyBlock s c l) /\
     (0 < dailyLimitUsd b /\ dailyLimitUsd b < todayCost lt + cost)%Q) \/
  (exists s c l, fst (checkBudget e est f) = Some (MonthlyBlock s c l) /\
     (~ (0 < dailyLimitUsd b /\ dailyLimitUsd b < todayCost lt + cost) /\
      0 < monthlyLimitUsd b /\
      monthlyLimitUsd b < rollingCost lt + cost)%Q) \/
  (fst (checkBudget e est f) = None /\
     (~ (0 < dailyLimitUsd b /\ dailyLimitUsd b < todayCost lt + cost) /\
      ~ (0 < monthlyLimitUsd b /\
         monthlyLimitUsd b < rollingCost lt + cost))%Q).
Proof.
  cbv zeta. unfold checkBudget, bind. rewrite loadBudget_eq.
  set (b := loaded e f).
  set (cost := (inject_Z est * UNIT_PRICE)%Q).
  destruct (Qlt_bool 0 (dailyLimitUsd b)) eqn:Hd;
    [apply Qlt_bool_iff in Hd | apply Qlt_bool_false_iff in Hd];
  (destruct (Qlt_bool (dailyLimitUsd b)
               (todayCost (localTracking b) + cost)) eqn:Ht;
    [apply Qlt_bool_iff in Ht | apply Qlt_bool_false_iff in Ht]);
  (destruct (Qlt_bool 0 (monthlyLimitUsd b)) eqn:Hm;
    [apply Qlt_bool_iff in Hm | apply Qlt_bool_false_iff in Hm]);
  (destruct (Qlt_bool (monthlyLimitUsd b)
               (rollingCost (localTracking b) + cost)) eqn:Hr;
    [apply Qlt_bool_iff in Hr | apply Qlt_bool_false_iff in Hr]);
  simpl;
  first
    [ left; do 3 eexists; split; [reflexivity | split; assumption]
    | right; left; do 3 eexists; split; [reflexivity|];
      split; [intros [? ?]; lra | split; assumption]
    | right; right; split; [reflexivity|];
      split; intros [? ?]; lra ].
Qed.

Lemma loaded_monthly (e : Env) (b : BudgetConfig) :
  dailyLimitUsd (loaded e (FileHolds b)) = dailyLimitUsd b /\
  monthlyLimitUsd (loaded e (FileHolds b)) = monthlyLimitUsd b /\
  rollingCost (localTracking (loaded e (FileHolds b)))
    = rollingCost (localTracking b) /\
  rollingPostReads (localTracking (loaded e (FileHolds b)))
    = rollingPostReads (localTracking b).
Proof.
  unfold loaded, loadBudget, bind, readBudgetFile, ret. simpl.
  destruct (decide (today (localTracking b) <> utc_day (now e)));
    simpl; auto.
Qed.

(** The costs after a record, from what was loaded: the second day test
    of [recordUsage] changes nothing after the one of [loadBudget]. *)
Lemma recorded_costs (e : Env) (n : Z) (f : BudgetFile) :
  let b := loaded e f in
  let b' := addUsage (utc_day (now e)) n b in
  todayCost (localTracking b')
    = (todayCost (localTracking b) + inject_Z n * UNIT_PRICE)%Q /\
  rollingCost (localTracking b')
    = (rollingCost (localTracking b) + inject_Z n * UNIT_PRICE)%Q /\
  rollingPostReads (localTracking b')
    = rollingPostReads (localTracking b) + n /\
  dailyLimitUsd b' = dailyLimitUsd b /\
  monthlyLimitUsd b' = monthlyLimitUsd b.
Proof.
  cbv zeta. unfold addUsage, loaded, loadBudget, bind, readBudgetFile, ret.
  destruct f as [| |raw]; simpl.
  - destruct (decide (utc_day (boot e) <> utc_day (now e))); simpl; auto.
  - destruct (decide (utc_day (boot e) <> utc_day (now e))); simpl; auto.
  - destruct (decide (today (localTracking raw) <> utc_day (now e)))
      as [H|H]; simpl.
    + destruct (decide (utc_day (now e) <> utc_day (now e)));
        [contradiction|]. simpl; auto.
    + destruct (decide (today (localTracking raw) <> utc_day (now e)));
        [contradiction|]. simpl; auto.
Qed.



(** X2. A request that the admission check lets through and that then
    reads no more units than estimated leaves today's cost within the
    daily cap and the rolling cost within the monthly cap (check and
    record in one process on one day). *)
Theorem X2_admitted_stays_within_caps (e1 e2 : Env) (est u : Z)
    (f : BudgetFile) :
  fst (checkBudget e1 est f) = None ->
  boot e2 = boot e1 ->
  utc_day (now e2) = utc_day (now e1) ->
  0 <= u <= est ->
  exists b',
    snd (recordUsage e2 u f) = FileHolds b' /\
    (0 < dailyLimitUsd b' ->
     todayCost (localTracking b') <= dailyLimitUsd b')%Q /\
    (0 < monthlyLimitUsd b' ->
     rollingCost (localTracking b') <= monthlyLimitUsd b')%Q.
Proof.
  intros Hok Hboot Hday [Hu0 Hu].
  rewrite recordUsage_eq. eexists. split; [reflexivity|].
  destruct (recorded_costs e2 u f) as (Et & Er & _ & Ed & Em).
  rewrite Et, Er, Ed, Em.
  rewrite (loaded_same_day e2 e1 f Hboot Hday).
  pose proof (unit_cost_le u est Hu) as Hcost.
  destruct (checkBudget_cases e1 est f)
    as [(s & c & l & H & _)|[(s & c & l & H & _)|(_ & Hnd & Hnm)]];
    try (rewrite H in Hok; discriminate Hok).
  split; intros H0.
  - destruct (Qlt_le_dec (dailyLimitUsd (loaded e1 f))
                (todayCost (localTracking (loaded e1 f))
                 + inject_Z est * UNIT_PRICE)) as [Hlt|Hle];
      [exfalso; apply Hnd; split; assumption | lra].
  - destruct (Qlt_le_dec (monthlyLimitUsd (loaded e1 f))
                (rollingCost (localTracking (loaded e1 f))
                 + inject_Z est * UNIT_PRICE)) as [Hlt|Hle];
      [exfalso; apply Hnm; split; assumption | lra].
Qed.

Lemma X2_admitted_stays_within_caps_witness :
  let e := {| boot := 0; now := 0 |} in
  let f := FileHolds
             {| dailyLimitUsd := 1.00; monthlyLimitUsd := 0;
                warnThreshold := 0.8;
                localTracking :=
                  {| today := 0; todayPostReads := 100; todayCost := 0.5;
                     rollingPostReads := 100; rollingCost := 0.5;
                     lastReset := 0 |} |} in
  fst (checkBudget e 100 f) = None /\
  exists b',
    snd (recordUsage e 73 f) = FileHolds b' /\
    (0 < dailyLimitUsd b' ->
     todayCost (localTracking b') <= dailyLimitUsd b')%Q /\
    (0 < monthlyLimitUsd b' ->
     rollingCost (localTracking b') <= monthlyLimitUsd b')%Q.
Proof.
  split; [reflexivity|].
  apply (X2_admitted_stays_within_caps
           {| boot := 0; now := 0 |} {| boot := 0; now := 0 |} 100 73);
    [reflexivity | reflexivity | reflexivity | lia].
Defined.

Lemma budgetSetDaily_accepted (e : Env) (x : Q) (f : BudgetFile) :
  Qlt_bool x 0 = false ->
  budgetSetDaily e (Some x) f =
    (true, FileHolds
             {| dailyLimitUsd := x;
                monthlyLimitUsd := monthlyLimitUsd (loaded e f);
                warnThreshold := warnThreshold (loaded e f);
                localTracking := localTracking (loaded e f) |}).
Proof.
  intros H. unfold budgetSetDaily, bind. rewrite loadBudget_eq, H.
  reflexivity.
Qed.

Lemma budgetSetMonthly_accepted (e : Env) (x : Q) (f : BudgetFile) :
  Qlt_bool x 0 = false ->
  budgetSetMonthly e (Some x) f =
    (true, FileHolds
             {| dailyLimitUsd := dailyLimitUsd (loaded e f);
                monthlyLimitUsd := x;
                warnThreshold := warnThreshold (loaded e f);
                localTracking := localTracking (loaded e f) |}).
Proof.
  intros H. unfold budgetSetMonthly, bind. rewrite loadBudget_eq, H.
  reflexivity.
Qed.

(** X4. As the blocking message advises, setting a limit to 0 removes
    it: after [set-daily 0] no request is blocked by the daily cap, and
    after [set-monthly 0] none by the monthly cap, on any later day and
    for any estimate. *)
Theorem X4_zero_limit_unblocks (e e' : Env) (est : Z) (f : BudgetFile) :
  (forall s c l,
     fst (checkBudget e' est (snd (budgetSetDaily e (Some 0%Q) f)))
       <> Some (DailyBlock s c l)) /\
  (forall s c l,
     fst (checkBudget e' est (snd (budgetSetMonthly e (Some 0%Q) f)))
       <> Some (MonthlyBlock s c l)).
Proof.
  rewrite budgetSetDaily_accepted, budgetSetMonthly_accepted
    by reflexivity.
  cbn [snd]. split; intros s c l Hblock.
  - match type of Hblock with
    | context [checkBudget e' est (FileHolds ?b)] =>
        destruct (checkBudget_cases e' est (FileHolds b))
          as [(s' & c' & l' & _ & H0 & _)
             |[(s' & c' & l' & H & _)|(H & _)]];
          try (rewrite H in Hblock; discriminate Hblock);
        destruct (loaded_monthly e' b) as (Ed & _); rewrite Ed in H0
    end.
    simpl in H0. lra.
  - match type of Hblock with
    | context [checkBudget e' est (FileHolds ?b)] =>
        destruct (checkBudget_cases e' est (FileHolds b))
          as [(s' & c' & l' & H & _)
             |[(s' & c' & l' & _ & _ & H0 & _)|(H & _)]];
          try (rewrite H in Hblock; discriminate Hblock);
        destruct (loaded_monthly e' b) as (_ & Em & _); rewrite Em in H0
    end.
    simpl in H0. lra.
Qed.

End LedgerMore.

(** * Properties of the budget ledger on the engine's numbers *)

Module Ledger64Props.
Import Binary64.
Import Usage64.

(** ** The numbers on sample inputs *)

(** The literal 0.005 is the binary64 value 0x3F747AE147AE147B; 0.1 + 0.2
    is above 0.3, and 0.1 * 0.8 above 0.08; integers are exact; [floor],
    [max] and the comparisons treat [NaN] and the zeros as the engine
    does. *)
Example binary64_samples :
  decimal 5 3 = S754_finite false 5764607523034235 (-60) /\
  gt (add (decimal 1 1) (decimal 2 1)) (decimal 3 1) /\
  gt (mul (decimal 1 1) (decimal 8 1)) (decimal 8 2) /\
  add (of_Z 9007199254740991) (of_Z 1) = of_Z 9007199254740992 /\
  of_Z 9007199254740993 = of_Z 9007199254740992 /\
  Math_floor (decimal 25 1) = of_Z 2 /\
  Math_floor (decimal (-25) 1) = of_Z (-3) /\
  Math_floor (decimal 5 1) = zero /\
  Math_max NaN (of_Z 1) = NaN /\
  Math_max (S754_zero true) zero = zero /\
  ltb NaN (of_Z 1) = false /\ leb (of_Z 1) NaN = false /\
  eqb (S754_zero true) zero = true.
Proof. repeat split; vm_compute; reflexivity. Qed.

Lemma loadBudget64_keeps_file (e : Usage.Env) (f : BudgetFile) :
  snd (loadBudget e f) = f.
Proof.
  unfold loadBudget, bind, readBudgetFile, ret.
  destruct f as [| |b]; try reflexivity.
  destruct (decide (today (localTracking b) <> _)); reflexivity.
Qed.

Lemma recordUsage64_eq (e : Usage.Env) (n : Z) (f : BudgetFile) :
  recordUsage e n f =
    (checkLimits (addUsage (Usage.utc_day (Usage.now e)) n (loaded e f)),
     FileHolds
       (json_budget (addUsage (Usage.utc_day (Usage.now e)) n (loaded e f)))).
Proof.
  unfold recordUsage, loaded, bind.
  pose proof (loadBudget64_keeps_file e f) as H.
  destruct (loadBudget e f) as [b f']. reflexivity.
Qed.

Lemma checkBudget64_keeps_file (e : Usage.Env) (est : number)
    (f : BudgetFile) :
  snd (checkBudget e est f) = f.
Proof.
  unfold checkBudget, bind.
  pose proof (loadBudget64_keeps_file e f) as H.
  destruct (loadBudget e f) as [b f']. cbn [snd] in H. subst f'.
  destruct (_ && _).
  - destruct (todayCost (localTracking b)); reflexivity.
  - destruct (_ && _); [|reflexivity].
    destruct (rollingCost (localTracking b)); reflexivity.
Qed.

(** ** The warning of [recordUsage] *)

Lemma checkLimits64_spec (b : BudgetConfig) :
  let daily := to_number (dailyLimitUsd b) in
  let monthly := to_number (monthlyLimitUsd b) in
  let thr := to_number (warnThreshold b) in
  let tc := to_number (todayCost (localTracking b)) in
  let rc := to_number (rollingCost (localTracking b)) in
  (class_of (checkLimits b) = Some (Exceeded, Daily) <->
     gt daily zero /\ ge tc daily) /\
  (class_of (checkLimits b) = Some (Approaching, Daily) <->
     gt daily zero /\ ~ ge tc daily /\ ge tc (mul daily thr)) /\
  (class_of (checkLimits b) = Some (Exceeded, Monthly) <->
     ~ (gt daily zero /\ (ge tc daily \/ ge tc (mul daily thr))) /\
     gt monthly zero /\ ge rc monthly) /\
  (checkLimits b = None <->
     ~ (gt daily zero /\ (ge tc daily \/ ge tc (mul daily thr))) /\
     ~ (gt monthly zero /\ ge rc monthly)) /\
  class_of (checkLimits b) <> Some (Approaching, Monthly).
Proof.
  intros daily monthly thr tc rc. unfold checkLimits, gt, ge.
  fold daily monthly thr tc rc.
  destruct (ltb zero daily) eqn:E1, (leb daily tc) eqn:E2,
    (leb (mul daily thr) tc) eqn:E3, (ltb zero monthly) eqn:E4,
    (leb monthly rc) eqn:E5; cbn;
    repeat split; try discriminate; try congruence; try tauto;
    intros; intuition congruence.
Qed.

(** C1, as amended. [recordUsage] saves the updated budget [b'] and its
    warning is decided on [b'] by three tests in this order, each
    evaluated on the engine's numbers: daily exceeded (daily cap positive
    and today's cost at or above it), daily approaching (daily cap
    positive and today's cost at or above cap * warnThreshold), monthly
    exceeded (monthly cap positive and the rolling cost at or above it);
    otherwise there is no warning. There is no approaching warning for
    the monthly cap. In particular record(160) on a day without earlier
    cost, with dailyLimitUsd = 1.00 and warnThreshold = 0.8, gives the
    daily approaching warning. *)
Theorem C1_record_warning (e : Usage.Env) (postReads : Z) (f : BudgetFile) :
  (exists b',
     b' = addUsage (Usage.utc_day (Usage.now e)) postReads (loaded e f) /\
     snd (recordUsage e postReads f) = FileHolds (json_budget b') /\
     let w := fst (recordUsage e postReads f) in
     let daily := to_number (dailyLimitUsd b') in
     let monthly := to_number (monthlyLimitUsd b') in
     let thr := to_number (warnThreshold b') in
     let tc := to_number (todayCost (localTracking b')) in
     let rc := to_number (rollingCost (localTracking b')) in
     (class_of w = Some (Exceeded, Daily) <->
        gt daily zero /\ ge tc daily) /\
     (class_of w = Some (Approaching, Daily) <->
        gt daily zero /\ ~ ge tc daily /\ ge tc (mul daily thr)) /\
     (class_of w = Some (Exceeded, Monthly) <->
        ~ (gt daily zero /\ (ge tc daily \/ ge tc (mul daily thr))) /\
        gt monthly zero /\ ge rc monthly) /\
     (w = None <->
        ~ (gt daily zero /\ (ge tc daily \/ ge tc (mul daily thr))) /\
        ~ (gt monthly zero /\ ge rc monthly)) /\
     class_of w <> Some (Approaching, Monthly)) /\
  (forall monthly day reads rollingReads rolling reset,
     fst (recordUsage e 160
            (FileHolds
               {| dailyLimitUsd := Num (of_Z 1); monthlyLimitUsd := monthly;
                  warnThreshold := Num (decimal 8 1);
                  localTracking :=
                    {| today := day; todayPostReads := reads;
                       todayCost := Num zero;
                       rollingPostReads := rollingReads;
                       rollingCost := rolling; lastReset := reset |} |}))
     = Some (DailyWarning (decimal 8 1) (of_Z 1))).
Proof.
  split.
  - eexists. split; [reflexivity|]. rewrite recordUsage64_eq. cbn [fst snd].
    split; [reflexivity|]. apply checkLimits64_spec.
  - intros monthly day reads rollingReads rolling reset.
    rewrite recordUsage64_eq. cbn [fst].
    unfold loaded, loadBudget, bind, readBudgetFile, ret, addUsage.
    cbn [fst localTracking today].
    destruct (decide (day <> Usage.utc_day (Usage.now e))) as [Hd|Hd].
    + cbn [localTracking today]. rewrite decide_False by (intros H; apply H; reflexivity).
      vm_compute. reflexivity.
    + rewrite decide_False by exact Hd. vm_compute. reflexivity.
Qed.

(** C1, as stated, fails: with no daily cap, a monthly cap of 1.00 and
    warnThreshold 0.8, record(160) brings the rolling cost to 0.8, which
    meets cap * warnThreshold for a nonzero cap without exceeding it, and
    [recordUsage] returns no warning. *)
Lemma C1_monthly_approaching_is_silent :
  let e := {| Usage.boot := 0; Usage.now := 0 |} in
  let f := FileHolds
             {| dailyLimitUsd := Num zero; monthlyLimitUsd := Num (of_Z 1);
                warnThreshold := Num (decimal 8 1);
                localTracking :=
                  {| today := 0; todayPostReads := 0; todayCost := Num zero;
                     rollingPostReads := 0; rollingCost := Num zero;
                     lastReset := 0 |} |} in
  exists b',
    snd (recordUsage e 160 f) = FileHolds b' /\
    gt (to_number (monthlyLimitUsd b')) zero /\
    ge (to_number (rollingCost (localTracking b')))
       (mul (to_number (monthlyLimitUsd b'))
            (to_number (warnThreshold b'))) /\
    ~ ge (to_number (rollingCost (localTracking b')))
         (to_number (monthlyLimitUsd b')) /\
    fst (recordUsage e 160 f) = None.
Proof.
  eexists. split; [reflexivity|].
  repeat split; try (vm_compute; reflexivity).
  vm_compute. discriminate.
Qed.

(** Where rounding decides: with a daily cap of 0.1 and warnThreshold
    0.8, record(16) gives no warning, because 0.1 * 0.8 is rounded to
    0.08000000000000002, above the cost 0.08; and with a daily cap of
    0.05, record(1) then record(9) ends on the approaching warning,
    because 0.005 + 0.045 is rounded to 0.049999999999999996. *)
Example recordUsage_rounds :
  let e := {| Usage.boot := 0; Usage.now := 0 |} in
  fst (recordUsage e 16
         (run FileAbsent [(e, OpSetDaily (decimal 1 1))])) = None /\
  class_of
    (fst (recordUsage e 9
            (run FileAbsent [(e, OpSetDaily (decimal 5 2));
                             (e, OpRecord 1)])))
    = Some (Approaching, Daily).
Proof. split; vm_compute; reflexivity. Qed.

(** ** The admission check *)


(** The example of the specification, run from an empty ledger:
    set-daily 1.00, record(150), then the two admission checks; and two
    checks that rounding decides: after set-daily 0.3 and record(20), an
    estimate of 40 reads is blocked, because 0.1 + 0.2 is rounded to
    0.30000000000000004; after set-daily 0.57 and record(14), the 100
    reads of a one-page search are blocked, because 0.07 + 0.5 is rounded
    to 0.5700000000000001. *)
Example admit_on_numbers :
  let e := {| Usage.boot := 0; Usage.now := 0 |} in
  let f := run FileAbsent [(e, OpSetDaily (of_Z 1)); (e, OpRecord 150)] in
  let g := run FileAbsent [(e, OpSetDaily (decimal 3 1)); (e, OpRecord 20)] in
  let h := run FileAbsent [(e, OpSetDaily (decimal 57 2)); (e, OpRecord 14)] in
  todayCost (localTracking (loaded e f)) = Num (decimal 75 2) /\
  fst (checkBudget e (of_Z 60) f)
    = inr (Some (DailyBlock (decimal 75 2) (decimal 3 1) (of_Z 1))) /\
  fst (checkBudget e (of_Z 40) f) = inr None /\
  fst (checkBudget e (of_Z 40) g)
    = inr (Some (DailyBlock (decimal 1 1) (decimal 2 1) (decimal 3 1))) /\
  fst (checkBudget e (of_Z 100) h)
    = inr (Some (DailyBlock (decimal 7 2) (decimal 5 1) (decimal 57 2))).
Proof. repeat split; vm_compute; reflexivity. Qed.

(** ** The accounting invariant *)

(** C4 at a failing input: from an empty ledger, recordUsage(1) and then
    recordUsage(9), on one day. The file holds 10 reads and, as today's
    and as the rolling cost, 0.005 + 0.045 as the engine rounds it,
    0.049999999999999996: not 10 * 0.005, neither as the engine computes
    that product (0.05) nor as a rational. With a daily cap of 0.05 the
    second call warns "approaching", although the cost of the 10 reads,
    10 * 0.005, meets the cap. *)
Theorem C4_costs_drift_from_reads :
  let e := {| Usage.boot := 0; Usage.now := 0 |} in
  let f := run FileAbsent [(e, OpRecord 1); (e, OpRecord 9)] in
  let capped := run FileAbsent [(e, OpSetDaily (decimal 5 2));
                                (e, OpRecord 1)] in
  (exists b cost,
     f = FileHolds b /\
     todayPostReads (localTracking b) = 10 /\
     rollingPostReads (localTracking b) = 10 /\
     todayCost (localTracking b) = Num cost /\
     rollingCost (localTracking b) = Num cost /\
     cost = S754_finite false 7205759403792793 (-57) /\
     mul (of_Z 10) UNIT_PRICE = S754_finite false 7205759403792794 (-57) /\
     eqb cost (mul (of_Z 10) UNIT_PRICE) = false /\
     ~ (value cost == inject_Z 10 * 0.005)%Q) /\
  ge (mul (of_Z 10) UNIT_PRICE) (decimal 5 2) /\
  class_of (fst (recordUsage e 9 capped)) = Some (Approaching, Daily).
Proof.
  split; [|split; vm_compute; reflexivity].
  eexists _, _. split; [vm_compute; reflexivity|].
  repeat split; try (vm_compute; reflexivity).
  vm_compute. discriminate.
Qed.

(** ** Day rollover *)

Lemma gt_add_zero (cap c : number) : ltb cap (add zero c) = ltb cap c.
Proof.
  destruct c as [s| | |s m x]; try reflexivity.
  destruct cap as [s'|[]| |[] m' x'], s; reflexivity.
Qed.

(** X3. On a new day the admission check counts today's cost as zero: a
    request whose own estimated cost is not above the daily cap, as the
    engine compares them, is not blocked by the daily cap, whatever the
    file says was spent on the day it is dated. *)
Theorem X3_new_day_forgets_today (e : Usage.Env) (est : number)
    (b : BudgetConfig) :
  today (localTracking b) <> Usage.utc_day (Usage.now e) ->
  ~ gt (mul est UNIT_PRICE) (to_number (dailyLimitUsd b)) ->
  forall s c l,
    fst (checkBudget e est (FileHolds b)) <> inr (Some (DailyBlock s c l)).
Proof.
  intros Hday Hfit s c l.
  unfold checkBudget, loadBudget, bind, readBudgetFile, ret.
  destruct (decide (today (localTracking b) <> Usage.utc_day (Usage.now e)))
    as [_|Hn]; [|contradiction].
  cbn [localTracking dailyLimitUsd monthlyLimitUsd todayCost rollingCost
       to_number].
  rewrite gt_add_zero.
  unfold gt in Hfit. apply not_true_is_false in Hfit. rewrite Hfit.
  rewrite andb_false_r.
  destruct (_ && _); [|discriminate].
  destruct (rollingCost (localTracking b)); discriminate.
Qed.

Lemma X3_new_day_forgets_today_witness :
  let e := {| Usage.boot := 86400000; Usage.now := 86400000 |} in
  let b := {| dailyLimitUsd := Num (of_Z 1); monthlyLimitUsd := Num zero;
              warnThreshold := Num (decimal 8 1);
              localTracking :=
                {| today := 0; todayPostReads := 190;
                   todayCost := Num (decimal 95 2);
                   rollingPostReads := 190;
                   rollingCost := Num (decimal 95 2); lastReset := 0 |} |} in
  today (localTracking b) <> Usage.utc_day (Usage.now e) /\
  ~ gt (mul (of_Z 100) UNIT_PRICE) (to_number (dailyLimitUsd b)) /\
  forall s c l,
    fst (checkBudget e (of_Z 100) (FileHolds b))
      <> inr (Some (DailyBlock s c l)).
Proof.
  intros e b.
  assert (H1 : today (localTracking b) <> Usage.utc_day (Usage.now e)).
  { vm_compute. discriminate. }
  assert (H2 : ~ gt (mul (of_Z 100) UNIT_PRICE) (to_number (dailyLimitUsd b))).
  { vm_compute. discriminate. }
  split; [exact H1|]. split; [exact H2|].
  exact (X3_new_day_forgets_today e (of_Z 100) b H1 H2).
Defined.

(** Where rounding decides: a file dated yesterday and a daily cap of
    0.175; an estimate of 35 reads is blocked, because 35 * 0.005 is
    rounded to 0.17500000000000002. *)
Example new_day_rounds :
  let e := {| Usage.boot := 86400000; Usage.now := 86400000 |} in
  let f := run FileAbsent
             [({| Usage.boot := 0; Usage.now := 0 |},
               OpSetDaily (decimal 175 3))] in
  gt (mul (of_Z 35) UNIT_PRICE) (decimal 175 3) /\
  fst (checkBudget e (of_Z 35) f)
    = inr (Some (DailyBlock zero (mul (of_Z 35) UNIT_PRICE) (decimal 175 3))).
Proof. split; vm_compute; reflexivity. Qed.

(** ** Runs of operations *)

Lemma json_idem (v : JsNum) : json (json v) = json v.
Proof. destruct v as [|[s|s| |s m x]]; reflexivity. Qed.

Lemma loaded64_limits (e : Usage.Env) (f : BudgetFile) :
  dailyLimitUsd (loaded e f) = daily_limit_of f /\
  monthlyLimitUsd (loaded e f) = monthly_limit_of f.
Proof.
  unfold loaded, loadBudget, bind, readBudgetFile, ret.
  destruct f as [| |b]; cbn; try (split; reflexivity).
  destruct (decide (today (localTracking b) <> _)); split; reflexivity.
Qed.

Lemma loaded64_rolling (e : Usage.Env) (f : BudgetFile) :
  rollingPostReads (localTracking (loaded e f)) = rolling_reads_of f.
Proof.
  unfold loaded, loadBudget, bind, readBudgetFile, ret.
  destruct f as [| |b]; cbn; try reflexivity.
  destruct (decide (today (localTracking b) <> _)); reflexivity.
Qed.

Lemma budgetReset64_eq (e : Usage.Env) (f : BudgetFile) :
  snd (budgetReset e f) =
    FileHolds
      (json_budget
         {| dailyLimitUsd := dailyLimitUsd (loaded e f);
            monthlyLimitUsd := monthlyLimitUsd (loaded e f);
            warnThreshold := warnThreshold (loaded e f);
            localTracking :=
              {| today := Usage.utc_day (Usage.now e);
                 todayPostReads := 0; todayCost := Num zero;
                 rollingPostReads := 0; rollingCost := Num zero;
                 lastReset := Usage.now e |} |}).
Proof.
  unfold budgetReset, loaded, bind.
  destruct (loadBudget e f) as [b f']. reflexivity.
Qed.

Lemma budgetSetDaily64_eq (e : Usage.Env) (x : number) (f : BudgetFile) :
  snd (budgetSetDaily e x f) =
    if rejected x then f
    else FileHolds
           (json_budget
              {| dailyLimitUsd := Num x;
                 monthlyLimitUsd := monthlyLimitUsd (loaded e f);
                 warnThreshold := warnThreshold (loaded e f);
                 localTracking := localTracking (loaded e f) |}).
Proof.
  unfold budgetSetDaily, loaded, bind.
  pose proof (loadBudget64_keeps_file e f) as H.
  destruct (loadBudget e f) as [b f']. cbn [fst snd] in *. subst f'.
  destruct (rejected x); reflexivity.
Qed.

Lemma budgetSetMonthly64_eq (e : Usage.Env) (x : number) (f : BudgetFile) :
  snd (budgetSetMonthly e x f) =
    if rejected x then f
    else FileHolds
           (json_budget
              {| dailyLimitUsd := dailyLimitUsd (loaded e f);
                 monthlyLimitUsd := Num x;
                 warnThreshold := warnThreshold (loaded e f);
                 localTracking := localTracking (loaded e f) |}).
Proof.
  unfold budgetSetMonthly, loaded, bind.
  pose proof (loadBudget64_keeps_file e f) as H.
  destruct (loadBudget e f) as [b f']. cbn [fst snd] in *. subst f'.
  destruct (rejected x); reflexivity.
Qed.

Lemma step64_daily_limit (f : BudgetFile) (c : Usage.Env * LedgerOp) :
  json (daily_limit_of (step f c)) =
    match snd c with
    | OpSetDaily x => default (json (daily_limit_of f)) (accepted x)
    | _ => json (daily_limit_of f)
    end.
Proof.
  destruct c as [e op].
  destruct (loaded64_limits e f) as [Hd _].
  destruct op as [n|n| | |x|x]; cbn [step snd].
  - rewrite recordUsage64_eq. cbn. rewrite Hd. apply json_idem.
  - rewrite checkBudget64_keeps_file. reflexivity.
  - rewrite loadBudget64_keeps_file. reflexivity.
  - rewrite budgetReset64_eq. cbn. rewrite Hd. apply json_idem.
  - rewrite budgetSetDaily64_eq. unfold accepted.
    destruct (rejected x); [reflexivity|]. cbn [default daily_limit_of].
    apply json_idem.
  - rewrite budgetSetMonthly64_eq.
    destruct (rejected x); [reflexivity|]. cbn. rewrite Hd. apply json_idem.
Qed.

Lemma step64_monthly_limit (f : BudgetFile) (c : Usage.Env * LedgerOp) :
  json (monthly_limit_of (step f c)) =
    match snd c with
    | OpSetMonthly x => default (json (monthly_limit_of f)) (accepted x)
    | _ => json (monthly_limit_of f)
    end.
Proof.
  destruct c as [e op].
  destruct (loaded64_limits e f) as [_ Hm].
  destruct op as [n|n| | |x|x]; cbn [step snd].
  - rewrite recordUsage64_eq. cbn. rewrite Hm. apply json_idem.
  - rewrite checkBudget64_keeps_file. reflexivity.
  - rewrite loadBudget64_keeps_file. reflexivity.
  - rewrite budgetReset64_eq. cbn. rewrite Hm. apply json_idem.
  - rewrite budgetSetDaily64_eq.
    destruct (rejected x); [reflexivity|]. cbn. rewrite Hm. apply json_idem.
  - rewrite budgetSetMonthly64_eq. unfold accepted.
    destruct (rejected x); [reflexivity|]. cbn [default monthly_limit_of].
    apply json_idem.
Qed.

Lemma step64_rolling_reads (f : BudgetFile) (c : Usage.Env * LedgerOp) :
  rolling_reads_of (step f c) =
    match snd c with
    | OpRecord n => rolling_reads_of f + n
    | OpReset => 0
    | _ => rolling_reads_of f
    end.
Proof.
  destruct c as [e op].
  pose proof (loaded64_rolling e f) as Hr.
  destruct op as [n|n| | |x|x]; cbn [step snd].
  - rewrite recordUsage64_eq. cbn.
    destruct (decide (today (localTracking (loaded e f)) <> _));
      cbn; rewrite Hr; reflexivity.
  - rewrite checkBudget64_keeps_file. reflexivity.
  - rewrite loadBudget64_keeps_file. reflexivity.
  - rewrite budgetReset64_eq. reflexivity.
  - rewrite budgetSetDaily64_eq.
    destruct (rejected x); [reflexivity|]. cbn. exact Hr.
  - rewrite budgetSetMonthly64_eq.
    destruct (rejected x); [reflexivity|]. cbn. exact Hr.
Qed.

(** X5. Over any run of ledger operations the limits change only by an
    accepted set command: the daily limit in the file at the end is what
    the last set-daily whose argument was neither [NaN] nor negative left
    there (the limit at the start if there is none), likewise the monthly
    limit; recording, checking, showing and resetting leave both alone,
    and so does a rejected argument. What a set command leaves is its
    argument as [JSON.stringify] writes it: [null] for [Infinity], which
    no test reads as a limit. ([json] changes nothing that a file can
    hold.) *)
Theorem X5_limits_follow_last_set (f : BudgetFile)
    (ops : list (Usage.Env * LedgerOp)) :
  json (daily_limit_of (run f ops))
    = last_daily (json (daily_limit_of f)) ops /\
  json (monthly_limit_of (run f ops))
    = last_monthly (json (monthly_limit_of f)) ops /\
  accepted (S754_infinity false) = Some Null /\
  ~ gt (to_number Null) zero.
Proof.
  split; [|split; [|split]].
  - revert f. induction ops as [|c ops IH]; intros f; [reflexivity|].
    cbn [run fold_left last_daily]. fold (run (step f c) ops).
    rewrite (IH (step f c)), step64_daily_limit. reflexivity.
  - revert f. induction ops as [|c ops IH]; intros f; [reflexivity|].
    cbn [run fold_left last_monthly]. fold (run (step f c) ops).
    rewrite (IH (step f c)), step64_monthly_limit. reflexivity.
  - reflexivity.
  - vm_compute. discriminate.
Qed.

(** X6. Over any run of ledger operations, on any days, the rolling read
    count is the units recorded since the last reset (on top of the count
    at the start when the run has no reset): only a reset ever lowers
    it. *)
Theorem X6_rolling_is_since_reset (f : BudgetFile)
    (ops : list (Usage.Env * LedgerOp)) :
  rolling_reads_of (run f ops)
    = units_since_reset (rolling_reads_of f) ops.
Proof.
  revert f. induction ops as [|c ops IH]; intros f; [reflexivity|].
  cbn [run fold_left units_since_reset]. fold (run (step f c) ops).
  rewrite (IH (step f c)), step64_rolling_reads.
  destruct (snd c); reflexivity.
Qed.

(** ** The rounding-free properties, on the engine's numbers *)

(** Reset on the numbers: counts and costs are zero, the date and the
    reset time are the clock's, and the limits and the threshold are those
    of the file (the defaults when there is none). *)
Lemma reset_on_numbers (e : Usage.Env) (f : BudgetFile) :
  exists b',
    snd (budgetReset e f) = FileHolds b' /\
    todayPostReads (localTracking b') = 0 /\
    todayCost (localTracking b') = Num zero /\
    rollingPostReads (localTracking b') = 0 /\
    rollingCost (localTracking b') = Num zero /\
    today (localTracking b') = Usage.utc_day (Usage.now e) /\
    lastReset (localTracking b') = Usage.now e /\
    dailyLimitUsd b' = json (daily_limit_of f) /\
    monthlyLimitUsd b' = json (monthly_limit_of f).
Proof.
  eexists. rewrite budgetReset64_eq. split; [reflexivity|].
  destruct (loaded64_limits e f) as [Hd Hm].
  cbn. rewrite Hd, Hm. repeat split; reflexivity.
Qed.

Lemma checkBudget64_no_daily (e : Usage.Env) (est : number)
    (b : BudgetConfig) :
  ltb zero (to_number (dailyLimitUsd b)) = false ->
  forall s c l,
    fst (checkBudget e est (FileHolds b)) <> inr (Some (DailyBlock s c l)).
Proof.
  intros H s c l.
  unfold checkBudget, loadBudget, bind, readBudgetFile, ret.
  destruct (decide (today (localTracking b) <> _));
    cbn [dailyLimitUsd monthlyLimitUsd localTracking fst]; rewrite H;
    cbn [andb]; (destruct (_ && _); [|discriminate]);
    match goal with
    | |- context [match ?c with Null => _ | Num _ => _ end] => destruct c
    end; discriminate.
Qed.

Lemma checkBudget64_no_monthly (e : Usage.Env) (est : number)
    (b : BudgetConfig) :
  ltb zero (to_number (monthlyLimitUsd b)) = false ->
  forall s c l,
    fst (checkBudget e est (FileHolds b)) <> inr (Some (MonthlyBlock s c l)).
Proof.
  intros H s c l.
  unfold checkBudget, loadBudget, bind, readBudgetFile, ret.
  destruct (decide (today (localTracking b) <> _));
    cbn [dailyLimitUsd monthlyLimitUsd localTracking fst]; rewrite H;
    cbn [andb]; (destruct (_ && _); [|discriminate]);
    match goal with
    | |- context [match ?c with Null => _ | Num _ => _ end] => destruct c
    end; discriminate.
Qed.

(** Setting a limit to 0 on the numbers: no request is blocked by that
    cap afterwards. *)
Lemma zero_limit_on_numbers (e e' : Usage.Env) (est : number)
    (f : BudgetFile) :
  (forall s c l,
     fst (checkBudget e' est (snd (budgetSetDaily e zero f)))
       <> inr (Some (DailyBlock s c l))) /\
  (forall s c l,
     fst (checkBudget e' est (snd (budgetSetMonthly e zero f)))
       <> inr (Some (MonthlyBlock s c l))).
Proof.
  rewrite budgetSetDaily64_eq, budgetSetMonthly64_eq.
  change (rejected zero) with false. cbn iota.
  split.
  - apply checkBudget64_no_daily. reflexivity.
  - apply checkBudget64_no_monthly. reflexivity.
Qed.

(** The rolling totals never expire, on the numbers: 100 units, and 1
    unit 31 days later, leave 101 rolling reads at the rolling cost
    0.505. *)
Example rolling_on_numbers :
  let day31 := 31 * Usage.MS_PER_DAY in
  exists b,
    run FileAbsent
      [({| Usage.boot := 0; Usage.now := 0 |}, OpRecord 100);
       ({| Usage.boot := day31; Usage.now := day31 |}, OpRecord 1)]
      = FileHolds b /\
    todayPostReads (localTracking b) = 1 /\
    todayCost (localTracking b) = Num (decimal 5 3) /\
    rollingPostReads (localTracking b) = 101 /\
    rollingCost (localTracking b) = Num (decimal 505 3).
Proof. eexists. split; [vm_compute; reflexivity|]. repeat split. Qed.

(** An exceeded warning and the block that follows, and an admitted
    request that stays within the cap, on the numbers. *)
Example exceeded_then_blocked_on_numbers :
  let e := {| Usage.boot := 0; Usage.now := 0 |} in
  let f := run FileAbsent [(e, OpSetDaily (of_Z 1))] in
  class_of (fst (recordUsage e 200 f)) = Some (Exceeded, Daily) /\
  fst (checkBudget e (of_Z 1) (snd (recordUsage e 200 f)))
    = inr (Some (DailyBlock (of_Z 1) (decimal 5 3) (of_Z 1))) /\
  fst (checkBudget e (of_Z 100) f) = inr None /\
  todayCost (localTracking (loaded e (snd (recordUsage e 73 f))))
    = Num (decimal 365 3).
Proof. repeat split; vm_compute; reflexivity. Qed.

End Ledger64Props.

(** * Further properties of the fetch client *)

Module SearchMore.
Import Api.
Import ApiMore.
Open Scope list_scope.

Lemma apiGet_answer (w : World) (url bearer : string) (io : IO) :
  token w = Some bearer ->
  apiGet w url io =
    (answer w (calls io),
     {| calls := S (calls io); trace := trace io ++ [EvFetch url bearer] |}).
Proof.
  intros H. unfold answer, apiGet. rewrite H. cbn [calls trace].
  destruct (decide (status (remote w (calls io)) = 429)); [reflexivity|].
  destruct (negb (ok (remote w (calls io)))); [reflexivity|].
  destruct (body_json (remote w (calls io))); reflexivity.
Qed.

Lemma apiGet_no_token (w : World) (url : string) (io : IO) :
  token w = None -> apiGet w url io = (Throws TokenNotFound, io).
Proof. intros H. unfold apiGet. rewrite H. reflexivity. Qed.

Lemma search_pages_no_token (w : World) (prefix : string) (N : nat)
    (nextToken : option string) (allTweets : list Tweet) (io : IO) :
  token w = None ->
  snd (search_pages w prefix N nextToken allTweets io) = io.
Proof.
  intros H. destruct N as [|rest]; [reflexivity|].
  cbn [search_pages]. rewrite apiGet_no_token by exact H. reflexivity.
Qed.

(** X7. Without a bearer token [search] never sends a request: whatever
    the options, nothing is fetched and nothing is slept. *)
Theorem X7_no_token_no_request (B : Builtins) (w : World) (now : Z)
    (query : string) (opts : SearchOpts) (io : IO) :
  token w = None ->
  snd (search B w now query opts io) = io.
Proof.
  intros H. unfold search.
  destruct (time_filter B now opts); [|reflexivity].
  apply search_pages_no_token, H.
Qed.

Lemma X7_no_token_no_request_witness :
  token {| token := None; remote := remote two_page_world;
           clock := clock two_page_world |} = None /\
  snd (search Report.plain_builtins
         {| token := None; remote := remote two_page_world;
            clock := clock two_page_world |}
         a_clock "rocq"
         {| maxResults := None; pages := Some 3; sortOrder := None;
            since := Some "1d" |} io0) = io0.
Proof.
  split; [reflexivity|].
  apply (X7_no_token_no_request Report.plain_builtins); reflexivity.
Defined.

Lemma paced_cons_pause (url bearer : string) (evs : list Event) :
  evs <> [] -> paced evs = true ->
  paced (EvFetch url bearer :: EvSleep RATE_DELAY_MS :: evs) = true.
Proof.
  intros Hne Hp. cbn [paced]. rewrite Z.eqb_refl. cbn [andb].
  destruct evs; [contradiction | exact Hp].
Qed.

(** The loop from any point and against any remote. *)
Lemma search_pages_paced (w : World) (prefix : string) (N : nat) :
  forall (nextToken : option string) (allTweets : list Tweet) (io : IO),
    exists evs,
      trace (snd (search_pages w prefix N nextToken allTweets io))
        = trace io ++ evs /\
      calls (snd (search_pages w prefix N nextToken allTweets io))
        = (calls io + length (filter is_fetch evs))%nat /\
      paced evs = true /\
      (length (filter is_fetch evs) <= N)%nat /\
      (N <> 0%nat -> is_Some (token w) -> evs <> []).
Proof.
  induction N as [|rest IH]; intros nextToken allTweets io.
  - exists []. cbn. rewrite app_nil_r, Nat.add_0_r.
    repeat split; try reflexivity; lia.
  - cbn [search_pages].
    destruct (token w) as [bearer|] eqn:Htok.
    2:{ rewrite apiGet_no_token by exact Htok. exists []. cbn.
        rewrite app_nil_r, Nat.add_0_r.
        repeat split; try reflexivity; try lia.
        all: intros _ [x Hx]; discriminate Hx. }
    rewrite (apiGet_answer w _ bearer io Htok).
    set (url := prefix +:+ _).
    assert (Hone : exists evs,
              trace io ++ [EvFetch url bearer] = trace io ++ evs /\
              S (calls io) = (calls io + length (filter is_fetch evs))%nat /\
              paced evs = true /\
              (length (filter is_fetch evs) <= S rest)%nat /\
              (S rest <> 0%nat -> is_Some (Some bearer) -> evs <> [])).
    { exists [EvFetch url bearer].
      rewrite filter_cons, filter_nil. cbn [is_fetch].
      rewrite decide_True by exact I. cbn [length].
      repeat split; try reflexivity; try lia.
      intros _ _ H; discriminate H. }
    destruct (answer w (calls io)) as [raw|err]; [|exact Hone].
    destruct (truthy (meta raw ≫= next_token)) as [tk|]; [|exact Hone].
    destruct (decide (rest <> 0%nat)) as [Hrest|Hrest].
    + destruct (IH (meta raw ≫= next_token)
                  (allTweets ++ parseTweets raw)
                  (sleep RATE_DELAY_MS
                     {| calls := S (calls io);
                        trace := trace io ++ [EvFetch url bearer] |}))
        as (evs & Ht & Hc & Hp & Hn & Hne).
      exists (EvFetch url bearer :: EvSleep RATE_DELAY_MS :: evs).
      rewrite Ht, Hc. cbn [sleep calls trace].
      rewrite <- !app_assoc. cbn [app].
      rewrite !filter_cons. cbn [is_fetch].
      rewrite decide_True by exact I.
      rewrite (decide_False (P := Is_true false)) by (intros H; exact H).
      cbn [length].
      split; [reflexivity|]. split; [lia|].
      split; [apply paced_cons_pause;
              [apply Hne; [exact Hrest | by eexists] | exact Hp]|].
      split; [lia | intros _ _ H; discriminate H].
    + assert (rest = 0%nat) as -> by lia. cbn [search_pages]. exact Hone.
Qed.

(** X8. Against any remote whatever, [search] with a page budget of [N]
    sends at most [N] requests, one after the other, with exactly one
    pause of 350 ms between two consecutive requests and none before the
    first or after the last; with a budget of zero or less it sends
    none. *)
Theorem X8_search_is_paced (B : Builtins) (w : World) (now : Z)
    (query : string) (opts : SearchOpts) (io : IO) :
  exists evs,
    trace (snd (search B w now query opts io)) = trace io ++ evs /\
    calls (snd (search B w now query opts io))
      = (calls io + length (filter is_fetch evs))%nat /\
    paced evs = true /\
    (length (filter is_fetch evs) <= Z.to_nat (or_num (pages opts) 1))%nat.
Proof.
  unfold search. destruct (time_filter B now opts) as [tf|err].
  - destruct (search_pages_paced w (search_prefix B query opts tf)
                (Z.to_nat (or_num (pages opts) 1)) None [] io)
      as (evs & Ht & Hc & Hp & Hn & _).
    exists evs. repeat split; assumption.
  - exists []. cbn. rewrite app_nil_r, Nat.add_0_r.
    repeat split; try reflexivity; lia.
Qed.

(** The loop up to a request that fails. *)
Lemma search_pages_fails (w : World) (prefix bearer : string) (err : Error)
    (ps : list RawResponse) :
  forall (N : nat) (nextToken : option string) (allTweets : list Tweet)
         (io : IO),
    token w = Some bearer ->
    (length ps < N)%nat ->
    (forall k p, ps !! k = Some p ->
                 answer w (calls io + k) = Returns p) ->
    Forall has_next ps ->
    answer w (calls io + length ps) = Throws err ->
    fst (search_pages w prefix N nextToken allTweets io) = Throws err /\
    calls (snd (search_pages w prefix N nextToken allTweets io))
      = (calls io + S (length ps))%nat.
Proof.
  induction ps as [|p ps IH];
    intros N nextToken allTweets io Htok HN Hdel Hnext Herr;
    (destruct N as [|rest]; [simpl in HN; lia|]);
    cbn [search_pages]; rewrite (apiGet_answer w _ bearer io Htok).
  - cbn [length] in Herr. rewrite Nat.add_0_r in Herr. rewrite Herr.
    cbn. split; [reflexivity | lia].
  - assert (H0 : answer w (calls io) = Returns p).
    { rewrite <- (Nat.add_0_r (calls io)). apply Hdel. reflexivity. }
    rewrite H0.
    apply Forall_cons in Hnext. destruct Hnext as [[tk Htk] Hnext].
    rewrite Htk.
    match goal with
    | |- context [search_pages w prefix rest ?t ?a ?i] =>
        set (io2 := i);
        assert (Hcalls : calls io2 = S (calls io))
          by (subst io2; destruct (decide (rest <> 0%nat)); reflexivity);
        destruct (IH rest t a io2 Htok) as [Hf Hc]
    end.
    + simpl in HN. lia.
    + intros k q Hq. rewrite Hcalls.
      replace (S (calls io) + k)%nat with (calls io + S k)%nat by lia.
      apply Hdel. exact Hq.
    + assumption.
    + rewrite Hcalls.
      replace (S (calls io) + length ps)%nat
        with (calls io + length (p :: ps))%nat by (cbn [length]; lia).
      exact Herr.
    + rewrite Hf, Hc, Hcalls.
      split; [reflexivity | cbn [length]; lia].
Qed.

(** X9. A request that fails aborts the whole search: when the pages
    before request k+1 arrive with continuation tokens and request k+1
    makes [apiGet] throw (rate limit, other status, unreadable body), the
    page loop throws that same error after exactly k+1 requests, and the
    tweets of the pages already fetched are not returned. *)
Theorem X9_failing_page_aborts (w : World) (prefix bearer : string)
    (err : Error) (ps : list RawResponse) (N : nat) (io : IO) :
  token w = Some bearer ->
  (length ps < N)%nat ->
  (forall k p, ps !! k = Some p -> answer w (calls io + k) = Returns p) ->
  Forall has_next ps ->
  answer w (calls io + length ps) = Throws err ->
  fst (search_pages w prefix N None [] io) = Throws err /\
  calls (snd (search_pages w prefix N None [] io))
    = (calls io + S (length ps))%nat.
Proof.
  apply search_pages_fails.
Qed.

Lemma X9_failing_page_aborts_witness :
  token failing_world = Some "secret" /\
  (length [page_with "a" (Some "tok2")] < 3)%nat /\
  Forall has_next [page_with "a" (Some "tok2")] /\
  answer failing_world 1 = Throws (ApiStatus 503 "Service Unavailable") /\
  fst (search_pages failing_world "https://api.x.com/2/q" 3 None [] io0)
    = Throws (ApiStatus 503 "Service Unavailable") /\
  calls (snd (search_pages failing_world "https://api.x.com/2/q" 3 None []
                io0)) = 2%nat.
Proof.
  assert (Hnext : Forall has_next [page_with "a" (Some "tok2")]).
  { constructor; [|constructor]. eexists. reflexivity. }
  assert (Hlen : (length [page_with "a" (Some "tok2")] < 3)%nat)
    by (simpl; lia).
  assert (Hdel : forall k p,
            [page_with "a" (Some "tok2")] !! k = Some p ->
            answer failing_world (calls io0 + k) = Returns p).
  { intros [|k] p Hp; simpl in Hp.
    - injection Hp as <-. reflexivity.
    - destruct k; discriminate Hp. }
  split; [reflexivity|]. split; [exact Hlen|]. split; [exact Hnext|].
  split; [reflexivity|].
  apply (X9_failing_page_aborts failing_world "https://api.x.com/2/q"
           "secret" _ [page_with "a" (Some "tok2")] 3 io0 eq_refl Hlen
           Hdel Hnext eq_refl).
Defined.

(** X10. The page size [search] asks for is always between 10 and 100:
    the URL carries [max_results=n] with [n] the requested size clamped
    to that range, and 100 when no size or a size of 0 is requested. *)
Theorem X10_page_size_is_clamped (B : Builtins) (query : string)
    (opts : SearchOpts) (timeFilter : string) :
  exists n,
    10 <= n <= 100 /\
    search_prefix B query opts timeFilter =
      BASE +:+ "/tweets/search/recent?query=" +:+ encodeURIComponent B query
        +:+ "&max_results=" +:+ pretty n +:+ "&" +:+ FIELDS
        +:+ "&sort_order=" +:+ sort_text (default relevancy (sortOrder opts))
        +:+ timeFilter /\
    n = match maxResults opts with
        | None => 100
        | Some r => if decide (r = 0) then 100
                    else if decide (r < 10) then 10
                    else if decide (100 < r) then 100
                    else r
        end.
Proof.
  eexists. split; [|split; [reflexivity|]].
  - lia.
  - unfold or_num. destruct (maxResults opts) as [r|]; [|reflexivity].
    destruct (decide (r = 0)); [reflexivity|].
    destruct (decide (r < 10)); [lia|].
    destruct (decide (100 < r)); lia.
Qed.

Lemma substring_length (n : nat) :
  forall s, String.length (substring 0 n s) = Nat.min n (String.length s).
Proof.
  induction n as [|n IH]; intros s.
  - destruct s; reflexivity.
  - destruct s as [|c s]; [reflexivity|]. cbn. rewrite IH. reflexivity.
Qed.

Lemma substring_prefix (n : nat) :
  forall s, exists rest, s = substring 0 n s +:+ rest.
Proof.
  induction n as [|n IH]; intros s.
  - exists s. destruct s; reflexivity.
  - destruct s as [|c s]; [exists EmptyString; reflexivity|].
    destruct (IH s) as [rest Hrest]. exists rest.
    change (String c s = String c (substring 0 n s +:+ rest)).
    f_equal. exact Hrest.
Qed.

(** X11. A response whose status is neither 429 nor in 200..299 makes
    [apiGet] throw an error that carries the status and the start of the
    body: at most 200 characters of it, the whole body when it is
    shorter. *)
Theorem X11_error_body_is_truncated (w : World) (url bearer : string)
    (io : IO) :
  token w = Some bearer ->
  status (remote w (calls io)) <> 429 ->
  ok (remote w (calls io)) = false ->
  exists body,
    fst (apiGet w url io)
      = Throws (ApiStatus (status (remote w (calls io))) body) /\
    String.length body
      = Nat.min 200 (String.length (body_text (remote w (calls io)))) /\
    exists rest, body_text (remote w (calls io)) = body +:+ rest.
Proof.
  intros Htok H429 Hok. unfold apiGet. rewrite Htok.
  destruct (decide (status (remote w (calls io)) = 429)); [contradiction|].
  rewrite Hok. cbn [negb fst].
  eexists. split; [reflexivity|].
  split; [apply substring_length | apply substring_prefix].
Qed.

Lemma X11_error_body_is_truncated_witness :
  token failing_world = Some "secret" /\
  status (remote failing_world 1) <> 429 /\
  ok (remote failing_world 1) = false /\
  exists body,
    fst (apiGet failing_world "https://api.x.com/2/q"
           {| calls := 1; trace := [] |})
      = Throws (ApiStatus 503 body) /\
    String.length body = 19%nat /\
    exists rest, "Service Unavailable" = body +:+ rest.
Proof.
  assert (H429 : status (remote failing_world 1) <> 429)
    by (intros H; discriminate H).
  split; [reflexivity|]. split; [exact H429|]. split; [reflexivity|].
  exact (X11_error_body_is_truncated failing_world
           "https://api.x.com/2/q" "secret"
           {| calls := 1; trace := [] |} eq_refl H429 eq_refl).
Defined.

End SearchMore.

(** * Properties of the aggregator *)

Module AggregatorProps.
Import Api.
Import ApiMore.
Import ApiProps.
Open Scope list_scope.

(** ** Stable sorting *)

Section Sorting.
Context (cmp : Tweet -> Tweet -> Z) (key : Tweet -> Z).
Hypothesis cmp_key : forall a b, cmp a b = key b - key a.

Lemma sort_insert_perm (a : Tweet) (l : list Tweet) :
  sort_insert cmp a l ≡ₚ a :: l.
Proof.
  induction l as [|b l IH]; cbn [sort_insert]; [reflexivity|].
  destruct (cmp a b <=? 0); [reflexivity|].
  rewrite IH. apply Permutation_swap.
Qed.

Lemma stable_sort_perm (l : list Tweet) : stable_sort cmp l ≡ₚ l.
Proof.
  induction l as [|a l IH]; [reflexivity|].
  unfold stable_sort in *. cbn [foldr].
  rewrite sort_insert_perm, IH. reflexivity.
Qed.

Lemma sort_insert_descending (a : Tweet) (l : list Tweet) :
  descending key l -> descending key (sort_insert cmp a l).
Proof.
  induction l as [|b l IH]; cbn [sort_insert descending].
  - intros _. split; [constructor | exact I].
  - intros [Hb Hl].
    destruct (Z.leb_spec (cmp a b) 0) as [Hle|Hgt]; rewrite cmp_key in *.
    + cbn [descending]. split; [|split; assumption].
      constructor; [lia|].
      eapply Forall_impl; [exact Hb|]. cbn. intros c Hc. lia.
    + cbn [descending]. split; [|apply IH, Hl].
      rewrite sort_insert_perm. constructor; [lia | exact Hb].
Qed.

Lemma stable_sort_descending (l : list Tweet) :
  descending key (stable_sort cmp l).
Proof.
  induction l as [|a l IH]; [exact I|].
  unfold stable_sort in *. cbn [foldr]. apply sort_insert_descending, IH.
Qed.

Lemma sort_insert_with_key (v : Z) (a : Tweet) (l : list Tweet) :
  with_key key v (sort_insert cmp a l) = with_key key v (a :: l).
Proof.
  unfold with_key.
  induction l as [|b l IH]; cbn [sort_insert]; [reflexivity|].
  destruct (Z.leb_spec (cmp a b) 0) as [Hle|Hgt]; [reflexivity|].
  rewrite cmp_key in Hgt.
  rewrite (filter_cons _ b), IH, !(filter_cons _ a), (filter_cons _ b).
  destruct (decide (key a = v)), (decide (key b = v));
    try reflexivity; lia.
Qed.

Lemma stable_sort_with_key (v : Z) (l : list Tweet) :
  with_key key v (stable_sort cmp l) = with_key key v l.
Proof.
  induction l as [|a l IH]; [reflexivity|].
  unfold stable_sort in *. cbn [foldr].
  rewrite sort_insert_with_key. unfold with_key in *.
  rewrite !(filter_cons _ a), IH. reflexivity.
Qed.

End Sorting.

Lemma with_key_elem (key : Tweet -> Z) (v : Z) (t : Tweet)
    (l : list Tweet) :
  t ∈ with_key key v l <-> t ∈ l /\ key t = v.
Proof. unfold with_key. rewrite list_elem_of_filter. tauto. Qed.

(** Two descending lists with the same records under every key, in the
    same order, are one list. *)
Lemma descending_unique (key : Tweet -> Z) (l1 : list Tweet) :
  forall l2,
    descending key l1 -> descending key l2 ->
    (forall v, with_key key v l1 = with_key key v l2) ->
    l1 = l2.
Proof.
  induction l1 as [|x r1 IH]; intros l2 H1 H2 Hsame.
  - destruct l2 as [|y r2]; [reflexivity|].
    specialize (Hsame (key y)). unfold with_key in Hsame.
    rewrite filter_nil, filter_cons, decide_True in Hsame by reflexivity.
    discriminate Hsame.
  - destruct l2 as [|y r2].
    { specialize (Hsame (key x)). unfold with_key in Hsame.
      rewrite filter_nil, filter_cons, decide_True in Hsame by reflexivity.
      discriminate Hsame. }
    destruct H1 as [Hx H1]. destruct H2 as [Hy H2].
    assert (Hyx : key y <= key x).
    { assert (Hin : y ∈ with_key key (key y) (x :: r1)).
      { rewrite Hsame. apply with_key_elem. split; [by left | reflexivity]. }
      apply with_key_elem in Hin. destruct Hin as [Hin _].
      apply elem_of_cons in Hin. destruct Hin as [->|Hin]; [lia|].
      rewrite Forall_forall in Hx. apply Hx. exact Hin. }
    assert (Hxy : key x <= key y).
    { assert (Hin : x ∈ with_key key (key x) (y :: r2)).
      { rewrite <- Hsame. apply with_key_elem.
        split; [by left | reflexivity]. }
      apply with_key_elem in Hin. destruct Hin as [Hin _].
      apply elem_of_cons in Hin. destruct Hin as [->|Hin]; [lia|].
      rewrite Forall_forall in Hy. apply Hy. exact Hin. }
    assert (Heq : key x = key y) by lia.
    pose proof (Hsame (key x)) as Hhead. unfold with_key in Hhead.
    rewrite !filter_cons in Hhead.
    rewrite decide_True in Hhead by reflexivity.
    rewrite (decide_True (P := key y = key x)) in Hhead by lia.
    injection Hhead as <- Htail.
    f_equal. apply IH; try assumption.
    intros v. specialize (Hsame v). unfold with_key in *.
    rewrite !filter_cons in Hsame.
    destruct (decide (key x = v)); [|exact Hsame].
    injection Hsame as Hsame. exact Hsame.
Qed.

Lemma compare_desc_key (metric : string) (a b : Tweet) :
  compare_desc metric a b = sort_key metric b - sort_key metric a.
Proof.
  unfold compare_desc, sort_key, metric_value.
  repeat (destruct (decide _); [reflexivity|]). reflexivity.
Qed.

(** X12. [sortBy] returns the records of its input (each as often as it
    occurs), in descending order of the chosen counter, records with
    equal counters in the order they had; and it is the only such list,
    so the result does not depend on how the sort is carried out. *)
Theorem X12_sortBy_is_the_stable_sort (tweets : list Tweet)
    (metric : string) :
  sortBy tweets metric ≡ₚ tweets /\
  descending (sort_key metric) (sortBy tweets metric) /\
  (forall v, with_key (sort_key metric) v (sortBy tweets metric)
             = with_key (sort_key metric) v tweets) /\
  (forall l,
     descending (sort_key metric) l ->
     (forall v, with_key (sort_key metric) v l
                = with_key (sort_key metric) v tweets) ->
     l = sortBy tweets metric).
Proof.
  unfold sortBy.
  pose proof (compare_desc_key metric) as Hk.
  split; [apply stable_sort_perm|].
  split; [apply (stable_sort_descending _ _ Hk)|].
  split; [intros v; apply (stable_sort_with_key _ _ Hk)|].
  intros l Hl Hsame. apply (descending_unique (sort_key metric)).
  - exact Hl.
  - apply (stable_sort_descending _ _ Hk).
  - intros v. rewrite Hsame, (stable_sort_with_key _ _ Hk). reflexivity.
Qed.

Lemma sortBy_descending_fixed (tweets : list Tweet) (metric : string) :
  descending (sort_key metric) tweets -> sortBy tweets metric = tweets.
Proof.
  intros H. symmetry. unfold sortBy.
  pose proof (compare_desc_key metric) as Hk.
  apply (descending_unique (sort_key metric)).
  - exact H.
  - apply (stable_sort_descending _ _ Hk).
  - intros v. rewrite (stable_sort_with_key _ _ Hk). reflexivity.
Qed.

(** X13. A sort name that is none of the six counters is no error: the
    comparator yields [NaN] for every pair and [sortBy] returns the
    records in the order it got them. *)
Theorem X13_unknown_metric_keeps_order (tweets : list Tweet)
    (metric : string) :
  (forall m, metric_value metric m = None) ->
  sortBy tweets metric = tweets.
Proof.
  intros Hnone. apply sortBy_descending_fixed.
  induction tweets as [|a l IH]; [exact I|].
  split; [|exact IH].
  apply Forall_forall. intros b _. unfold sort_key.
  rewrite !Hnone. reflexivity.
Qed.

Lemma X13_unknown_metric_keeps_order_witness :
  (forall m, metric_value "date" m = None) /\
  sortBy (parseTweets (page_with "a" None) ++ parseTweets bare_page) "date"
    = parseTweets (page_with "a" None) ++ parseTweets bare_page.
Proof.
  split; [intros m; reflexivity|].
  apply X13_unknown_metric_keeps_order. intros m. reflexivity.
Defined.

(** ** [filterEngagement] *)

Lemma retained_meets (opts : EngagementOpts) (t : Tweet) :
  retained opts t <-> meets opts t.
Proof.
  unfold retained, meets.
  destruct (below (minLikes opts) (likes (metrics t)));
    destruct (below (minImpressions opts) (impressions (metrics t)));
    simpl; intuition discriminate.
Qed.

Lemma below_spec (min : option Z) (value : Z) :
  below min value = true <->
  exists m, min = Some m /\ m <> 0 /\ value < m.
Proof.
  unfold below. destruct min as [m|].
  - destruct (decide (m = 0)) as [->|Hm].
    + split; [discriminate | intros (m & [= <-] & H & _); contradiction].
    + rewrite Z.ltb_lt. split.
      * intros H. exists m. auto.
      * intros (m' & [= <-] & _ & H). exact H.
  - split; [discriminate | intros (m & H & _); discriminate H].
Qed.

Lemma filterEngagement_elem (tweets : list Tweet) (opts : EngagementOpts)
    (t : Tweet) :
  t ∈ filterEngagement tweets opts <->
  t ∈ tweets /\
  (forall m, minLikes opts = Some m -> m <> 0 -> m <= likes (metrics t)) /\
  (forall m, minImpressions opts = Some m -> m <> 0 ->
             m <= impressions (metrics t)).
Proof.
  unfold filterEngagement.
  rewrite list_elem_of_filter, retained_meets. unfold meets.
  split.
  - intros [[Hl Hi] Hin]. split; [exact Hin|]. split.
    + intros m Hm Hnz.
      destruct (Z.lt_ge_cases (likes (metrics t)) m) as [Hlt|Hge];
        [|exact Hge].
      assert (below (minLikes opts) (likes (metrics t)) = true)
        by (apply below_spec; eauto).
      congruence.
    + intros m Hm Hnz.
      destruct (Z.lt_ge_cases (impressions (metrics t)) m) as [Hlt|Hge];
        [|exact Hge].
      assert (below (minImpressions opts) (impressions (metrics t))
              = true) by (apply below_spec; eauto).
      congruence.
  - intros (Hin & Hl & Hi). split; [|exact Hin]. split.
    + destruct (below (minLikes opts) (likes (metrics t))) eqn:E;
        [|reflexivity].
      apply below_spec in E. destruct E as (m & Hm & Hnz & Hlt).
      specialize (Hl m Hm Hnz). lia.
    + destruct (below (minImpressions opts) (impressions (metrics t)))
        eqn:E; [|reflexivity].
      apply below_spec in E. destruct E as (m & Hm & Hnz & Hlt).
      specialize (Hi m Hm Hnz). lia.
Qed.

(** X14. [filterEngagement] keeps, in their order, exactly the records
    whose likes are not below a given nonzero [minLikes] and whose
    impressions are not below a given nonzero [minImpressions]; a missing
    or zero minimum excludes nothing, so without minimums the list comes
    back unchanged; and filtering twice is filtering once with both sets
    of minimums. *)
Theorem X14_filterEngagement_keeps_who_meets (tweets : list Tweet)
    (opts opts' : EngagementOpts) :
  sublist (filterEngagement tweets opts) tweets /\
  (forall t,
     t ∈ filterEngagement tweets opts <->
     t ∈ tweets /\
     (forall m, minLikes opts = Some m -> m <> 0 ->
                m <= likes (metrics t)) /\
     (forall m, minImpressions opts = Some m -> m <> 0 ->
                m <= impressions (metrics t))) /\
  (forall o,
     (minLikes o = None \/ minLikes o = Some 0) ->
     (minImpressions o = None \/ minImpressions o = Some 0) ->
     filterEngagement tweets o = tweets) /\
  filterEngagement (filterEngagement tweets opts) opts'
    = filter (fun t => meets opts t /\ meets opts' t) tweets.
Proof.
  unfold filterEngagement. split; [apply sublist_filter|].
  split; [|split].
  - intros t. apply (filterEngagement_elem tweets opts t).
  - intros o Hl Hi.
    assert (Hall : forall t, retained o t = true).
    { intros t. unfold retained, below.
      destruct Hl as [->| ->], Hi as [->| ->]; reflexivity. }
    induction tweets as [|a l IH]; [reflexivity|].
    rewrite filter_cons, IH. rewrite Hall. reflexivity.
  - rewrite list_filter_filter. apply list_filter_iff.
    intros t. rewrite !retained_meets. tauto.
Qed.

Lemma with_key_retained (key : Tweet -> Z) (v : Z)
    (opts : EngagementOpts) (l : list Tweet) :
  with_key key v (filter (fun t => retained opts t) l)
    = filter (fun t => retained opts t) (with_key key v l).
Proof.
  unfold with_key. rewrite !list_filter_filter.
  apply list_filter_iff. intros t. tauto.
Qed.

(** X15. Filtering and sorting commute: filtering the sorted records
    gives the same list as sorting the filtered ones. *)
Theorem X15_filter_and_sort_commute (tweets : list Tweet)
    (opts : EngagementOpts) (metric : string) :
  filterEngagement (sortBy tweets metric) opts
    = sortBy (filterEngagement tweets opts) metric.
Proof.
  pose proof (compare_desc_key metric) as Hk.
  unfold sortBy, filterEngagement.
  apply (descending_unique (sort_key metric)).
  - assert (Hsub : forall l,
              descending (sort_key metric) l ->
              descending (sort_key metric)
                (filter (fun t => retained opts t) l)).
    { induction l as [|a l IH]; [intros _; exact I|].
      intros [Ha Hl]. rewrite filter_cons.
      destruct (decide (retained opts a)); [|apply IH, Hl].
      split; [|apply IH, Hl].
      apply Forall_forall. intros b Hb.
      apply list_elem_of_filter in Hb. destruct Hb as [_ Hb].
      rewrite Forall_forall in Ha. apply Ha, Hb. }
    apply Hsub, (stable_sort_descending _ _ Hk).
  - apply (stable_sort_descending _ _ Hk).
  - intros v.
    rewrite (stable_sort_with_key _ _ Hk), !with_key_retained,
      (stable_sort_with_key _ _ Hk).
    reflexivity.
Qed.

(** ** [parseTweets]: the join with the side-loaded users *)

Lemma users_table_last (pre post : list RawUser) (u : RawUser) :
  Forall (fun v => to_text (u_id v) <> to_text (u_id u)) post ->
  users_get (users_table (pre ++ u :: post)) (to_text (u_id u))
    = Some (AUser u).
Proof.
  intros H. unfold users_get, users_table. rewrite foldl_app. cbn [foldl].
  set (o := foldl users_assign {| own := ∅; proto := None |} pre).
  assert (Ho : own o !! "__proto__" = None).
  { apply users_fold_never_own, lookup_empty. }
  rewrite (users_fold_own _ post _ H).
  destruct (decide (to_text (u_id u) = "__proto__")) as [Hk|Hk].
  - rewrite Hk in H. rewrite (users_fold_proto post _ H).
    unfold users_assign. rewrite Hk.
    destruct (decide ("__proto__" = "__proto__")); [|contradiction].
    cbn [own proto]. rewrite Ho. reflexivity.
  - unfold users_assign.
    destruct (decide (to_text (u_id u) = "__proto__")); [contradiction|].
    cbn [own]. rewrite lookup_insert_eq. reflexivity.
Qed.

(** X20. [parseTweets] joins an item to the last side-loaded user whose
    id is the item's author id (a missing id on either side reads as
    "undefined"): the tweet's handle and display name are that user's,
    "?" standing in for a missing or empty one, and its URL is built from
    that handle and the item's id. *)
Theorem X20_author_is_last_matching_user (raw : RawResponse)
    (items : list RawTweet) (i : nat) (t : RawTweet)
    (pre post : list RawUser) (u : RawUser) :
  data raw = Some items ->
  items !! i = Some t ->
  default [] (includes_ raw ≫= users) = pre ++ u :: post ->
  to_text (u_id u) = to_text (t_author_id t) ->
  Forall (fun v => to_text (u_id v) <> to_text (t_author_id t)) post ->
  exists tw,
    parseTweets raw !! i = Some tw /\
    username tw = or_str (u_username u) "?" /\
    name tw = or_str (u_name u) "?" /\
    tweet_url tw =
      "https://x.com/" +:+ or_str (u_username u) "?" +:+ "/status/"
        +:+ to_text (t_id t).
Proof.
  intros Hdata Hi Hus Hkey Hpost.
  unfold parseTweets. rewrite Hdata, Hus.
  exists (parseTweet (users_table (pre ++ u :: post)) t).
  split.
  { rewrite list_lookup_fmap_Some. exists t. split; [reflexivity|exact Hi]. }
  unfold parseTweet. cbn [username name tweet_url].
  rewrite <- Hkey in *. rewrite (users_table_last pre post u Hpost).
  repeat split; reflexivity.
Qed.

Lemma X20_author_is_last_matching_user_witness :
  let older := {| u_id := Some "42"; u_username := Some "old_handle";
                  u_name := Some "Old" |} in
  let newer := {| u_id := Some "42"; u_username := Some "handle";
                  u_name := None |} in
  let raw := {| data := Some [bare_tweet];
                includes_ := Some {| users := Some [older; newer] |};
                meta := None |} in
  data raw = Some [bare_tweet] /\
  exists tw,
    parseTweets raw !! 0%nat = Some tw /\
    username tw = "handle" /\
    name tw = "?" /\
    tweet_url tw = "https://x.com/handle/status/1".
Proof.
  intros older newer raw. split; [reflexivity|].
  apply (X20_author_is_last_matching_user raw [bare_tweet] 0 bare_tweet
           [older] [] newer);
    try reflexivity. constructor.
Defined.

(** ** [dedupe] over several pages *)

Lemma dedupe_from_filter (l : list Tweet) :
  forall seen seen' : gset (option string),
    dedupe_from (seen ∪ seen') l
      = filter (fun t => tweet_id t ∉ seen) (dedupe_from seen' l).
Proof.
  induction l as [|x l IH]; intros seen seen'; [reflexivity|].
  cbn [dedupe_from].
  destruct (decide (tweet_id x ∈ seen')) as [Hin'|Hnin'].
  - rewrite decide_True by (apply elem_of_union; by right). apply IH.
  - rewrite filter_cons.
    destruct (decide (tweet_id x ∈ seen)) as [Hin|Hnin].
    + rewrite decide_True by (apply elem_of_union; by left).
      rewrite decide_False by (intros H; apply H; exact Hin).
      rewrite <- IH. f_equal.
      apply set_eq. intros y. rewrite !elem_of_union, elem_of_singleton.
      split; [tauto|]. intros [H|[->|H]]; tauto.
    + rewrite decide_False
        by (intros H; apply elem_of_union in H; tauto).
      rewrite decide_True by exact Hnin.
      f_equal. rewrite <- IH. f_equal.
      apply set_eq. intros y. rewrite !elem_of_union, elem_of_singleton.
      tauto.
Qed.

Lemma dedupe_from_app (X : list Tweet) :
  forall (seen : gset (option string)) (Y : list Tweet),
    dedupe_from seen (X ++ Y)
      = dedupe_from seen X
        ++ dedupe_from (list_to_set (tweet_id <$> X) ∪ seen) Y.
Proof.
  induction X as [|x X IH]; intros seen Y.
  - cbn. f_equal. apply set_eq. intros y.
    rewrite elem_of_union, elem_of_empty. tauto.
  - cbn [app dedupe_from fmap list_fmap list_to_set].
    destruct (decide (tweet_id x ∈ seen)) as [Hin|Hnin].
    + rewrite IH. f_equal. f_equal.
      apply set_eq. intros y. rewrite !elem_of_union, elem_of_singleton.
      split; [tauto|]. intros [[->|H]|H]; tauto.
    + cbn [app]. f_equal. rewrite IH. f_equal. f_equal.
      apply set_eq. intros y. rewrite !elem_of_union, elem_of_singleton.
      tauto.
Qed.

(** X21. Deduping two batches together is deduping the first, then
    adding from the deduped second the records whose identity the first
    batch does not have: records fetched earlier always win, and what
    [dedupe] made of the first batch is not changed by what follows. *)
Theorem X21_dedupe_of_two_batches (X Y : list Tweet) :
  dedupe (X ++ Y)
    = dedupe X
      ++ filter (fun t => tweet_id t ∉ tweet_id <$> X) (dedupe Y).
Proof.
  unfold dedupe. rewrite dedupe_from_app. f_equal.
  rewrite (dedupe_from_filter Y (list_to_set (tweet_id <$> X)) ∅).
  apply list_filter_iff. intros t. rewrite elem_of_list_to_set. tauto.
Qed.

End AggregatorProps.

(** * Properties of the command line *)

Module CliProps.
Import Api.
Import ApiMore.
Import Cli.
Import ApiProps.
Import AggregatorProps.
Open Scope list_scope.

(** ** Argument parsing *)

Lemma indexOf_absent (x : string) (args : list string) :
  x ∉ args -> indexOf x args = None.
Proof.
  induction args as [|y rest IH]; [reflexivity|].
  intros H. apply not_elem_of_cons in H. destruct H as [Hne H].
  cbn [indexOf]. destruct (decide (y = x)); [congruence|].
  rewrite (IH H). reflexivity.
Qed.

Lemma indexOf_first (x : string) (pre post : list string) :
  x ∉ pre -> indexOf x (pre ++ x :: post) = Some (length pre).
Proof.
  induction pre as [|y pre IH]; intros H; cbn [indexOf app length].
  - destruct (decide (x = x)); [reflexivity | contradiction].
  - apply not_elem_of_cons in H. destruct H as [Hne H].
    destruct (decide (y = x)); [congruence|].
    rewrite (IH H). reflexivity.
Qed.

Lemma splice_at (pre mid post : list string) :
  splice (length pre) (length mid) (pre ++ mid ++ post) = pre ++ post.
Proof.
  unfold splice. rewrite take_app_length.
  rewrite drop_app_add'; [|reflexivity].
  rewrite drop_app_length. reflexivity.
Qed.

(** X16. [getOpt] and [getFlag] act on the first occurrence of
    [--name]: [getOpt] returns the argument that follows it, whatever it
    is (another [--flag] included), and removes the two, leaving the
    other arguments in order; a [--name] in last position yields
    [undefined] and stays in [args]; [getFlag] removes the flag alone;
    and without [--name] both leave [args] as it is. *)
Theorem X16_options_are_taken_out (name : string) (pre post : list string)
    (value : string) :
  "--" +:+ name ∉ pre ->
  getOpt name (pre ++ ("--" +:+ name) :: value :: post)
    = (Some value, pre ++ post) /\
  getOpt name (pre ++ ["--" +:+ name]) = (None, pre ++ ["--" +:+ name]) /\
  getFlag name (pre ++ ("--" +:+ name) :: post) = (true, pre ++ post) /\
  getOpt name pre = (None, pre) /\
  getFlag name pre = (false, pre).
Proof.
  intros H. unfold getOpt, getFlag.
  rewrite !(indexOf_first _ pre _ H), (indexOf_absent _ pre H).
  repeat split.
  - assert (Hlt : (length pre + 1
                   <? length (pre ++ ("--" +:+ name) :: value :: post))%nat
                  = true).
    { apply Nat.ltb_lt. rewrite length_app. cbn [length]. lia. }
    rewrite Hlt. f_equal.
    + rewrite lookup_app_r by lia.
      replace (length pre + 1 - length pre)%nat with 1%nat by lia.
      reflexivity.
    + apply (splice_at pre ["--" +:+ name; value] post).
  - assert (Hge : (length pre + 1 <? length (pre ++ ["--" +:+ name]))%nat
                  = false).
    { apply Nat.ltb_ge. rewrite length_app. cbn [length]. lia. }
    rewrite Hge. reflexivity.
  - f_equal. apply (splice_at pre ["--" +:+ name] post).
Qed.

Lemma X16_options_are_taken_out_witness :
  ("--" +:+ "limit" ∉ ["search"; "rocq"]) /\
  getOpt "limit" (["search"; "rocq"] ++ ("--" +:+ "limit") :: "--json" :: [])
    = (Some "--json", ["search"; "rocq"] ++ []).
Proof.
  assert (H : "--" +:+ "limit" ∉ ["search"; "rocq"]).
  { intros Hin. repeat (apply elem_of_cons in Hin; destruct Hin as [Hin|Hin];
      [discriminate Hin|]). inversion Hin. }
  split; [exact H|].
  apply (X16_options_are_taken_out "limit" ["search"; "rocq"] [] "--json" H).
Defined.

(** ** The post-processing of [cmdSearch] *)

Lemma descending_sublist (key : Tweet -> Z) (l1 l2 : list Tweet) :
  sublist l1 l2 -> descending key l2 -> descending key l1.
Proof.
  induction 1 as [|x l1 l2 Hsub IH|x l1 l2 Hsub IH]; cbn [descending].
  - intros _. exact I.
  - intros [Hx Hl]. split; [|apply IH, Hl].
    apply Forall_forall. intros b Hb. rewrite Forall_forall in Hx.
    apply Hx. eapply elem_of_sublist; eassumption.
  - intros [_ Hl]. apply IH, Hl.
Qed.

(** In a descending list, the record [dedupe] keeps for an identity has
    the largest key of the records with that identity. *)
Lemma dedupe_from_keeps_best (key : Tweet -> Z) (l : list Tweet) :
  forall seen t t',
    descending key l ->
    t ∈ dedupe_from seen l -> t' ∈ l -> tweet_id t' = tweet_id t ->
    key t' <= key t.
Proof.
  induction l as [|x l IH]; intros seen t t' Hdesc Ht Ht' Hid.
  - inversion Ht'.
  - destruct Hdesc as [Hx Hdesc]. cbn [dedupe_from] in Ht.
    destruct (decide (tweet_id x ∈ seen)) as [Hin|Hnin].
    + pose proof (dedupe_from_seen _ _ _ Ht) as Hns.
      apply elem_of_cons in Ht'. destruct Ht' as [->|Ht'];
        [rewrite Hid in Hin; contradiction|].
      eapply IH; eassumption.
    + apply elem_of_cons in Ht. destruct Ht as [->|Ht].
      * apply elem_of_cons in Ht'. destruct Ht' as [->|Ht']; [lia|].
        rewrite Forall_forall in Hx. apply Hx, Ht'.
      * pose proof (dedupe_from_seen _ _ _ Ht) as Hns.
        apply elem_of_cons in Ht'. destruct Ht' as [->|Ht'].
        -- exfalso. apply Hns. rewrite <- Hid.
           apply elem_of_union. left. by apply elem_of_singleton.
        -- eapply IH; eassumption.
Qed.

Lemma dedupe_from_covers (l : list Tweet) :
  forall seen u, u ∈ l ->
    tweet_id u ∈ seen \/ tweet_id u ∈ tweet_id <$> dedupe_from seen l.
Proof.
  induction l as [|x l IH]; intros seen u Hu; [inversion Hu|].
  cbn [dedupe_from]. apply elem_of_cons in Hu.
  destruct (decide (tweet_id x ∈ seen)) as [Hin|Hnin].
  - destruct Hu as [->|Hu]; [by left | by apply IH].
  - rewrite fmap_cons. destruct Hu as [->|Hu]; [right; by left|].
    destruct (IH ({[tweet_id x]} ∪ seen) u Hu) as [H|H];
      [|right; by right].
    apply elem_of_union in H. destruct H as [H|H]; [|by left].
    apply elem_of_singleton in H. right. rewrite H. by left.
Qed.

Lemma selectEngaged_elem (min_likes min_impressions : option Z)
    (quality : bool) (tweets : list Tweet) (t : Tweet) :
  t ∈ selectEngaged min_likes min_impressions quality tweets ->
  t ∈ tweets /\
  (quality = true -> 10 <= likes (metrics t)) /\
  (forall m, min_likes = Some m -> 0 < m -> m <= likes (metrics t)) /\
  (forall m, min_impressions = Some m -> 0 < m ->
             m <= impressions (metrics t)).
Proof.
  unfold selectEngaged.
  set (o := {| minLikes := or_undefined min_likes;
               minImpressions := or_undefined min_impressions |}).
  set (q := {| minLikes := Some 10; minImpressions := None |}).
  set (tweets1 := if positive min_likes || positive min_impressions
                  then filterEngagement tweets o else tweets).
  assert (H1 : t ∈ tweets1 ->
               t ∈ tweets /\
               (forall m, min_likes = Some m -> 0 < m ->
                          m <= likes (metrics t)) /\
               (forall m, min_impressions = Some m -> 0 < m ->
                          m <= impressions (metrics t))).
  { unfold tweets1.
    destruct (positive min_likes || positive min_impressions) eqn:E.
    - intros Hin.
      apply filterEngagement_elem in Hin. destruct Hin as (Hin & Hl & Hi).
      split; [exact Hin|]. split; intros m Hm Hpos.
      + apply (Hl m); [|lia]. subst o. cbn. rewrite Hm. cbn.
        destruct (decide (m = 0)); [lia | reflexivity].
      + apply (Hi m); [|lia]. subst o. cbn. rewrite Hm. cbn.
        destruct (decide (m = 0)); [lia | reflexivity].
    - intros Hin. split; [exact Hin|].
      apply orb_false_iff in E. destruct E as [El Ei].
      split; intros m Hm Hpos; subst; cbn in *;
        apply Z.ltb_ge in El || apply Z.ltb_ge in Ei; lia. }
  destruct quality.
  - intros Hin. apply filterEngagement_elem in Hin.
    destruct Hin as (Hin & Hl & _).
    destruct (H1 Hin) as (Ht & Hml & Hmi).
    repeat split; try assumption.
    intros _. apply (Hl 10); [reflexivity | lia].
  - intros Hin. destruct (H1 Hin) as (Ht & Hml & Hmi).
    repeat split; try assumption. discriminate.
Qed.

Lemma selectEngaged_keeps (min_likes min_impressions : option Z)
    (quality : bool) (tweets : list Tweet) (t : Tweet) :
  t ∈ tweets ->
  asked_for min_likes min_impressions quality t ->
  t ∈ selectEngaged min_likes min_impressions quality tweets.
Proof.
  intros Hin (Hq & Hl & Hi). unfold selectEngaged.
  set (o := {| minLikes := or_undefined min_likes;
               minImpressions := or_undefined min_impressions |}).
  assert (H1 : t ∈ (if positive min_likes || positive min_impressions
                    then filterEngagement tweets o else tweets)).
  { destruct (positive min_likes || positive min_impressions);
      [|exact Hin].
    apply filterEngagement_elem. split; [exact Hin|].
    subst o. cbn [minLikes minImpressions]. split; intros m Hm Hnz.
    - apply (Hl m); [|exact Hnz].
      destruct min_likes as [v|]; [|discriminate Hm]. cbn in Hm.
      destruct (decide (v = 0)); [discriminate Hm | exact Hm].
    - apply (Hi m); [|exact Hnz].
      destruct min_impressions as [v|]; [|discriminate Hm]. cbn in Hm.
      destruct (decide (v = 0)); [discriminate Hm | exact Hm]. }
  destruct quality; [|exact H1].
  apply filterEngagement_elem. split; [exact H1|].
  cbn [minLikes minImpressions]. split; intros m Hm Hnz.
  - injection Hm as <-. apply Hq. reflexivity.
  - discriminate Hm.
Qed.

(** X17. The records [cmdSearch] has after filtering, sorting and
    deduping, before an output format takes its first [--limit] of them:
    no two share an identity; every one comes from the fetched records
    and has its likes at or above a positive [--min-likes], its
    impressions at or above a positive [--min-impressions], and at least
    10 likes under [--quality]; every fetched record that has what the
    options ask for has a record of its identity among them; and unless
    the sort is "recent" they are in descending order of the sort
    counter, each being the best-ranked of such records of its
    identity. *)
Theorem X17_search_results (min_likes min_impressions : option Z)
    (quality : bool) (sortOpt : string) (tweets : list Tweet) :
  let kept := postprocess min_likes min_impressions quality sortOpt tweets in
  NoDup (tweet_id <$> kept) /\
  (forall t, t ∈ kept ->
     t ∈ tweets /\
     (quality = true -> 10 <= likes (metrics t)) /\
     (forall m, min_likes = Some m -> 0 < m -> m <= likes (metrics t)) /\
     (forall m, min_impressions = Some m -> 0 < m ->
                m <= impressions (metrics t))) /\
  (forall t, t ∈ tweets ->
     asked_for min_likes min_impressions quality t ->
     tweet_id t ∈ tweet_id <$> kept) /\
  (sortOpt <> "recent" ->
   descending (sort_key sortOpt) kept /\
   forall t t', t ∈ kept -> t' ∈ tweets ->
                asked_for min_likes min_impressions quality t' ->
                tweet_id t' = tweet_id t ->
                sort_key sortOpt t' <= sort_key sortOpt t).
Proof.
  intros kept. subst kept. unfold postprocess.
  set (passing := selectEngaged min_likes min_impressions quality tweets).
  set (tweets3 := if decide (sortOpt <> "recent")
                  then sortBy passing sortOpt else passing).
  assert (Hperm : tweets3 ≡ₚ passing).
  { unfold tweets3. destruct (decide (sortOpt <> "recent"));
      [|reflexivity].
    unfold sortBy. apply stable_sort_perm. }
  unfold dedupe.
  split; [apply dedupe_from_NoDup|]. split; [|split].
  - intros t Ht. apply dedupe_from_elem in Ht. destruct Ht as [_ Ht].
    rewrite Hperm in Ht. apply selectEngaged_elem. exact Ht.
  - intros t Hin Hask.
    pose proof (selectEngaged_keeps _ _ _ _ _ Hin Hask) as Ht.
    fold passing in Ht. rewrite <- Hperm in Ht.
    destruct (dedupe_from_covers tweets3 ∅ t Ht) as [H|H];
      [apply not_elem_of_empty in H; contradiction | exact H].
  - intros Hsort. unfold tweets3.
    destruct (decide (sortOpt <> "recent")); [|contradiction].
    pose proof (compare_desc_key sortOpt) as Hk.
    assert (Hdesc : descending (sort_key sortOpt) (sortBy passing sortOpt))
      by (apply (stable_sort_descending _ _ Hk)).
    split.
    + eapply descending_sublist; [apply dedupe_from_sublist | exact Hdesc].
    + intros t t' Ht Hin Hask Hid.
      pose proof (selectEngaged_keeps _ _ _ _ _ Hin Hask) as Ht'.
      fold passing in Ht'.
      eapply dedupe_from_keeps_best; try eassumption.
      unfold sortBy. rewrite stable_sort_perm. exact Ht'.
Qed.

(** ** The watchlist *)

Section Watchlist.
Context (toLowerCase : string -> string).

Lemma same_user_sym (u v : string) (a : Account) :
  toLowerCase u = toLowerCase v ->
  same_user toLowerCase u a = same_user toLowerCase v a.
Proof. intros H. unfold same_user. rewrite H. reflexivity. Qed.

Lemma distinct_users_snoc (accounts : list Account) (a : Account) :
  distinct_users toLowerCase accounts ->
  Forall (fun b => same_user toLowerCase (acct_username a) b = false)
         accounts ->
  distinct_users toLowerCase (accounts ++ [a]).
Proof.
  induction accounts as [|b l IH]; cbn [distinct_users app].
  - intros _ _. split; [constructor | exact I].
  - intros [Hb Hl] Ha. apply Forall_cons in Ha. destruct Ha as [Hab Ha].
    split; [|apply IH; assumption].
    apply Forall_app. split; [exact Hb|].
    apply Forall_singleton. unfold same_user in *.
    apply bool_decide_eq_false. apply bool_decide_eq_false in Hab.
    congruence.
Qed.

(** X18. [watchlist add] never lists a user twice: a user already on
    the list, under whatever case, is reported and the file is left as it
    is; a new user is appended after the accounts already there; either
    way the user is on the list afterwards, and a list without two
    accounts of one user stays so. *)
Theorem X18_add_keeps_users_distinct (now : Z) (arg : option string)
    (words : list string) (accounts : list Account) (username : string) :
  truthy (strip_at <$> arg) = Some username ->
  exists accounts',
    snd (watchlistAdd toLowerCase now arg words (WatchHolds accounts))
      = WatchHolds accounts' /\
    Exists (fun a => same_user toLowerCase username a) accounts' /\
    (Exists (fun a => same_user toLowerCase username a) accounts ->
     accounts' = accounts /\
     fst (watchlistAdd toLowerCase now arg words (WatchHolds accounts))
       = AlreadyListed username) /\
    (Forall (fun a => same_user toLowerCase username a = false) accounts ->
     exists a,
       accounts' = accounts ++ [a] /\ acct_username a = username /\
       addedAt a = now /\
       fst (watchlistAdd toLowerCase now arg words (WatchHolds accounts))
         = Added username) /\
    (distinct_users toLowerCase accounts ->
     distinct_users toLowerCase accounts').
Proof.
  intros Harg. unfold watchlistAdd. cbn [loadWatchlist]. rewrite Harg.
  destruct (list_find (fun a => same_user toLowerCase username a) accounts)
    as [[i a]|] eqn:Hfind.
  - apply list_find_Some in Hfind. destruct Hfind as (Hi & Ha & _).
    exists accounts. cbn [fst snd].
    assert (Hex : Exists (fun a => same_user toLowerCase username a)
                    accounts).
    { apply Exists_exists. exists a. split; [|exact Ha].
      eapply list_elem_of_lookup_2. exact Hi. }
    split; [reflexivity|]. split; [exact Hex|].
    split; [intros _; split; reflexivity|].
    split; [|intros H; exact H].
    intros Hall. exfalso. rewrite Forall_forall in Hall.
    assert (Hin : a ∈ accounts) by (eapply list_elem_of_lookup_2; exact Hi).
    specialize (Hall a Hin). rewrite Hall in Ha. exact Ha.
  - apply list_find_None in Hfind.
    eexists. cbn [fst snd]. split; [reflexivity|].
    assert (Hself : same_user toLowerCase username
              {| acct_username := username;
                 note := truthy (Some (join_words words));
                 addedAt := now |} = true)
      by (unfold same_user; apply bool_decide_eq_true; reflexivity).
    split; [|split; [|split]].
    + apply Exists_app. right. constructor. rewrite Hself. exact I.
    + intros Hex. exfalso. apply Exists_exists in Hex.
      destruct Hex as (b & Hb & Hsame). rewrite Forall_forall in Hfind.
      apply (Hfind b Hb). exact Hsame.
    + intros _. eexists. repeat split; reflexivity.
    + intros Hd. apply distinct_users_snoc; [exact Hd|].
      eapply Forall_impl; [exact Hfind|]. cbn. intros b Hb.
      destruct (same_user toLowerCase username b); [|reflexivity].
      exfalso. apply Hb. exact I.
Qed.

Lemma remove_filter_length (username : string) (accounts : list Account) :
  (length (filter (fun a => negb (same_user toLowerCase username a))
             accounts) < length accounts)%nat <->
  Exists (fun a => same_user toLowerCase username a) accounts.
Proof.
  induction accounts as [|a l IH].
  - cbn. split; [lia | intros H; inversion H].
  - rewrite filter_cons, Exists_cons.
    pose proof (length_filter
                  (fun a => negb (same_user toLowerCase username a)) l)
      as Hle.
    destruct (same_user toLowerCase username a) eqn:E; cbn [negb].
    + rewrite decide_False by (intros H; exact H). cbn [length].
      split; [intros _; left; exact I | intros _; lia].
    + rewrite decide_True by exact I. cbn [length].
      rewrite <- IH. split; [intros H; right; lia|].
      intros [H|H]; [contradiction | lia].
Qed.

(** X19. [watchlist remove] keeps, in their order, exactly the accounts
    that are not the named user (names compared in lower case), so the
    user is off the list afterwards; it reports a removal exactly when
    the user was on the list; and removing a user that was just added to
    a list that did not have it gives the list back. *)
Theorem X19_remove_takes_user_off (now : Z) (arg : option string)
    (words : list string) (accounts : list Account) (username : string) :
  truthy (strip_at <$> arg) = Some username ->
  exists accounts',
    snd (watchlistRemove toLowerCase arg (WatchHolds accounts))
      = WatchHolds accounts' /\
    accounts' = filter (fun a => negb (same_user toLowerCase username a))
                  accounts /\
    Forall (fun a => same_user toLowerCase username a = false) accounts' /\
    (fst (watchlistRemove toLowerCase arg (WatchHolds accounts))
       = Removed username <->
     Exists (fun a => same_user toLowerCase username a) accounts) /\
    (Forall (fun a => same_user toLowerCase username a = false) accounts ->
     accounts' = accounts /\
     snd (watchlistRemove toLowerCase arg
            (snd (watchlistAdd toLowerCase now arg words
                    (WatchHolds accounts))))
       = WatchHolds accounts).
Proof.
  intros Harg.
  assert (Hkeep : forall l,
            Forall (fun a => same_user toLowerCase username a = false) l ->
            filter (fun a => negb (same_user toLowerCase username a)) l = l).
  { induction l as [|a l IH]; [reflexivity|].
    intros H. apply Forall_cons in H. destruct H as [Ha Hl].
    rewrite filter_cons, Ha. cbn [negb].
    rewrite decide_True by exact I. rewrite (IH Hl). reflexivity. }
  unfold watchlistRemove at 1 2. cbn [loadWatchlist]. rewrite Harg.
  cbn [fst snd]. eexists. split; [reflexivity|]. split; [reflexivity|].
  split; [|split].
  - apply Forall_forall. intros a Ha.
    apply list_elem_of_filter in Ha. destruct Ha as [Ha _].
    destruct (same_user toLowerCase username a); [contradiction|reflexivity].
  - destruct (Nat.ltb_spec
                (length (filter
                           (fun a => negb (same_user toLowerCase username a))
                           accounts))
                (length accounts)) as [Hlt|Hge].
    + split; [intros _; apply remove_filter_length, Hlt | reflexivity].
    + split; [discriminate|].
      intros H. apply remove_filter_length in H. lia.
  - intros Hall. split; [apply Hkeep, Hall|].
    unfold watchlistAdd. cbn [loadWatchlist]. rewrite Harg.
    assert (Hfind : list_find (fun a => same_user toLowerCase username a)
                      accounts = None).
    { apply list_find_None. eapply Forall_impl; [exact Hall|].
      cbn. intros a Ha. rewrite Ha. intros H; exact H. }
    rewrite Hfind. cbn [snd].
    unfold watchlistRemove. cbn [loadWatchlist]. rewrite Harg. cbn [snd].
    f_equal. rewrite filter_app, (Hkeep _ Hall).
    rewrite filter_cons, filter_nil.
    assert (Hself : same_user toLowerCase username
              {| acct_username := username;
                 note := truthy (Some (join_words words));
                 addedAt := now |} = true)
      by (unfold same_user; apply bool_decide_eq_true; reflexivity).
    rewrite Hself. cbn [negb].
    rewrite decide_False by (intros H; exact H).
    apply app_nil_r.
Qed.

End Watchlist.

Lemma X18_add_keeps_users_distinct_witness :
  truthy (strip_at <$> Some "@Rocq") = Some "Rocq" /\
  exists accounts',
    snd (watchlistAdd (fun s => s) a_clock (Some "@Rocq") ["prover"]
           (WatchHolds [])) = WatchHolds accounts' /\
    Exists (fun a => same_user (fun s => s) "Rocq" a) accounts'.
Proof.
  split; [reflexivity|].
  destruct (X18_add_keeps_users_distinct (fun s => s) a_clock
              (Some "@Rocq") ["prover"] [] "Rocq" eq_refl)
    as (accounts' & Hsnd & Hex & _).
  exists accounts'. split; assumption.
Defined.

Lemma X19_remove_takes_user_off_witness :
  truthy (strip_at <$> Some "@Rocq") = Some "Rocq" /\
  snd (watchlistRemove (fun s => s) (Some "@Rocq")
         (WatchHolds [{| acct_username := "Rocq"; note := None;
                         addedAt := 0 |};
                      {| acct_username := "stdpp"; note := None;
                         addedAt := 1 |}]))
    = WatchHolds [{| acct_username := "stdpp"; note := None;
                     addedAt := 1 |}].
Proof.
  split; [reflexivity|].
  destruct (X19_remove_takes_user_off (fun s => s) 0 (Some "@Rocq") []
              [{| acct_username := "Rocq"; note := None; addedAt := 0 |};
               {| acct_username := "stdpp"; note := None; addedAt := 1 |}]
              "Rocq" eq_refl)
    as (accounts' & Hsnd & -> & _).
  rewrite Hsnd. reflexivity.
Defined.

End CliProps.

(** * Properties of the usage report *)

Module ReportProps.
Import Usage.
Import Api.
Import Report.
Import LedgerProps.
Open Scope list_scope.

Section WithBuiltins.
Context (B : Builtins).

Lemma day_reads_total (day : RawDay) : day_reads day = apps_total day.
Proof.
  unfold day_reads, apps_total.
  assert (H : forall (apps : list RawApp) (acc : Z),
            fold_left (fun dayReads app => dayReads + or_num (app_tweets app) 0)
                      apps acc
            = acc + foldr Z.add 0 (default 0 ∘ app_tweets <$> apps)).
  { induction apps as [|app apps IH]; intros acc; cbn [fold_left].
    - cbn. lia.
    - rewrite IH, fmap_cons. cbn [foldr]. rewrite ApiProps.or_num_default.
      unfold compose at 2. lia. }
  rewrite H. lia.
Qed.

Lemma parse_days_spec (days : list RawDay) :
  forall acc total,
    match parse_days B days acc total with
    | Ok (rows, tot) =>
        exists new,
          rows = acc ++ new /\
          tot = total + sum_reads new /\
          Forall2 (row_of B) days new
    | Fail err => err = InvalidTime /\ Exists (bad_date B) days
    end.
Proof.
  induction days as [|day days IH]; intros acc total; cbn [parse_days].
  - exists []. rewrite app_nil_r. cbn. repeat split; try lia. constructor.
  - destruct (truthy (day_date day)) as [d|] eqn:Hd.
    + destruct (Date_parse B d) as [t|] eqn:Ht; cbn [iso_day].
      * specialize (IH (acc ++
                     [{| date := before_T (Date_iso B t);
                         postReads := day_reads day;
                         estimatedCost := (inject_Z (day_reads day) * 0.005)%Q
                       |}])
                    (total + day_reads day)).
        destruct (parse_days B days _ _) as [[rows tot]|err].
        -- destruct IH as (new & -> & -> & Hrows).
           eexists (_ :: new). rewrite <- app_assoc. cbn [app].
           split; [reflexivity|]. cbn [sum_reads fold_right postReads].
           fold (sum_reads new). split; [lia|].
           constructor; [|exact Hrows].
           split; [apply day_reads_total|]. cbn [date].
           split; [intros H; rewrite Hd in H; discriminate H|].
           intros d' t' Hd' Ht'. rewrite Hd in Hd'. injection Hd' as <-.
           rewrite Ht in Ht'. injection Ht' as <-. reflexivity.
        -- destruct IH as [-> Hex]. split; [reflexivity|].
           apply Exists_cons. right. exact Hex.
      * split; [reflexivity|]. apply Exists_cons. left. exists d. auto.
    + specialize (IH (acc ++
                     [{| date := "unknown";
                         postReads := day_reads day;
                         estimatedCost := (inject_Z (day_reads day) * 0.005)%Q
                       |}])
                    (total + day_reads day)).
      destruct (parse_days B days _ _) as [[rows tot]|err].
      * destruct IH as (new & -> & -> & Hrows).
        eexists (_ :: new). rewrite <- app_assoc. cbn [app].
        split; [reflexivity|]. cbn [sum_reads fold_right postReads].
        fold (sum_reads new). split; [lia|].
        constructor; [|exact Hrows].
        split; [apply day_reads_total|]. cbn [date].
        split; [reflexivity|].
        intros d' t' Hd'. rewrite Hd in Hd'. discriminate Hd'.
      * destruct IH as [-> Hex]. split; [reflexivity|].
        apply Exists_cons. right. exact Hex.
Qed.

(** X22. The report [parseUsageResponse] builds has one row per day of
    the response, in order: the row's reads are the counts of the day's
    apps added up (a missing count or list counting for 0) and its date
    is the day's, "unknown" when the day has none; the total reads are
    the sum of the rows' reads. It fails only when [data.data] is an
    object without a [daily_project_usage] array (not iterable) or when
    a date, of a day or of the period, is invalid. *)
Theorem X22_report_rows_follow_days (data : RawUsage)
    (startTime endTime : option Z) :
  match parseUsageResponse B data startTime endTime with
  | Ok r =>
      exists days,
        dailyData data = Some days /\
        Forall2 (row_of B) days (dailyUsage r) /\
        totalPostReads r = sum_reads (dailyUsage r) /\
        totalPostReads r = foldr Z.add 0 (apps_total <$> days)
  | Fail err =>
      (err = NotIterable /\ dailyData data = None) \/
      (err = InvalidTime /\
       (startTime = None \/ endTime = None \/
        exists days, dailyData data = Some days /\ Exists (bad_date B) days))
  end.
Proof.
  unfold parseUsageResponse.
  destruct (dailyData data) as [days|]; [|left; split; reflexivity].
  pose proof (parse_days_spec days [] 0) as Hspec.
  destruct (parse_days B days [] 0) as [[rows tot]|err].
  - destruct Hspec as (new & Hrows & Htot & Hall).
    cbn [app] in Hrows. subst rows.
    destruct startTime as [s|], endTime as [e|]; cbn [iso_day];
      try (right; split; [reflexivity | tauto]).
    exists days. cbn [dailyUsage totalPostReads].
    split; [reflexivity|]. split; [exact Hall|]. split; [lia|].
    rewrite Htot. clear Htot.
    induction Hall as [|day row days' new' Hrow _ IH]; [reflexivity|].
    rewrite fmap_cons. cbn [sum_reads fold_right foldr].
    fold (sum_reads new'). destruct Hrow as [-> _].
    cbn in IH. lia.
  - destruct Hspec as [-> Hex]. right. split; [reflexivity|].
    right. right. exists days. split; [reflexivity | exact Hex].
Qed.

(** X23. [fetchUsage] sends its request only with a bearer token and a
    valid period: without a token, or when the period start
    [now - days * 86400000] or the end is not a valid date (as with a
    huge [--days]), it fails before anything is sent; in every other case
    exactly the one request is sent. *)
Theorem X23_usage_request_needs_token_and_period (token : option string)
    (e : Env) (days : option Z) (res : UsageHttp) (f : BudgetFile) :
  snd (fetchUsage B token e days res f) = true <->
  is_Some token /\
  is_Some (new_Date (Some (now e - or_num days 7 * 86400000))) /\
  is_Some (new_Date (Some (now e))).
Proof.
  unfold fetchUsage.
  destruct token as [tk|].
  2:{ split; [discriminate | intros ([x Hx] & _); discriminate Hx]. }
  destruct (new_Date (Some (now e - or_num days 7 * 86400000))) as [s|].
  2:{ split; [discriminate | intros (_ & [x Hx] & _); discriminate Hx]. }
  destruct (new_Date (Some (now e))) as [t|].
  2:{ split; [discriminate | intros (_ & _ & [x Hx]); discriminate Hx]. }
  assert (Hsent : forall r : Result UsageResponse * bool,
            r = (fst r, true) -> snd r = true).
  { intros [r b] H. injection H as ->. reflexivity. }
  split; [intros _; repeat split; by eexists|]. intros _.
  destruct (decide (u_status res = 429)); [reflexivity|].
  destruct (negb _).
  - destruct (decide (u_status res = 403 \/ u_status res = 404));
      reflexivity.
  - destruct (u_body_json res); reflexivity.
Qed.

(** X24. When the usage endpoint answers 403 or 404, [fetchUsage]
    reports the local ledger instead of failing: one row for today with
    today's reads and cost, and as totals the rolling reads and cost;
    for a ledger that keeps the accounting invariant each reported cost
    is its reads * 0.005. The budget file is only read. *)
Theorem X24_usage_falls_back_to_ledger (bearer : string) (e : Env)
    (days : option Z) (res : UsageHttp) (f : BudgetFile) :
  is_Some (new_Date (Some (now e - or_num days 7 * 86400000))) ->
  is_Some (new_Date (Some (now e))) ->
  u_status res = 403 \/ u_status res = 404 ->
  exists r row,
    fetchUsage B (Some bearer) e days res f = (Ok r, true) /\
    dailyUsage r = [row] /\
    postReads row = todayPostReads (localTracking (loaded e f)) /\
    estimatedCost row = todayCost (localTracking (loaded e f)) /\
    totalPostReads r = rollingPostReads (localTracking (loaded e f)) /\
    totalEstimatedCost r = rollingCost (localTracking (loaded e f)) /\
    snd (fallbackLocalUsage B e f) = f /\
    (file_ok f ->
     (estimatedCost row == inject_Z (postReads row) * UNIT_PRICE)%Q /\
     (totalEstimatedCost r
        == inject_Z (totalPostReads r) * UNIT_PRICE)%Q).
Proof.
  intros [s Hs] [t Ht] Hst. unfold fetchUsage. rewrite Hs, Ht.
  destruct (decide (u_status res = 429)) as [H429|_];
    [destruct Hst as [H|H]; rewrite H in H429; discriminate H429|].
  assert (Hnok : negb ((200 <=? u_status res) && (u_status res <=? 299))
                 = true)
    by (destruct Hst as [-> | ->]; reflexivity).
  rewrite Hnok.
  destruct (decide (u_status res = 403 \/ u_status res = 404));
    [|contradiction].
  unfold fallbackLocalUsage, bind, ret. rewrite loadBudget_eq.
  cbn [fst snd]. eexists. eexists.
  split; [reflexivity|]. cbn.
  repeat split; try reflexivity.
  - apply (loaded_ok e f H).
  - apply (loaded_ok e f H).
Qed.

End WithBuiltins.

Lemma X24_usage_falls_back_to_ledger_witness :
  let e := {| boot := a_clock; now := a_clock |} in
  let res := {| u_status := 403; u_body_text := "Forbidden";
                u_body_json := None |} in
  is_Some (new_Date (Some (now e - or_num None 7 * 86400000))) /\
  is_Some (new_Date (Some (now e))) /\
  exists r row,
    fetchUsage plain_builtins (Some "secret") e None res FileAbsent
      = (Ok r, true) /\
    dailyUsage r = [row].
Proof.
  intros e res.
  assert (Hs : is_Some (new_Date (Some (now e - or_num None 7 * 86400000))))
    by (eexists; reflexivity).
  assert (Ht : is_Some (new_Date (Some (now e)))) by (eexists; reflexivity).
  split; [exact Hs|]. split; [exact Ht|].
  destruct (X24_usage_falls_back_to_ledger plain_builtins "secret" e None
              res FileAbsent Hs Ht (or_introl eq_refl))
    as (r & row & Hget & Hrows & _).
  exists r, row. split; assumption.
Defined.

End ReportProps.

(** * Properties of the lookups *)

Module LookupProps.
Import Api.
Import ApiMore.
Import Lookup.
Import SearchMore.
Open Scope list_scope.

(** [apiGet_as] at the type of a search page is [apiGet]. *)
Lemma apiGet_as_body_json (w : World) (url : string) (io : IO) :
  apiGet_as (fun k => body_json (remote w k)) w url io = apiGet w url io.
Proof. reflexivity. Qed.

Lemma apiGet_as_answer {A : Type} (body : nat -> option A) (w : World)
    (url bearer : string) (io : IO) :
  token w = Some bearer ->
  apiGet_as body w url io =
    (answer_as body w (calls io),
     {| calls := S (calls io); trace := trace io ++ [EvFetch url bearer] |}).
Proof.
  intros H. unfold answer_as, apiGet_as. rewrite H. cbn [calls trace].
  destruct (decide (status (remote w (calls io)) = 429)); [reflexivity|].
  destruct (negb (ok (remote w (calls io)))); [reflexivity|].
  destruct (body (calls io)); reflexivity.
Qed.

Lemma apiGet_as_calls {A : Type} (body : nat -> option A) (w : World)
    (url : string) (io : IO) :
  (calls (snd (apiGet_as body w url io)) <= S (calls io))%nat.
Proof.
  destruct (token w) as [tk|] eqn:H.
  - rewrite (apiGet_as_answer body w url tk io H). cbn. lia.
  - unfold apiGet_as. rewrite H. cbn. lia.
Qed.

Lemma answer_as_any_state {A : Type} (body : nat -> option A) (w : World)
    (url : string) (io : IO) :
  fst (apiGet_as body w url io) = answer_as body w (calls io).
Proof.
  destruct (token w) as [tk|] eqn:H.
  - rewrite (apiGet_as_answer body w url tk io H). reflexivity.
  - unfold answer_as, apiGet_as. rewrite H. reflexivity.
Qed.

Section WithBuiltins.
Context (B : Builtins).

(** X25. [thread] is the conversation search with the root tweet put in
    front when the root lookup delivers one: if the search throws,
    [thread] throws the same error and the root is not looked up; if the
    search returns, [thread] returns, whatever happens to the root lookup
    (an error there is swallowed), with at most one record in front of
    the search results, after at most one more request; that record is
    the tweet [getTweet] makes of the same response. *)
Theorem X25_thread_root_is_optional (w : World)
    (lookup : nat -> option LookupBody) (now : Z) (conversationId : string)
    (pages : option Z) (io : IO) :
  let found :=
    search B w now ("conversation_id:" +:+ conversationId)
      {| maxResults := None; pages := Some (or_num pages 2);
         sortOrder := Some recency; since := None |} io in
  match fst found with
  | Throws e =>
      thread B w lookup now conversationId pages io = (Throws e, snd found)
  | Returns tweets =>
      exists root,
        fst (thread B w lookup now conversationId pages io)
          = Returns (root ++ tweets) /\
        (length root <= 1)%nat /\
        (calls (snd (thread B w lookup now conversationId pages io))
         <= S (calls (snd found)))%nat /\
        (forall e, answer_as lookup w (calls (snd found)) = Throws e ->
                   root = []) /\
        (forall tw,
           fst (getTweet w lookup conversationId (snd found))
             = Returns (Some tw) ->
           root = [tw])
  end.
Proof.
  cbv zeta. unfold thread, getTweet.
  destruct (search B w now _ _ io) as [[tweets|e] io1]; cbn [fst snd];
    [|reflexivity].
  pose proof (apiGet_as_calls lookup w
                (BASE +:+ "/tweets/" +:+ conversationId +:+ "?" +:+ FIELDS)
                io1) as Hcalls.
  pose proof (answer_as_any_state lookup w
                (BASE +:+ "/tweets/" +:+ conversationId +:+ "?" +:+ FIELDS)
                io1) as Hans.
  destruct (apiGet_as lookup w _ io1) as [[raw|e] io2];
    cbn [fst snd] in *.
  - assert (Hlen : (length (parseTweets (with_data raw (root_items raw)))
                    <= 1)%nat).
    { unfold parseTweets, with_data. cbn [data]. rewrite length_map.
      unfold root_items. destruct (lk_data raw); cbn; try lia.
      destruct (truthy (t_id (lk_self raw))); cbn; lia. }
    exists (parseTweets (with_data raw (root_items raw))).
    split; [|split; [exact Hlen|split; [|split]]].
    + destruct (parseTweets (with_data raw (root_items raw)));
        reflexivity.
    + destruct (parseTweets (with_data raw (root_items raw)));
        exact Hcalls.
    + intros e He. rewrite <- Hans in He. discriminate He.
    + intros tw Htw. unfold root_items.
      destruct (lk_data raw) as [|item|items]; cbn [fst] in Htw;
        try (injection Htw as Htw; discriminate Htw).
      injection Htw as Htw. cbn in Htw. subst tw.
      reflexivity.
  - exists []. cbn [app length].
    split; [reflexivity|split; [lia|split; [exact Hcalls|split]]].
    + intros e' _. reflexivity.
    + intros tw Htw. discriminate Htw.
Qed.

(** X26. [profile] looks the user up first and searches only when the
    lookup delivers a user: with a bearer token, a lookup that fails or
    finds no user ends [profile] with that error after the one request
    (no user is "User not found"), and a lookup that finds a user is
    followed by one pause of 350 ms and exactly one search request. *)
Theorem X26_profile_requests {U : Type} (w : World)
    (user : nat -> option (option U)) (now : Z) (username bearer : string)
    (count : option Z) (includeReplies : bool) (io : IO) :
  token w = Some bearer ->
  let userUrl :=
    BASE +:+ "/users/by/username/" +:+ username
      +:+ "?user.fields=public_metrics,description,created_at" in
  let done := profile B w user now username count includeReplies io in
  match answer_as user w (calls io) with
  | Throws e =>
      done = (inl (Failed e),
              {| calls := S (calls io);
                 trace := trace io ++ [EvFetch userUrl bearer] |})
  | Returns None =>
      done = (inl (UserNotFound username),
              {| calls := S (calls io);
                 trace := trace io ++ [EvFetch userUrl bearer] |})
  | Returns (Some u) =>
      exists url,
        snd done =
          {| calls := S (S (calls io));
             trace := trace io ++
                      [EvFetch userUrl bearer; EvSleep RATE_DELAY_MS;
                       EvFetch url bearer] |} /\
        match answer w (S (calls io)) with
        | Returns page => fst done = inr (u, parseTweets page)
        | Throws e => fst done = inl (Failed e)
        end
  end.
Proof.
  intros Htok userUrl done. subst done. unfold profile. fold userUrl.
  rewrite (apiGet_as_answer user w userUrl bearer io Htok).
  destruct (answer_as user w (calls io)) as [[u|]|e]; try reflexivity.
  unfold search, time_filter. cbn [since truthy pages or_num].
  change (Z.to_nat 1) with 1%nat. cbn [search_pages sleep calls trace].
  rewrite (apiGet_answer w _ bearer _ Htok). cbn [calls trace].
  unfold sleep. cbn [calls trace].
  eexists.
  destruct (answer w (S (calls io))) as [page|e].
  - destruct (truthy (meta page ≫= next_token)).
    + destruct (decide (0%nat <> 0%nat)) as [H|_]; [contradiction|].
      cbn [fst snd app]. rewrite <- !app_assoc. split; reflexivity.
    + cbn [fst snd app]. rewrite <- !app_assoc. split; reflexivity.
  - cbn [fst snd app]. rewrite <- !app_assoc. split; reflexivity.
Qed.

End WithBuiltins.

Lemma X26_profile_requests_witness :
  token thread_world = Some "secret" /\
  profile Report.plain_builtins thread_world
    (fun _ => Some (@None unit)) a_clock "nobody" None false io0
    = (inl (UserNotFound "nobody"),
       {| calls := 1;
          trace := [EvFetch
                      (BASE +:+ "/users/by/username/" +:+ "nobody"
                         +:+ "?user.fields=public_metrics,description,created_at")
                      "secret"] |}).
Proof.
  split; [reflexivity|].
  exact (X26_profile_requests Report.plain_builtins thread_world
           (fun _ => Some (@None unit)) a_clock "nobody" "secret" None false
           io0 eq_refl).
Defined.

End LookupProps.
